(** * BMX-BOT: connection supervisor, pairing, dedup cache, maintenance timers

    A shallow embedding of [src/index.js].  The module-level variables of the
    script ([viewedStatus], [retryAttempts], [presenceInterval],
    [statusSyncInterval]) become fields of one [State] record, next to the
    pieces of the JavaScript runtime the script relies on: the timer table
    of [setTimeout]/[setInterval], the suspended activations of its [async]
    functions, the sockets that have listeners attached, a simulated clock
    and the chronological list of outbound calls and console lines.

    Every function of the script is a function on [State] with the name it
    has in the source.  An [async] function is cut at each [await] whose
    continuation touches module-level state: the part up to the [await] is
    one function, the continuation is run by [resume] when the awaited
    promise settles.  Where the continuation only prints or calls the
    transport ([handleStatusView], [handleAntiDelete], the interval
    callbacks) it runs in the turn that starts it, and the transport's
    answers are given by the [Net] of that turn.  The event loop is [step];
    [run] folds it over a list of events.

    Time is a simulated clock: it does not run past a timer that is due,
    and a timer fires no earlier than it is due.  [setTimeout] and
    [setInterval] are Node's: a delay below 1 ms or above 2^31 - 1 ms is
    replaced by 1 ms.  Left out: the [readline] interface and the
    [unhandledRejection] handler (lines 327-329). *)

From Stdlib Require Import ZArith List String Ascii Bool Lia Arith DecimalString.
Import ListNotations.
Open Scope Z_scope.
Open Scope string_scope.
Open Scope list_scope.

(** ** JavaScript values used by the script *)

Module JS.

(** Result of a call that may [throw]. *)
Inductive Completion (A : Type) : Type :=
| Normal (a : A)
| Throw (message : string).
Arguments Normal {A} a.
Arguments Throw {A} message.

(** Truthiness of a possibly-undefined string: [undefined] and [''] are
    falsy. *)
Definition truthy_string (v : option string) : option string :=
  match v with
  | Some EmptyString => None
  | other => other
  end.

(** Truthiness of a possibly-undefined number: [undefined] and [0] are
    falsy. *)
Definition truthy_number (v : option Z) : option Z :=
  match v with
  | Some 0 => None
  | other => other
  end.

(** [v || d] on numbers. *)
Definition number_or (v : option Z) (d : Z) : Z :=
  match truthy_number v with
  | Some n => n
  | None => d
  end.

(** The character class [[0-9]] (what [\d] means without the [u] flag). *)
Definition is_digit (c : ascii) : bool :=
  let n := nat_of_ascii c in
  (Nat.leb 48 n && Nat.leb n 57)%bool.

Fixpoint string_filter (p : ascii -> bool) (s : string) : string :=
  match s with
  | EmptyString => EmptyString
  | String c r => if p c then String c (string_filter p r) else string_filter p r
  end.

Fixpoint string_forall (p : ascii -> bool) (s : string) : bool :=
  match s with
  | EmptyString => true
  | String c r => (p c && string_forall p r)%bool
  end.

(** [s.split(sep)[0]]: the text before the first separator, the whole
    string when there is none. *)
Fixpoint before_first (sep : ascii) (s : string) : string :=
  match s with
  | EmptyString => EmptyString
  | String c r => if Ascii.eqb c sep then EmptyString else String c (before_first sep r)
  end.

(** [/^\d{10,15}$/.test(s)] *)
Definition digits_10_15 (s : string) : bool :=
  (string_forall is_digit s
   && Nat.leb 10 (String.length s) && Nat.leb (String.length s) 15)%bool.

(** *** [Set] of strings

    A JavaScript [Set] iterates in insertion order and holds no value
    twice: a list without duplicates, oldest entry first. *)
Definition StrSet := list string.

Definition has (x : string) (s : StrSet) : bool :=
  existsb (String.eqb x) s.

Definition add (x : string) (s : StrSet) : StrSet :=
  if has x s then s else s ++ [x].

Definition delete (x : string) (s : StrSet) : StrSet :=
  filter (fun y => negb (String.eqb x y)) s.

Definition size (s : StrSet) : nat := List.length s.

(** [s.values()] is a live iterator: it walks the entries that were in
    the set when it was created, in order, and skips those deleted in
    the meantime.  [iterator_next s it] is [it.next().value] together
    with the iterator's remaining entries; [None] is [undefined]. *)
Definition values (s : StrSet) : list string := s.

Fixpoint iterator_next (s : StrSet) (it : list string)
  : option string * list string :=
  match it with
  | [] => (None, [])
  | x :: rest => if has x s then (Some x, rest) else iterator_next s rest
  end.

(** [s.delete(v)] where [v] may be [undefined] (never a member). *)
Definition delete_value (v : option string) (s : StrSet) : StrSet :=
  match v with
  | Some x => delete x s
  | None => s
  end.

End JS.

(** ** Configuration ([require("./settings")]) *)

Record Config : Type := mkConfig {
  botName : option string;
  ownerNumber : option string;
  reconnectDelay : option Z;
  pairingDelay : option Z;
  autoViewStatus : bool;
  autoReactStatus : bool;
  statusReactionEmoji : option string;
  antiDelete : bool;
  antiCall : bool
}.

(** ** Constants (lines 15-20) *)

Definition STATUS_CLEANUP_INTERVAL : Z := 3600000.
Definition MAX_RETRY_ATTEMPTS : Z := 5.
Definition PRESENCE_UPDATE_INTERVAL : Z := 60000.
Definition STATUS_SYNC_INTERVAL : Z := 300000.

Definition PAIRING_STABILIZATION_DELAY (config : Config) : Z :=
  JS.number_or (pairingDelay config) 10000.

(** [MAX_VIEWED_STATUS_SIZE] is 1000 in the script.  The functions below
    take the capacity as an argument so that the cache can also be studied
    at other capacities. *)
Definition MAX_VIEWED_STATUS_SIZE_default : nat := 1000.

(** ** Pure helpers (lines 28-47) *)

Definition formatPhoneNumber (phone : string) : string :=
  JS.string_filter JS.is_digit phone.

Definition extractUsername (jid : option string) : string :=
  match jid with
  | None => "Unknown"
  | Some j =>
      match JS.before_first "@"%char j with
      | EmptyString => "Unknown"
      | name => name
      end
  end.

(** [!!config[key]] for the three required keys. *)
Definition config_truthy (config : Config) (key : string) : bool :=
  if String.eqb key "botName" then
    match JS.truthy_string (botName config) with Some _ => true | None => false end
  else if String.eqb key "ownerNumber" then
    match JS.truthy_string (ownerNumber config) with Some _ => true | None => false end
  else if String.eqb key "reconnectDelay" then
    match JS.truthy_number (reconnectDelay config) with Some _ => true | None => false end
  else false.

Definition required : list string := ["botName"; "ownerNumber"; "reconnectDelay"].

Definition validateConfig (config : Config) : JS.Completion unit :=
  let missing := filter (fun key => negb (config_truthy config key)) required in
  if Nat.ltb 0 (List.length missing) then
    JS.Throw (String.append "Missing required config: " (String.concat ", " missing))
  else
    match JS.truthy_string (ownerNumber config) with
    | Some owner =>
        if negb (JS.digits_10_15 owner)
        then JS.Throw "Invalid owner number format"
        else JS.Normal tt
    | None => JS.Normal tt
    end.

(** ** Dedup cache eviction (lines 49-57) *)

(** The [for] loop of [cleanupViewedStatus]: [n] iterations, each taking
    the iterator's next value and deleting it from the set. *)
Fixpoint cleanup_loop (n : nat) (it : list string) (s : JS.StrSet) : JS.StrSet :=
  match n with
  | O => s
  | S n' =>
      let '(v, it') := JS.iterator_next s it in
      cleanup_loop n' it' (JS.delete_value v s)
  end.

Definition cleanupViewedStatus (capacity : nat) (viewedStatus : JS.StrSet) : JS.StrSet :=
  if Nat.ltb capacity (JS.size viewedStatus) then
    let toDelete := (JS.size viewedStatus - capacity)%nat in
    let iterator := JS.values viewedStatus in
    cleanup_loop toDelete iterator viewedStatus
  else viewedStatus.

(** ** The runtime around the script *)

Abbreviation SockId := nat (only parsing).
Abbreviation TimerId := nat (only parsing).
Abbreviation TaskId := nat (only parsing).

(** *** Messages delivered by [messages.upsert] *)

Record MessageKey : Type := mkKey {
  key_id : string;
  key_remoteJid : option string;
  key_participant : option string
}.

Record ProtocolMessage : Type := mkProtocolMessage {
  pm_type : Z;
  pm_key : option MessageKey
}.

Record MessageContent : Type := mkContent {
  protocolMessage : option ProtocolMessage
}.

Record Message : Type := mkMessage {
  key : MessageKey;
  message : option MessageContent
}.

(** *** [connection.update] payload *)

Inductive Connection : Type := ConnClose | ConnOpen | ConnConnecting.

(** [lastDisconnect.error]: a [Boom] carries [output.statusCode]; any
    other error value is not an instance of [Boom]. *)
Inductive DisconnectError : Type :=
| Boom (statusCode : Z)
| OtherError.

Record LastDisconnect : Type := mkLastDisconnect {
  error : option DisconnectError
}.

Record Update : Type := mkUpdate {
  connection : option Connection;
  lastDisconnect : option LastDisconnect
}.

(** *** Outbound calls and console lines *)

Inductive Payload : Type :=
| PText (text : string)
| PReact (text : string) (statusId : string) (statusJidList : list string)
| PAlert (deletedJid : string).

Inductive Call : Type :=
| ReadMessages (statusId : string)
| SendMessage (target : string) (payload : Payload)
| SendPresenceUpdate
| RequestPairingCode (phoneNumber : string).

Inductive Console : Type :=
| LogStabilizing
| LogPairCode (code : string)
| LogPairingError (message : string)
| LogRetrying (attempt : Z)
| LogViewedStatus (user : string)
| LogStatusViewError
| LogAntiDelete (user : string)
| LogAntiDeleteError
| LogStatusInitialized
| LogStatusInitFailed
| LogStatusRefreshed
| LogConnectionLost (delay : Z)
| LogLoggedOut
| LogOnline
| LogBotInitialized
| LogFatal (message : string)
| LogRestarting (delay : Z).

Inductive Effect : Type :=
| Print (line : Console)
| Transport (sock : SockId) (call : Call)
| Question
| MakeSocket (sock : SockId)
| Listen (sock : SockId).

(** *** Timers *)

Inductive Callback : Type :=
| CbStartBot                           (* () => startBot()                 l.250, l.314 *)
| CbDeleteStatus (statusId : string)   (* () => viewedStatus.delete(id)    l.106 *)
| CbUpdatePresence (sock : SockId)     (* () => updatePresence(sock)       l.205 *)
| CbStatusSync (sock : SockId)         (* async () => sendMessage(...)     l.225 *)
| CbResolve (task : TaskId).           (* resolve of a sleep promise       l.69, l.88 *)

Record Timer : Type := mkTimer {
  t_id : TimerId;
  t_due : Z;
  t_every : option Z;      (* [Some p] for [setInterval], [None] for [setTimeout] *)
  t_callback : Callback
}.

(** *** Suspended [async] activations *)

(** Where [getPairingCode] is waiting. *)
Inductive PairingPoint : Type :=
| Stabilizing                       (* l.69: await setTimeout(PAIRING_STABILIZATION_DELAY) *)
| Prompting                         (* l.71: await question(...) *)
| Requesting (phoneNumber : string) (* l.78: await sock.requestPairingCode(phoneNumber) *)
| BackingOff.                       (* l.88: await setTimeout(3000) *)

Inductive Task : Type :=
| BootAuthState                                 (* startBot at l.276 *)
| BootVersion (registered : bool)               (* startBot at l.277 *)
| BootPairing (sock : SockId) (at_ : PairingPoint) (* startBot at l.298, inside getPairingCode *)
| OpenPriming (sock : SockId)                   (* handleConnectionUpdate at l.260 / l.190 *)
| OpenYielded (sock : SockId).                  (* handleConnectionUpdate at l.260, l.186 has returned *)

(** How an awaited promise settles. *)
Inductive Value : Type :=
| VUndefined
| VText (text : string)
| VCreds (registered : bool).

Inductive Settled : Type :=
| Resolved (v : Value)
| Rejected (message : string).

(** Answers of the transport to the calls whose continuation only prints:
    [transport_ok sock call] tells whether the promise of [call] resolves;
    [construct_ok] whether [makeWASocket] returns instead of throwing. *)
Record Net : Type := mkNet {
  transport_ok : SockId -> Call -> bool;
  construct_ok : bool
}.

(** *** The state *)

Record State : Type := mkState {
  clock : Z;
  viewedStatus : JS.StrSet;
  retryAttempts : Z;
  presenceInterval : option TimerId;
  statusSyncInterval : option TimerId;
  timers : list Timer;
  nextTimer : TimerId;
  tasks : list (TaskId * Task);
  nextTask : TaskId;
  sockets : nat;
  listening : list SockId;
  effects : list (Z * Effect);
  exited : option Z
}.

Definition with_clock (v : Z) (s : State) : State :=
  mkState v (viewedStatus s) (retryAttempts s) (presenceInterval s)
    (statusSyncInterval s) (timers s) (nextTimer s) (tasks s) (nextTask s)
    (sockets s) (listening s) (effects s) (exited s).

Definition with_viewedStatus (v : JS.StrSet) (s : State) : State :=
  mkState (clock s) v (retryAttempts s) (presenceInterval s)
    (statusSyncInterval s) (timers s) (nextTimer s) (tasks s) (nextTask s)
    (sockets s) (listening s) (effects s) (exited s).

Definition with_retryAttempts (v : Z) (s : State) : State :=
  mkState (clock s) (viewedStatus s) v (presenceInterval s)
    (statusSyncInterval s) (timers s) (nextTimer s) (tasks s) (nextTask s)
    (sockets s) (listening s) (effects s) (exited s).

Definition with_presenceInterval (v : option TimerId) (s : State) : State :=
  mkState (clock s) (viewedStatus s) (retryAttempts s) v
    (statusSyncInterval s) (timers s) (nextTimer s) (tasks s) (nextTask s)
    (sockets s) (listening s) (effects s) (exited s).

Definition with_statusSyncInterval (v : option TimerId) (s : State) : State :=
  mkState (clock s) (viewedStatus s) (retryAttempts s) (presenceInterval s)
    v (timers s) (nextTimer s) (tasks s) (nextTask s)
    (sockets s) (listening s) (effects s) (exited s).

Definition with_timers (v : list Timer) (s : State) : State :=
  mkState (clock s) (viewedStatus s) (retryAttempts s) (presenceInterval s)
    (statusSyncInterval s) v (nextTimer s) (tasks s) (nextTask s)
    (sockets s) (listening s) (effects s) (exited s).

Definition with_nextTimer (v : TimerId) (s : State) : State :=
  mkState (clock s) (viewedStatus s) (retryAttempts s) (presenceInterval s)
    (statusSyncInterval s) (timers s) v (tasks s) (nextTask s)
    (sockets s) (listening s) (effects s) (exited s).

Definition with_tasks (v : list (TaskId * Task)) (s : State) : State :=
  mkState (clock s) (viewedStatus s) (retryAttempts s) (presenceInterval s)
    (statusSyncInterval s) (timers s) (nextTimer s) v (nextTask s)
    (sockets s) (listening s) (effects s) (exited s).

Definition with_nextTask (v : TaskId) (s : State) : State :=
  mkState (clock s) (viewedStatus s) (retryAttempts s) (presenceInterval s)
    (statusSyncInterval s) (timers s) (nextTimer s) (tasks s) v
    (sockets s) (listening s) (effects s) (exited s).

Definition with_sockets (v : nat) (s : State) : State :=
  mkState (clock s) (viewedStatus s) (retryAttempts s) (presenceInterval s)
    (statusSyncInterval s) (timers s) (nextTimer s) (tasks s) (nextTask s)
    v (listening s) (effects s) (exited s).

Definition with_listening (v : list SockId) (s : State) : State :=
  mkState (clock s) (viewedStatus s) (retryAttempts s) (presenceInterval s)
    (statusSyncInterval s) (timers s) (nextTimer s) (tasks s) (nextTask s)
    (sockets s) v (effects s) (exited s).

Definition with_effects (v : list (Z * Effect)) (s : State) : State :=
  mkState (clock s) (viewedStatus s) (retryAttempts s) (presenceInterval s)
    (statusSyncInterval s) (timers s) (nextTimer s) (tasks s) (nextTask s)
    (sockets s) (listening s) v (exited s).

Definition with_exited (v : option Z) (s : State) : State :=
  mkState (clock s) (viewedStatus s) (retryAttempts s) (presenceInterval s)
    (statusSyncInterval s) (timers s) (nextTimer s) (tasks s) (nextTask s)
    (sockets s) (listening s) (effects s) v.

(** The script's module-level initialisers (lines 23-26) and an idle
    runtime. *)
Definition fresh : State :=
  mkState 0 [] 0 None None [] O [] O O [] [] None.

(** *** Runtime primitives *)

Definition emit (e : Effect) (s : State) : State :=
  with_effects (effects s ++ [(clock s, e)]) s.

Definition print (line : Console) (s : State) : State := emit (Print line) s.

Definition call (sock : SockId) (c : Call) (s : State) : State :=
  emit (Transport sock c) s.

(** Node's timers take a delay between 1 and [TIMEOUT_MAX] = 2^31 - 1 ms
    as it is and replace any other delay by 1 ms. *)
Definition TIMEOUT_MAX : Z := 2147483647.

Definition timer_delay (delay : Z) : Z :=
  if (Z.leb 1 delay && Z.leb delay TIMEOUT_MAX)%bool then delay else 1.

(** [setTimeout(cb, delay)] and [setInterval(cb, delay)]: the handle and
    the new state.  The timer is due [timer_delay delay] ms from now. *)
Definition setTimeout (cb : Callback) (delay : Z) (s : State) : TimerId * State :=
  let h := nextTimer s in
  (h, with_nextTimer (S h)
        (with_timers (timers s ++ [mkTimer h (clock s + timer_delay delay) None cb]) s)).

Definition setInterval (cb : Callback) (delay : Z) (s : State) : TimerId * State :=
  let h := nextTimer s in
  (h, with_nextTimer (S h)
        (with_timers (timers s ++ [mkTimer h (clock s + timer_delay delay)
                                     (Some (timer_delay delay)) cb]) s)).

Definition clearInterval (h : TimerId) (s : State) : State :=
  with_timers (filter (fun t => negb (Nat.eqb (t_id t) h)) (timers s)) s.

(** [if (handle) clearInterval(handle)] *)
Definition clear_if_set (handle : option TimerId) (s : State) : State :=
  match handle with
  | Some h => clearInterval h s
  | None => s
  end.

Definition find_timer (h : TimerId) (s : State) : option Timer :=
  find (fun t => Nat.eqb (t_id t) h) (timers s).

Definition find_task (k : TaskId) (s : State) : option Task :=
  match find (fun p => Nat.eqb (fst p) k) (tasks s) with
  | Some (_, t) => Some t
  | None => None
  end.

Definition drop_task (k : TaskId) (s : State) : State :=
  with_tasks (filter (fun p => negb (Nat.eqb (fst p) k)) (tasks s)) s.

Definition put_task (k : TaskId) (t : Task) (s : State) : State :=
  with_tasks (filter (fun p => negb (Nat.eqb (fst p) k)) (tasks s) ++ [(k, t)]) s.

Definition spawn (t : Task) (s : State) : TaskId * State :=
  let k := nextTask s in
  (k, with_nextTask (S k) (with_tasks (tasks s ++ [(k, t)]) s)).

(** What an activation of an [async] function has done when control goes
    back to the event loop. *)
Inductive Outcome : Type :=
| Suspended (s : State)
| Returned (s : State)
| Thrown (message : string) (s : State).

(** What wakes a suspended activation up. *)
Inductive Wake : Type :=
| TimerElapsed
| Settle (r : Settled).

(** ** The script's functions *)

Section Bot.

Variable config : Config.

(** [DisconnectReason.loggedOut], a constant of the transport library. *)
Variable loggedOut : Z.

(** [MAX_VIEWED_STATUS_SIZE] (line 15). *)
Variable MAX_VIEWED_STATUS_SIZE : nat.

(** *** Dedup cache (lines 98-106)

    The guard, insertion, eviction and expiry timer at the head of
    [handleStatusView].  The boolean tells whether the id was new, that
    is whether [handleStatusView] goes past line 101. *)
Definition observeOnce (statusId : string) (s : State) : bool * State :=
  if JS.has statusId (viewedStatus s) then (false, s)
  else
    let s := with_viewedStatus (JS.add statusId (viewedStatus s)) s in
    let s := with_viewedStatus
               (cleanupViewedStatus MAX_VIEWED_STATUS_SIZE (viewedStatus s)) s in
    (true, snd (setTimeout (CbDeleteStatus statusId) STATUS_CLEANUP_INTERVAL s)).

Definition handleStatusView (net : Net) (sock : SockId) (msg : Message) (s : State)
  : State :=
  let statusId := key_id (key msg) in
  let '(isNew, s) := observeOnce statusId s in
  if negb isNew then s
  else
    match JS.truthy_string (key_participant (key msg)) with
    | None => s
    | Some sender =>
        let s := call sock (ReadMessages statusId) s in
        if transport_ok net sock (ReadMessages statusId) then
          let s := print (LogViewedStatus (extractUsername (Some sender))) s in
          match (if autoReactStatus config
                 then JS.truthy_string (statusReactionEmoji config) else None) with
          | Some emoji =>
              let react := SendMessage "status@broadcast"
                             (PReact emoji statusId [sender]) in
              let s := call sock react s in
              if transport_ok net sock react then s
              else print LogStatusViewError s
          | None => s
          end
        else print LogStatusViewError s
    end.

(** *** Anti-delete (lines 125-150) *)
Definition handleAntiDelete (net : Net) (sock : SockId) (msg : Message) (s : State)
  : State :=
  match message msg with
  | None => s
  | Some content =>
      match protocolMessage content with
      | None => s
      | Some pm =>
          if negb (Z.eqb (pm_type pm) 0) then s
          else
            match pm_key pm with
            | None => print LogAntiDeleteError s
            | Some deletedKey =>
                match JS.truthy_string (key_remoteJid deletedKey) with
                | None => s
                | Some deletedJid =>
                    if String.eqb deletedJid "status@broadcast" then s
                    else
                      let owner := match ownerNumber config with
                                   | Some o => o
                                   | None => "undefined"
                                   end in
                      let ownerJid := String.append owner "@s.whatsapp.net" in
                      let alert := SendMessage ownerJid (PAlert deletedJid) in
                      let s := call sock alert s in
                      if transport_ok net sock alert
                      then print (LogAntiDelete (extractUsername (Some deletedJid))) s
                      else print LogAntiDeleteError s
                end
            end
      end
  end.

(** *** [messages.upsert] (lines 152-170) *)
Definition is_status_broadcast (jid : option string) : bool :=
  match jid with
  | Some j => String.eqb j "status@broadcast"
  | None => false
  end.

Definition handleIncomingMessages (net : Net) (sock : SockId)
    (messages : list Message) (s : State) : State :=
  match messages with
  | [] => s
  | msg :: _ =>
      match message msg with
      | None => s
      | Some _ =>
          let s := if (is_status_broadcast (key_remoteJid (key msg))
                       && autoViewStatus config)%bool
                   then handleStatusView net sock msg s
                   else s in
          if antiDelete config then handleAntiDelete net sock msg s else s
      end
  end.

(** *** Maintenance timers (lines 185-233) *)

(** [initializeStatusViewing] up to its [await]: the state, and whether
    the activation is waiting for [sendMessage].  When it is not, the
    function has returned at line 186. *)
Definition initializeStatusViewing (sock : SockId) (s : State) : State * bool :=
  if negb (autoViewStatus config) then (s, false)
  else (call sock (SendMessage "status@broadcast" (PText "")) s, true).

Definition initializeStatusViewing_settled (r : Settled) (s : State) : State :=
  match r with
  | Resolved _ => print LogStatusInitialized s
  | Rejected _ => print LogStatusInitFailed s
  end.

(** The rejection of [sendPresenceUpdate] is swallowed and its success
    does nothing: only the call is observable. *)
Definition updatePresence (sock : SockId) (s : State) : State :=
  call sock SendPresenceUpdate s.

Definition startPresenceUpdates (sock : SockId) (s : State) : State :=
  let s := clear_if_set (presenceInterval s) s in
  let s := updatePresence sock s in
  let '(h, s) := setInterval (CbUpdatePresence sock) PRESENCE_UPDATE_INTERVAL s in
  with_presenceInterval (Some h) s.

Definition startStatusSync (sock : SockId) (s : State) : State :=
  if negb (autoViewStatus config) then s
  else
    let s := clear_if_set (statusSyncInterval s) s in
    let '(h, s) := setInterval (CbStatusSync sock) STATUS_SYNC_INTERVAL s in
    with_statusSyncInterval (Some h) s.

(** The interval callback of [startStatusSync] (lines 225-232). *)
Definition statusSync_tick (net : Net) (sock : SockId) (s : State) : State :=
  let refresh := SendMessage "status@broadcast" (PText "") in
  let s := call sock refresh s in
  if transport_ok net sock refresh then print LogStatusRefreshed s else s.

(** *** [connection.update] (lines 235-268) *)

Definition shouldReconnect (lastDisconnect : option LastDisconnect) : bool :=
  match lastDisconnect with
  | Some ld =>
      match error ld with
      | Some (Boom statusCode) => negb (Z.eqb statusCode loggedOut)
      | _ => true
      end
  | None => true
  end.

(** Lines 262-266, after [await initializeStatusViewing(sock)]. *)
Definition handleConnectionUpdate_opened (sock : SockId) (s : State) : State :=
  startStatusSync sock (startPresenceUpdates sock s).

(** The [await] of line 260 gives control back in either case: while
    [sendMessage] is pending ([OpenPriming]), and also when
    [initializeStatusViewing] has returned at once ([OpenYielded]); the
    rest of the handler runs when the activation is resumed, and other
    handlers may run before that. *)
Definition handleConnectionUpdate (update : Update) (sock : SockId) (s : State)
  : State :=
  match connection update with
  | Some ConnClose =>
      let s := clear_if_set (presenceInterval s) s in
      let s := clear_if_set (statusSyncInterval s) s in
      if shouldReconnect (lastDisconnect update) then
        let delay := JS.number_or (reconnectDelay config) 5000 in
        let s := print (LogConnectionLost delay) s in
        snd (setTimeout CbStartBot delay s)
      else
        let s := print LogLoggedOut s in
        with_exited (Some 0) s
  | Some ConnOpen =>
      let s := print LogOnline s in
      let s := with_retryAttempts 0 s in
      let '(s, waiting) := initializeStatusViewing sock s in
      if waiting then snd (spawn (OpenPriming sock) s)
      else snd (spawn (OpenYielded sock) s)
  | _ => s
  end.

(** *** Pairing (lines 59-96)

    [k] is the activation of [startBot] that awaits [getPairingCode]; the
    recursive call of line 89 is a tail call under [return], so the
    nested activations settle together and one [PairingPoint] describes
    them.  The [readline] interface is not modelled. *)

Definition getPairingCode (k : TaskId) (sock : SockId) (s : State) : Outcome :=
  let s := print LogStabilizing s in
  let s := snd (setTimeout (CbResolve k) (PAIRING_STABILIZATION_DELAY config) s) in
  Suspended (put_task k (BootPairing sock Stabilizing) s).

(** The [catch] block (lines 82-92). *)
Definition getPairingCode_catch (k : TaskId) (sock : SockId) (message : string)
    (s : State) : Outcome :=
  let s := print (LogPairingError message) s in
  if Z.ltb (retryAttempts s) MAX_RETRY_ATTEMPTS then
    let s := with_retryAttempts (retryAttempts s + 1) s in
    let s := print (LogRetrying (retryAttempts s)) s in
    let s := snd (setTimeout (CbResolve k) 3000 s) in
    Suspended (put_task k (BootPairing sock BackingOff) s)
  else
    Thrown "Max pairing attempts reached. Restarting bot..." s.

Definition valid_phone (phoneNumber : string) : bool :=
  negb (String.eqb phoneNumber ""
        || Nat.ltb (String.length phoneNumber) 10
        || Nat.ltb 15 (String.length phoneNumber))%bool.

Definition getPairingCode_resume (k : TaskId) (sock : SockId) (at_ : PairingPoint)
    (w : Wake) (s : State) : option Outcome :=
  match at_, w with
  | Stabilizing, TimerElapsed =>
      Some (Suspended (put_task k (BootPairing sock Prompting) (emit Question s)))
  | Prompting, Settle (Resolved (VText answer)) =>
      let phoneNumber := formatPhoneNumber answer in
      if negb (valid_phone phoneNumber) then
        Some (getPairingCode_catch k sock
                "Invalid phone number. Must be 10-15 digits." s)
      else
        let s := call sock (RequestPairingCode phoneNumber) s in
        Some (Suspended (put_task k (BootPairing sock (Requesting phoneNumber)) s))
  | Requesting _, Settle (Resolved (VText code)) =>
      let s := print (LogPairCode code) s in
      Some (Returned (with_retryAttempts 0 s))
  | Requesting _, Settle (Rejected message) =>
      Some (getPairingCode_catch k sock message s)
  | BackingOff, TimerElapsed =>
      Some (getPairingCode k sock s)
  | _, _ => None
  end.

(** *** Bootstrap (lines 270-316) *)

(** The [catch] block (lines 309-315). *)
Definition startBot_catch (message : string) (s : State) : State :=
  let s := print (LogFatal message) s in
  let delay := JS.number_or (reconnectDelay config) 5000 in
  let s := print (LogRestarting delay) s in
  snd (setTimeout CbStartBot delay s).

(** Lines 301-307: the four listeners are attached together. *)
Definition startBot_listen (sock : SockId) (s : State) : State :=
  let s := with_listening (listening s ++ [sock]) s in
  let s := emit (Listen sock) s in
  print LogBotInitialized s.

(** Lines 298-315 once [getPairingCode] has gone as far as it can. *)
Definition startBot_paired (k : TaskId) (sock : SockId) (o : Outcome) : State :=
  match o with
  | Suspended s => s
  | Returned s => startBot_listen sock (drop_task k s)
  | Thrown message s => startBot_catch message (drop_task k s)
  end.

(** Lines 271-276: up to the first [await]. *)
Definition startBot (s : State) : State :=
  match validateConfig config with
  | JS.Throw message => startBot_catch message s
  | JS.Normal _ => snd (spawn BootAuthState s)
  end.

(** Lines 280-299, after [fetchLatestBaileysVersion] has resolved. *)
Definition startBot_connect (net : Net) (k : TaskId) (registered : bool) (s : State)
  : State :=
  if negb (construct_ok net) then
    startBot_catch "makeWASocket failed" (drop_task k s)
  else
    let sock := sockets s in
    let s := emit (MakeSocket sock) (with_sockets (S sock) s) in
    if negb registered
    then startBot_paired k sock (getPairingCode k sock s)
    else startBot_listen sock (drop_task k s).

(** ** The event loop *)

(** Resuming a suspended activation. *)
Definition resume (net : Net) (k : TaskId) (t : Task) (w : Wake) (s : State)
  : option State :=
  match t, w with
  | BootAuthState, Settle (Resolved (VCreds registered)) =>
      Some (put_task k (BootVersion registered) s)
  | BootAuthState, Settle (Rejected message) =>
      Some (startBot_catch message (drop_task k s))
  | BootVersion registered, Settle (Resolved _) =>
      Some (startBot_connect net k registered s)
  | BootVersion _, Settle (Rejected message) =>
      Some (startBot_catch message (drop_task k s))
  | BootPairing sock at_, _ =>
      match getPairingCode_resume k sock at_ w s with
      | Some o => Some (startBot_paired k sock o)
      | None => None
      end
  | OpenPriming sock, Settle r =>
      Some (handleConnectionUpdate_opened sock
              (initializeStatusViewing_settled r (drop_task k s)))
  | OpenYielded sock, Settle (Resolved VUndefined) =>
      Some (handleConnectionUpdate_opened sock (drop_task k s))
  | _, _ => None
  end.

(** Running the callback of a timer. *)
Definition run_callback (net : Net) (cb : Callback) (s : State) : option State :=
  match cb with
  | CbStartBot => Some (startBot s)
  | CbDeleteStatus statusId =>
      Some (with_viewedStatus (JS.delete statusId (viewedStatus s)) s)
  | CbUpdatePresence sock => Some (updatePresence sock s)
  | CbStatusSync sock => Some (statusSync_tick net sock s)
  | CbResolve k =>
      match find_task k s with
      | Some t => resume net k t TimerElapsed s
      | None => None
      end
  end.

(** A timer that fires leaves the table, or is re-armed one period later
    when it is an interval; then its callback runs. *)
Definition rearm (t : Timer) (s : State) : State :=
  match t_every t with
  | None => clearInterval (t_id t) s
  | Some period =>
      with_timers
        (map (fun u => if Nat.eqb (t_id u) (t_id t)
                       then mkTimer (t_id u) (t_due u + period) (t_every u) (t_callback u)
                       else u)
             (timers s)) s
  end.

Inductive Event : Type :=
| Elapse (ms : Z)
| Fire (h : TimerId)
| Settles (k : TaskId) (r : Settled)
| ConnectionUpdate (sock : SockId) (update : Update)
| MessagesUpsert (sock : SockId) (messages : list Message).

Definition is_listening (sock : SockId) (s : State) : bool :=
  existsb (Nat.eqb sock) (listening s).

(** One turn of the event loop.  [None] means the event cannot happen in
    this state: time does not run past a timer that is due, a timer does
    not fire before it is due, only a pending promise settles.  Once the
    process has exited nothing changes any more. *)
Definition step (net : Net) (e : Event) (s : State) : option State :=
  match exited s with
  | Some _ => Some s
  | None =>
      match e with
      | Elapse ms =>
          if (Z.leb 0 ms
              && forallb (fun t => Z.leb (clock s + ms) (t_due t)) (timers s))%bool
          then Some (with_clock (clock s + ms) s)
          else None
      | Fire h =>
          match find_timer h s with
          | Some t =>
              if Z.leb (t_due t) (clock s)
              then run_callback net (t_callback t) (rearm t s)
              else None
          | None => None
          end
      | Settles k r =>
          match find_task k s with
          | Some t => resume net k t (Settle r) s
          | None => None
          end
      | ConnectionUpdate sock update =>
          if is_listening sock s
          then Some (handleConnectionUpdate update sock s)
          else Some s
      | MessagesUpsert sock messages =>
          if is_listening sock s
          then Some (handleIncomingMessages net sock messages s)
          else Some s
      end
  end.

Fixpoint run (evs : list (Net * Event)) (s : State) : option State :=
  match evs with
  | [] => Some s
  | (net, e) :: rest =>
      match step net e s with
      | Some s' => run rest s'
      | None => None
      end
  end.

(** Line 333: the script calls [startBot()] when it is loaded. *)
Definition boot : State := startBot fresh.

End Bot.

(** * Observations on states and event lists *)

(** *** Sample inputs *)

Definition sample_config : Config :=
  mkConfig (Some "BMX") (Some "254700000000") (Some 5000) None
    true false None false false.

(** A transport on which every call succeeds. *)
Definition all_ok : Net := mkNet (fun _ _ => true) true.

(** A status broadcast with the given id. *)
Definition status_message (statusId : string) : Message :=
  mkMessage (mkKey statusId (Some "status@broadcast") (Some "254711111111@s.whatsapp.net"))
    (Some (mkContent None)).

(** *** Counting what is in flight *)

Definition is_CbStartBot (cb : Callback) : bool :=
  match cb with
  | CbStartBot => true
  | _ => false
  end.

(** Timers that will call [startBot] (scheduled at lines 250 and 314). *)
Definition pending_bootstraps (s : State) : nat :=
  List.length (filter (fun t => is_CbStartBot (t_callback t)) (timers s)).

(** The close event carries the logged-out status code. *)
Definition carries_loggedOut (loggedOut : Z) (update : Update) : bool :=
  match lastDisconnect update with
  | Some ld =>
      match error ld with
      | Some (Boom statusCode) => Z.eqb statusCode loggedOut
      | _ => false
      end
  | None => false
  end.

(** The state once both maintenance intervals have been cleared (lines
    240-241). *)
Definition intervals_cleared (s : State) : State :=
  clear_if_set (statusSyncInterval s) (clear_if_set (presenceInterval s) s).

(** *** The reconnect delay *)

(** The delay the script announces on the console (lines 248-249 and
    312-313): [config.reconnectDelay], and 5000 when that is missing
    or 0. *)
Definition announced_delay (config : Config) : Z :=
  match reconnectDelay config with
  | None => 5000
  | Some delay => if Z.eqb delay 0 then 5000 else delay
  end.

(** The time after which the restart timer fires: the announced delay
    when it is between 1 and 2147483647 ms, and 1 ms when it is negative
    or larger. *)
Definition restart_after (config : Config) : Z :=
  match reconnectDelay config with
  | None => 5000
  | Some delay =>
      if Z.eqb delay 0 then 5000
      else if (Z.ltb delay 1 || Z.ltb 2147483647 delay)%bool then 1
      else delay
  end.


(** *** Sample runs *)

(** The state [evs] leads to from the freshly loaded script ([fresh] when
    some event of [evs] cannot happen). *)
Definition state_after (config : Config) (loggedOut : Z) (capacity : nat)
    (evs : list (Net * Event)) : State :=
  match run config loggedOut capacity evs (boot config) with
  | Some s => s
  | None => fresh
  end.

(** Bootstrap of a registered session: the auth state loads, the version
    is fetched, socket 0 is built and gets its listeners. *)
Definition registered_bootstrap : list (Net * Event) :=
  [(all_ok, Settles O (Resolved (VCreds true)));
   (all_ok, Settles O (Resolved VUndefined))].

Definition online : State := state_after sample_config 401 1000 registered_bootstrap.


(** *** Bootstrap with an invalid configuration *)

Definition config_without_name : Config :=
  mkConfig None (Some "254700000000") (Some 5000) None true false None false false.

(** The same with a reconnect delay of 3000000000 ms. *)
Definition config_without_name_long : Config :=
  mkConfig None (Some "254700000000") (Some 3000000000) None
    true false None false false.

(** [n] rounds of: the restart delay elapses, the restart timer fires. *)
Fixpoint retry_rounds (delay : Z) (n : nat) : list (Net * Event) :=
  match n with
  | O => []
  | S n' => retry_rounds delay n' ++ [(all_ok, Elapse delay); (all_ok, Fire n')]
  end.

(** What the console shows after [n] failed bootstraps that announce a
    restart in [delay] ms and are [period] ms apart. *)
Fixpoint fatal_lines (message : string) (delay period : Z) (n : nat)
  : list (Z * Effect) :=
  match n with
  | O => []
  | S n' =>
      fatal_lines message delay period n'
      ++ [(Z.of_nat n' * period, Print (LogFatal message));
          (Z.of_nat n' * period, Print (LogRestarting delay))]
  end.

(** The state after [n] retries of a bootstrap whose validation throws
    [message]: one restart timer pending, nothing else in flight. *)
Definition retrying (message : string) (delay period : Z) (n : nat) : State :=
  mkState (Z.of_nat n * period) [] 0 None None
    [mkTimer n (Z.of_nat n * period + period) None CbStartBot] (S n)
    [] O O [] (fatal_lines message delay period (S n)) None.

(** *** Pairing scenarios *)

Definition is_pairing_request (e : Z * Effect) : bool :=
  match snd e with
  | Transport _ (RequestPairingCode _) => true
  | _ => false
  end.

(** Calls of [sock.requestPairingCode] made so far. *)
Definition pairing_requests (s : State) : nat :=
  List.length (filter is_pairing_request (effects s)).

(** [getPairingCode] driven on its own: each wake-up resumes activation [k]
    at the point the task table records for it. *)
Fixpoint pairing_run (config : Config) (k : TaskId) (ws : list Wake) (o : Outcome)
  : option Outcome :=
  match ws with
  | [] => Some o
  | w :: rest =>
      match o with
      | Suspended s =>
          match find_task k s with
          | Some (BootPairing sock at_) =>
              match getPairingCode_resume config k sock at_ w s with
              | Some o' => pairing_run config k rest o'
              | None => None
              end
          | _ => None
          end
      | _ => None
      end
  end.

(** An attempt that fails: the stabilisation delay elapses, the prompt is
    answered with [answer] and, when that is a valid number, the request
    is made and rejected with [message]. *)
Definition answer_ok (answer : string) : bool :=
  valid_phone (formatPhoneNumber answer).

Definition failed_attempt (a : string * string) : list Wake :=
  TimerElapsed :: Settle (Resolved (VText (fst a)))
  :: (if answer_ok (fst a) then [Settle (Rejected (snd a))] else []).

(** Failed attempts each followed by the 3000 ms pause of line 88. *)
Definition retried (attempts : list (string * string)) : list Wake :=
  flat_map (fun a => failed_attempt a ++ [TimerElapsed]) attempts.

(** How many of the attempts reach [requestPairingCode]. *)
Definition requests_of (attempts : list (string * string)) : nat :=
  List.length (filter (fun a => answer_ok (fst a)) attempts).

(** Bootstrap of a session that is not registered yet: socket 0 is built
    and [getPairingCode] starts its stabilisation delay (timer 0). *)
Definition unregistered_bootstrap : list (Net * Event) :=
  [(all_ok, Settles O (Resolved (VCreds false)));
   (all_ok, Settles O (Resolved VUndefined))].

(** The [i]-th attempt of activation 0 (timers [2i] and [2i+1]): the
    number is given, the request is refused. *)
Definition refused_attempt (i : nat) : list (Net * Event) :=
  [(all_ok, Elapse 10000); (all_ok, Fire (2 * i)%nat);
   (all_ok, Settles O (Resolved (VText "+254 712 345 678")));
   (all_ok, Settles O (Rejected "Connection Closed"))].

Definition pause_after (i : nat) : list (Net * Event) :=
  [(all_ok, Elapse 3000); (all_ok, Fire (2 * i + 1)%nat)].

Definition five_refusals : list (Net * Event) :=
  unregistered_bootstrap
  ++ refused_attempt 0 ++ pause_after 0 ++ refused_attempt 1 ++ pause_after 1
  ++ refused_attempt 2 ++ pause_after 2 ++ refused_attempt 3 ++ pause_after 3
  ++ refused_attempt 4.

Definition sixth_request : list (Net * Event) :=
  pause_after 4
  ++ [(all_ok, Elapse 10000); (all_ok, Fire 10%nat);
      (all_ok, Settles O (Resolved (VText "+254 712 345 678")))].

Definition sixth_refusal : list (Net * Event) :=
  [(all_ok, Settles O (Rejected "Connection Closed"))].

(** Whether the [catch] block of [startBot] has reported a failure. *)
Definition reported_fatal (s : State) : bool :=
  existsb (fun e => match snd e with
                    | Print (LogFatal _) => true
                    | _ => false
                    end) (effects s).

(** Activation [k] waits at [at_] on [sock], the retry counter is [r] and
    [q] pairing requests have been made. *)
Definition pairing_at (k : TaskId) (sock : SockId) (at_ : PairingPoint)
    (r : Z) (q : nat) (s : State) : Prop :=
  find_task k s = Some (BootPairing sock at_)
  /\ retryAttempts s = r
  /\ pairing_requests s = q.

(** *** Bootstraps and session handles in flight *)

Definition is_boot (t : Task) : bool :=
  match t with
  | OpenPriming _ | OpenYielded _ => false
  | _ => true
  end.

(** Activations of [startBot] that have not finished. *)
Definition bootstraps_running (s : State) : nat :=
  List.length (filter (fun p => is_boot (snd p)) (tasks s)).

(** Bootstraps scheduled or running. *)
Definition load (s : State) : nat :=
  (pending_bootstraps s + bootstraps_running s)%nat.

(** The sockets on which the events of [evs] deliver a close
    notification, in order. *)
Definition closes (evs : list (Net * Event)) : list SockId :=
  flat_map (fun ne => match snd ne with
                      | ConnectionUpdate sock update =>
                          match connection update with
                          | Some ConnClose => [sock]
                          | _ => []
                          end
                      | _ => []
                      end) evs.

Definition is_closed (closed : list SockId) (sock : SockId) : bool :=
  existsb (Nat.eqb sock) closed.

(** Session handles with listeners attached that have not closed. *)
Definition live_handles (closed : list SockId) (s : State) : nat :=
  List.length (filter (fun sock => negb (is_closed closed sock)) (listening s)).

(** Every restart timer is a [setTimeout], not a [setInterval]. *)
Definition oneshot_bootstraps (s : State) : Prop :=
  forall t, In t (timers s) -> is_CbStartBot (t_callback t) = true -> t_every t = None.

(** [s'] has the listeners of [s] and at most [d] more bootstraps
    scheduled or running. *)
Definition keeps (d : nat) (s s' : State) : Prop :=
  listening s' = listening s
  /\ (load s' <= load s + d)%nat
  /\ (oneshot_bootstraps s -> oneshot_bootstraps s').

(** [s'] has the listeners of [s] and at least one bootstrap less. *)
Definition frees (s s' : State) : Prop :=
  listening s' = listening s
  /\ (load s' + 1 <= load s)%nat
  /\ (oneshot_bootstraps s -> oneshot_bootstraps s').

(** Handles and bootstraps in flight, given the sockets closed so far. *)
Definition in_flight (closed : list SockId) (s : State) : nat :=
  (live_handles closed s + load s)%nat.

(** How many of the close notifications of [l] come from a socket that has
    closed before; [seen] holds the sockets closed so far. *)
Fixpoint repeated (seen l : list SockId) : nat :=
  match l with
  | [] => O
  | sock :: rest =>
      ((if is_closed seen sock then 1 else 0) + repeated (seen ++ [sock]) rest)%nat
  end.

Definition repeated_closes (evs : list (Net * Event)) : nat :=
  repeated [] (closes evs).

(** *** Session handles

    [makeWASocket] has returned [sockets s] handles, numbered from 0.
    The script never ends a handle: it is active until the transport
    reports its close. *)
Definition active_handles (closed : list SockId) (s : State) : nat :=
  List.length (filter (fun sock => negb (is_closed closed sock)) (seq 0 (sockets s))).

(** Handles that have no listeners. *)
Definition unlistened (s : State) : nat :=
  List.length (filter (fun sock => negb (is_listening sock s)) (seq 0 (sockets s))).

Definition is_pairing (t : Task) : bool :=
  match t with
  | BootPairing _ _ => true
  | _ => false
  end.

(** Handles held by a bootstrap that is inside [getPairingCode]. *)
Definition pairing_handles (s : State) : nat :=
  List.length (filter (fun p => is_pairing (snd p)) (tasks s)).

(** The error of line 91. *)
Definition exhaustion : string := "Max pairing attempts reached. Restarting bot...".

Definition is_exhaustion (e : Z * Effect) : bool :=
  match snd e with
  | Print (LogFatal message) => String.eqb message exhaustion
  | _ => false
  end.

(** Bootstraps that gave up on pairing, as the console reports them. *)
Definition exhausted_pairings (s : State) : nat :=
  List.length (filter is_exhaustion (effects s)).

(** [s'] has the handles, listeners and activations of [s] and reports at
    least as many exhausted pairings. *)
Definition same_handles (s s' : State) : Prop :=
  sockets s' = sockets s
  /\ listening s' = listening s
  /\ tasks s' = tasks s
  /\ nextTask s' = nextTask s
  /\ (exhausted_pairings s <= exhausted_pairings s')%nat.

(** Bookkeeping of handles and activations: activations have distinct
    numbers below the next one; listeners are on handles that exist; a
    handle that is being paired exists, has no listeners and belongs to one
    activation; and the handles without listeners are at most those being
    paired and those of exhausted pairings, [d] apart. *)
Definition accounted (d : nat) (s : State) : Prop :=
  NoDup (map fst (tasks s))
  /\ (forall p, In p (tasks s) -> (fst p < nextTask s)%nat)
  /\ (forall sock, In sock (listening s) -> (sock < sockets s)%nat)
  /\ (forall k sock at_, In (k, BootPairing sock at_) (tasks s) ->
        (sock < sockets s)%nat /\ ~ In sock (listening s))
  /\ (forall k k' sock at_ at', In (k, BootPairing sock at_) (tasks s) ->
        In (k', BootPairing sock at') (tasks s) -> k = k')
  /\ (unlistened s <= pairing_handles s + exhausted_pairings s + d)%nat.

(** What [getPairingCode] may do to the handles when activation [k] is
    resumed on [sock]. *)
Definition outcome_handles (k : TaskId) (sock : SockId) (s : State) (o : Outcome)
  : Prop :=
  match o with
  | Suspended s' =>
      exists s1 at_, same_handles s s1 /\ s' = put_task k (BootPairing sock at_) s1
  | Returned s' => same_handles s s'
  | Thrown message s' => message = exhaustion /\ same_handles s s'
  end.

(** What [getPairingCode] may do to the state of activation [k]. *)
Definition outcome_keeps (k : TaskId) (s : State) (o : Outcome) : Prop :=
  match o with
  | Suspended s' => keeps 0 s s'
  | Returned s' => keeps 0 s s' /\ find_task k s' = find_task k s
  | Thrown _ s' => keeps 0 s s' /\ find_task k s' = find_task k s
  end.

(** What a turn of the event loop other than a close notification may do:
    leave listeners and load alone, or turn one bootstrap into one more
    listening socket. *)
Definition moved (s s' : State) : Prop :=
  keeps 0 s s'
  \/ (exists sock, listening s' = listening s ++ [sock]
                   /\ (load s' + 1 <= load s)%nat
                   /\ (oneshot_bootstraps s -> oneshot_bootstraps s')).

(** *** Reconnection scenarios *)

(** A close notification without [lastDisconnect]. *)
Definition close_plain : Update := mkUpdate (Some ConnClose) None.

(** Socket 0 closes once; the restart timer fires after 5000 ms and the
    new bootstrap (activation 1) brings socket 1 up. *)
Definition reconnect_cycle : list (Net * Event) :=
  registered_bootstrap
  ++ [(all_ok, ConnectionUpdate O close_plain);
      (all_ok, Elapse 5000); (all_ok, Fire O);
      (all_ok, Settles 1%nat (Resolved (VCreds true)));
      (all_ok, Settles 1%nat (Resolved VUndefined))].

(** Pairing on socket 0 is given up after six refused requests; the
    restart timer (timer 11) fires 5000 ms later and the new bootstrap
    (activation 1) builds socket 1, asks for a pairing code and gets it. *)
Definition exhausted_then_paired : list (Net * Event) :=
  five_refusals ++ sixth_request ++ sixth_refusal
  ++ [(all_ok, Elapse 5000); (all_ok, Fire 11%nat);
      (all_ok, Settles 1%nat (Resolved (VCreds false)));
      (all_ok, Settles 1%nat (Resolved VUndefined));
      (all_ok, Elapse 10000); (all_ok, Fire 12%nat);
      (all_ok, Settles 1%nat (Resolved (VText "+254 712 345 678")));
      (all_ok, Settles 1%nat (Resolved (VText "ABCD-1234")))].

(** Socket 0 delivers two close notifications. *)
Definition double_close : list (Net * Event) :=
  registered_bootstrap
  ++ [(all_ok, ConnectionUpdate O close_plain);
      (all_ok, ConnectionUpdate O close_plain)].

(** *** Observations of status ids *)

(** The id that [handleIncomingMessages] passes to [handleStatusView] when
    the event loop runs [e] in state [s] (lines 154-159), if any. *)
Definition observed (config : Config) (e : Event) (s : State) : option string :=
  match exited s, e with
  | None, MessagesUpsert sock (msg :: _) =>
      if (is_listening sock s
          && match message msg with Some _ => true | None => false end
          && is_status_broadcast (key_remoteJid (key msg))
          && autoViewStatus config)%bool
      then Some (key_id (key msg))
      else None
  | _, _ => None
  end.

(** The event is a batch whose first message has id [statusId]. *)
Definition mentions (statusId : string) (e : Event) : bool :=
  match e with
  | MessagesUpsert _ (msg :: _) => String.eqb (key_id (key msg)) statusId
  | _ => false
  end.

Definition never_mentioned (statusId : string) (evs : list (Net * Event)) : bool :=
  forallb (fun ne => negb (mentions statusId (snd ne))) evs.

(** TTL expiry: the event fires a timer set at line 106 for [statusId]. *)
Definition expires (statusId : string) (e : Event) (s : State) : bool :=
  match exited s, e with
  | None, Fire h =>
      match find_timer h s with
      | Some t =>
          match t_callback t with
          | CbDeleteStatus id => String.eqb id statusId
          | _ => false
          end
      | None => false
      end
  | _, _ => false
  end.

(** Capacity eviction: the event inserts a new id and [statusId] is among
    the oldest entries in excess of the capacity. *)
Definition evicts (config : Config) (capacity : nat) (statusId : string)
    (e : Event) (s : State) : bool :=
  match observed config e s with
  | Some id =>
      if JS.has id (viewedStatus s) then false
      else JS.has statusId
             (firstn (JS.size (viewedStatus s) + 1 - capacity) (viewedStatus s ++ [id]))
  | None => false
  end.

(** Along [evs] from [s], no event expires or evicts [statusId]. *)
Fixpoint undisturbed (config : Config) (loggedOut : Z) (capacity : nat)
    (statusId : string) (evs : list (Net * Event)) (s : State) : bool :=
  match evs with
  | [] => true
  | (net, e) :: rest =>
      (negb (expires statusId e s)
       && negb (evicts config capacity statusId e s)
       && match step config loggedOut capacity net e s with
          | Some s' => undisturbed config loggedOut capacity statusId rest s'
          | None => true
          end)%bool
  end.

(** *** Status scenarios *)

Definition sees (statusId : string) : Net * Event :=
  (all_ok, MessagesUpsert O [status_message statusId]).

(** After status "a": status "b" arrives and a second passes. *)
Definition after_a : list (Net * Event) :=
  [sees "b"; (all_ok, Elapse 1000)].

Definition seen_a : State :=
  state_after sample_config 401 1000 (registered_bootstrap ++ [sees "a"]).

Definition seen_a_b : State :=
  state_after sample_config 401 1000 (registered_bootstrap ++ [sees "a"] ++ after_a).

(** *** A full cache *)

(** The decimal numeral of [n], used as a status id. *)
Definition numbered (n : nat) : string :=
  NilEmpty.string_of_uint (Nat.to_uint n).

(** Statuses "1" to "1000" arrive. *)
Definition burst : list (Net * Event) :=
  map (fun n => sees (numbered n)) (seq 1 1000).

(** Status "a" at time 0, a thousand others, then "a" again at time 1. *)
Definition a_evicted_and_back : list (Net * Event) :=
  registered_bootstrap ++ [sees "a"] ++ burst ++ [(all_ok, Elapse 1); sees "a"].

(** What is looked at in the scenarios: the clock, whether [statusId] is
    cached, the size of the cache and timer [h]. *)
Definition cache_view (statusId : string) (h : TimerId) (s : State)
  : Z * bool * nat * option Timer :=
  (clock s, JS.has statusId (viewedStatus s), JS.size (viewedStatus s), find_timer h s).

(** The times at which [c] was called on socket [sock]. *)
Definition times_of (sock : SockId) (c : Call -> bool) (s : State) : list Z :=
  map fst (filter (fun e => match snd e with
                            | Transport k call => (Nat.eqb k sock && c call)%bool
                            | _ => false
                            end) (effects s)).

Definition is_presence (c : Call) : bool :=
  match c with
  | SendPresenceUpdate => true
  | _ => false
  end.

Definition is_read (statusId : string) (c : Call) : bool :=
  match c with
  | ReadMessages id => String.eqb id statusId
  | _ => false
  end.

(** *** Maintenance scenarios *)

Definition open_update : Update := mkUpdate (Some ConnOpen) None.

(** Maintenance intervals in the timer table. *)
Definition is_maintenance (cb : Callback) : bool :=
  match cb with
  | CbUpdatePresence _ | CbStatusSync _ => true
  | _ => false
  end.

Definition maintenance_timers (s : State) : list Timer :=
  filter (fun t => is_maintenance (t_callback t)) (timers s).

(** Socket 0 opens; 100 ms later, while the subscription priming of line
    190 is still awaited, it closes. *)
Definition closed_while_priming : list (Net * Event) :=
  registered_bootstrap
  ++ [(all_ok, ConnectionUpdate O open_update);
      (all_ok, Elapse 100);
      (all_ok, ConnectionUpdate O close_plain)].

(** 50 ms later the priming call is rejected. *)
Definition priming_rejected : list (Net * Event) :=
  [(all_ok, Elapse 50); (all_ok, Settles 1%nat (Rejected "Connection Closed"))].

(** The restart timer fires at 5100, the heartbeat interval at 60150. *)
Definition one_minute_later : list (Net * Event) :=
  [(all_ok, Elapse 4950); (all_ok, Fire O);
   (all_ok, Elapse 55050); (all_ok, Fire 1%nat)].

(** A configuration without status viewing: the open handler has no
    priming call to wait for. *)
Definition config_no_status : Config :=
  mkConfig (Some "BMX") (Some "254700000000") (Some 5000) None
    false false None false false.

(** Open at 0, a heartbeat interval passes, close at 90000. *)
Definition open_minute_close : list (Net * Event) :=
  registered_bootstrap
  ++ [(all_ok, ConnectionUpdate O open_update);
      (all_ok, Settles 1%nat (Resolved VUndefined));
      (all_ok, Elapse 60000); (all_ok, Fire O);
      (all_ok, Elapse 30000);
      (all_ok, ConnectionUpdate O close_plain)].

(** Every maintenance interval in the timer table is the one its
    module-level variable refers to. *)
Definition maintenance_tracked (s : State) : Prop :=
  forall t, In t (timers s) ->
    match t_callback t with
    | CbUpdatePresence _ => presenceInterval s = Some (t_id t)
    | CbStatusSync _ => statusSyncInterval s = Some (t_id t)
    | _ => True
    end.

(** [s'] has the interval variables of [s] and no maintenance interval
    that [s] did not have. *)
Definition settled (s s' : State) : Prop :=
  presenceInterval s' = presenceInterval s
  /\ statusSyncInterval s' = statusSyncInterval s
  /\ forall t', In t' (timers s') -> is_maintenance (t_callback t') = true ->
                exists t, In t (timers s) /\ t_id t = t_id t'
                          /\ t_callback t = t_callback t'.

Definition outcome_state (o : Outcome) : State :=
  match o with
  | Suspended s => s
  | Returned s => s
  | Thrown _ s => s
  end.

(** * The rest of the script *)

(** ** Incoming calls (lines 172-183)

    [handleIncomingCall] reads the configuration and talks to the
    transport and the console only; it is given as the list of what it
    does, in order.  [ok call] tells whether [sock.rejectCall] resolves for
    that call. *)

Record IncomingCall : Type := mkCall {
  call_id : string;
  call_from : option string
}.

Inductive CallEffect : Type :=
| RejectCall (id : string) (from : option string)
| LogRejected (user : string)
| LogRejectionError.

(** The [for ... of] loop inside the [try]: a rejection that fails leaves
    the loop for the [catch] block. *)
Fixpoint reject_calls (ok : IncomingCall -> bool) (calls : list IncomingCall)
  : list CallEffect :=
  match calls with
  | [] => []
  | c :: rest =>
      RejectCall (call_id c) (call_from c)
      :: (if ok c
          then LogRejected (extractUsername (call_from c)) :: reject_calls ok rest
          else [LogRejectionError])
  end.

Definition handleIncomingCall (config : Config) (ok : IncomingCall -> bool)
    (calls : list IncomingCall) : list CallEffect :=
  if negb (antiCall config) then [] else reject_calls ok calls.

(** The calls that [sock.rejectCall] was called for. *)
Definition rejected (effects : list CallEffect) : list IncomingCall :=
  flat_map (fun e => match e with
                     | RejectCall id from => [mkCall id from]
                     | _ => []
                     end) effects.

(** ** Shutdown (lines 318-325)

    The [SIGINT] handler: the line it prints and the state it leaves. *)
Inductive ShutdownConsole : Type :=
| LogShuttingDown.

Definition handleSigint (s : State) : ShutdownConsole * State :=
  let s := clear_if_set (presenceInterval s) s in
  let s := clear_if_set (statusSyncInterval s) s in
  let s := with_viewedStatus [] s in
  (LogShuttingDown, with_exited (Some 0) s).

(** * What a turn of the event loop may do *)

(** A pairing request carries 10 to 15 decimal digits. *)
Definition wf_effect (e : Effect) : Prop :=
  match e with
  | Transport _ (RequestPairingCode phoneNumber) => JS.digits_10_15 phoneNumber = true
  | _ => True
  end.

(** The state changes the script is made of.  [may capacity s s'] holds
    when [s'] comes from [s] by a sequence of them; every handler and every
    turn of the event loop is such a sequence ([may_step]). *)
Inductive may (capacity : nat) : State -> State -> Prop :=
| may_refl (s : State) : may capacity s s
| may_trans (s1 s2 s3 : State) :
    may capacity s1 s2 -> may capacity s2 s3 -> may capacity s1 s3
| may_other (s s' : State) :
    clock s <= clock s' ->
    viewedStatus s' = viewedStatus s -> retryAttempts s' = retryAttempts s ->
    timers s' = timers s -> nextTimer s' = nextTimer s ->
    effects s' = effects s -> exited s' = exited s ->
    may capacity s s'
| may_emit (e : Effect) (s : State) :
    wf_effect e -> may capacity s (emit e s)
| may_setTimeout (cb : Callback) (delay : Z) (s : State) :
    may capacity s (snd (setTimeout cb delay s))
| may_setInterval (cb : Callback) (delay : Z) (s : State) :
    may capacity s (snd (setInterval cb delay s))
| may_clearInterval (h : TimerId) (s : State) :
    may capacity s (clearInterval h s)
| may_rearm (t : Timer) (s : State) :
    may capacity s (rearm t s)
| may_reset (s : State) :
    may capacity s (with_retryAttempts 0 s)
| may_retry (s : State) :
    retryAttempts s < MAX_RETRY_ATTEMPTS ->
    may capacity s (with_retryAttempts (retryAttempts s + 1) s)
| may_insert (statusId : string) (s : State) :
    JS.has statusId (viewedStatus s) = false ->
    may capacity s
      (with_viewedStatus
         (cleanupViewedStatus capacity (JS.add statusId (viewedStatus s))) s)
| may_delete (statusId : string) (s : State) :
    may capacity s (with_viewedStatus (JS.delete statusId (viewedStatus s)) s)
| may_exit (s : State) :
    may capacity s (with_exited (Some 0) s).

(** Timer handles are handed out once: those in the table are distinct
    and below the next one. *)
Definition handles_fresh (s : State) : Prop :=
  NoDup (map t_id (timers s))
  /\ forall t, In t (timers s) -> (t_id t < nextTimer s)%nat.

Definition is_CbUpdatePresence (cb : Callback) : bool :=
  match cb with
  | CbUpdatePresence _ => true
  | _ => false
  end.

Definition is_CbStatusSync (cb : Callback) : bool :=
  match cb with
  | CbStatusSync _ => true
  | _ => false
  end.

(** The event is a close notification that carries the logged-out code. *)
Definition logs_out (loggedOut : Z) (e : Event) : bool :=
  match e with
  | ConnectionUpdate _ update =>
      match connection update with
      | Some ConnClose => carries_loggedOut loggedOut update
      | _ => false
      end
  | _ => false
  end.

(** No character of the string is [c]. *)
Definition free_of (c : ascii) (s : string) : bool :=
  JS.string_forall (fun x => negb (Ascii.eqb x c)) s.

(** The jid the anti-delete alert is sent to (line 136). *)
Definition ownerJid (config : Config) : string :=
  String.append (match ownerNumber config with
                 | Some o => o
                 | None => "undefined"
                 end) "@s.whatsapp.net".

(** The transport calls among some effects. *)
Definition transport_calls (l : list (Z * Effect)) : list (SockId * Call) :=
  flat_map (fun e => match snd e with
                     | Transport sock c => [(sock, c)]
                     | _ => []
                     end) l.

(** ** Status traffic *)

(** Timers of the status feature: cache expiry and subscription refresh. *)
Definition status_callback (cb : Callback) : bool :=
  match cb with
  | CbDeleteStatus _ | CbStatusSync _ => true
  | _ => false
  end.

(** Transport calls of the status feature: marking a status read, the
    subscription message and the reaction. *)
Definition status_call (c : Call) : bool :=
  match c with
  | ReadMessages _ => true
  | SendMessage _ (PText _) => true
  | SendMessage _ (PReact _ _ _) => true
  | _ => false
  end.

Definition status_effect (e : Effect) : bool :=
  match e with
  | Transport _ c => status_call c
  | _ => false
  end.

(** Nothing of the status feature has happened or is scheduled. *)
Definition status_idle (s : State) : Prop :=
  viewedStatus s = []
  /\ statusSyncInterval s = None
  /\ forallb (fun t => negb (status_callback (t_callback t))) (timers s) = true
  /\ forallb (fun e => negb (status_effect (snd e))) (effects s) = true.

(** State changes that involve no status traffic. *)
Inductive idle_change : State -> State -> Prop :=
| idle_refl (s : State) : idle_change s s
| idle_trans (s1 s2 s3 : State) :
    idle_change s1 s2 -> idle_change s2 s3 -> idle_change s1 s3
| idle_other (s s' : State) :
    viewedStatus s' = viewedStatus s ->
    statusSyncInterval s' = statusSyncInterval s ->
    timers s' = timers s -> effects s' = effects s ->
    idle_change s s'
| idle_emit (e : Effect) (s : State) :
    status_effect e = false -> idle_change s (emit e s)
| idle_setTimeout (cb : Callback) (delay : Z) (s : State) :
    status_callback cb = false -> idle_change s (snd (setTimeout cb delay s))
| idle_setInterval (cb : Callback) (delay : Z) (s : State) :
    status_callback cb = false -> idle_change s (snd (setInterval cb delay s))
| idle_clearInterval (h : TimerId) (s : State) :
    idle_change s (clearInterval h s)
| idle_rearm (t : Timer) (s : State) :
    idle_change s (rearm t s).

(** The event resumes an open handler that is suspended at line 260. *)
Definition resumes_open (e : Event) (s : State) : bool :=
  match e with
  | Settles k _ =>
      match find_task k s with
      | Some (OpenPriming _) | Some (OpenYielded _) => true
      | _ => false
      end
  | _ => false
  end.

(** Along [evs] from [s], no open handler is resumed. *)
Fixpoint no_open_resumed (config : Config) (loggedOut : Z) (capacity : nat)
    (evs : list (Net * Event)) (s : State) : bool :=
  match evs with
  | [] => true
  | (net, e) :: rest =>
      (negb (resumes_open e s)
       && match step config loggedOut capacity net e s with
          | Some s' => no_open_resumed config loggedOut capacity rest s'
          | None => true
          end)%bool
  end.

(** Socket 0 is online and its open handler has run to the end. *)
Definition opened_no_status : list (Net * Event) :=
  registered_bootstrap
  ++ [(all_ok, ConnectionUpdate O open_update);
      (all_ok, Settles 1%nat (Resolved VUndefined))].

(** A session comes online and a status arrives. *)
Definition open_then_status : list (Net * Event) :=
  registered_bootstrap
  ++ [(all_ok, ConnectionUpdate O open_update);
      (all_ok, Settles 1%nat (Resolved VUndefined));
      (all_ok, MessagesUpsert O [status_message "a"]);
      (all_ok, ConnectionUpdate O close_plain)].

(** * Properties *)

(** ** Sets *)

Module SetFacts.
Import JS.

Lemma has_In (x : string) (s : StrSet) : has x s = true <-> In x s.
Proof.
  unfold has. rewrite existsb_exists. split.
  - intros [y [Hy He]]. apply String.eqb_eq in He. now subst.
  - intros H. exists x. split; [assumption | apply String.eqb_refl].
Qed.

Lemma has_false (x : string) (s : StrSet) : has x s = false <-> ~ In x s.
Proof.
  rewrite <- has_In. destruct (has x s); split; intros; congruence.
Qed.

Lemma In_delete (x y : string) (s : StrSet) :
  In y (delete x s) <-> In y s /\ y <> x.
Proof.
  unfold delete. rewrite filter_In. split.
  - intros [Hy Hn]. split; [assumption|].
    intros ->. rewrite String.eqb_refl in Hn. discriminate.
  - intros [Hy Hn]. split; [assumption|].
    destruct (String.eqb_spec x y); [congruence | reflexivity].
Qed.

Lemma delete_absent (x : string) (s : StrSet) : ~ In x s -> delete x s = s.
Proof.
  induction s as [|y s IH]; simpl; intros H; [reflexivity|].
  destruct (String.eqb_spec x y) as [->|Hn]; simpl.
  - exfalso. apply H. now left.
  - f_equal. apply IH. intros Hi. apply H. now right.
Qed.

Lemma size_delete_le (x : string) (s : StrSet) : (size (delete x s) <= size s)%nat.
Proof. apply filter_length_le. Qed.

Lemma size_delete_lt (x : string) (s : StrSet) :
  In x s -> (size (delete x s) < size s)%nat.
Proof.
  unfold size, delete. induction s as [|y s IH]; simpl; [tauto|].
  intros [->|Hi].
  - rewrite String.eqb_refl. simpl.
    pose proof (filter_length_le (fun y => negb (String.eqb x y)) s). lia.
  - specialize (IH Hi). destruct (negb (String.eqb x y)); simpl; lia.
Qed.

Lemma NoDup_delete (x : string) (s : StrSet) : NoDup s -> NoDup (delete x s).
Proof. apply NoDup_filter. Qed.

Lemma NoDup_add (x : string) (s : StrSet) : NoDup s -> NoDup (add x s).
Proof.
  unfold add. destruct (has x s) eqn:E; [trivial|].
  intros H. apply has_false in E.
  apply NoDup_app; [assumption | repeat constructor; simpl; tauto |].
  intros y Hy [<-|[]]. contradiction.
Qed.

Lemma add_absent (x : string) (s : StrSet) : has x s = false -> add x s = s ++ [x].
Proof. unfold add. now intros ->. Qed.

(** The iterator yields a member of the set, and what it has not yet
    visited still covers the rest of the set. *)
Lemma iterator_next_covers (s : StrSet) (it : list string) :
  (forall y, In y s -> In y it) ->
  match iterator_next s it with
  | (Some x, it') => In x s /\ forall y, In y s -> y <> x -> In y it'
  | (None, _) => s = []
  end.
Proof.
  induction it as [|x it IH]; simpl; intros Hc.
  - destruct s as [|y s]; [reflexivity|]. destruct (Hc y). now left.
  - destruct (has x s) eqn:E.
    + apply has_In in E. split; [assumption|].
      intros y Hy Hn. destruct (Hc y Hy); congruence.
    + apply has_false in E. apply IH.
      intros y Hy. destruct (Hc y Hy); [subst; contradiction | assumption].
Qed.

End SetFacts.

(** ** Capacity eviction *)

Section Cleanup.
Import JS SetFacts.

Lemma cleanup_loop_size (n : nat) :
  forall it s, (forall y, In y s -> In y it) ->
               (size (cleanup_loop n it s) <= size s - n)%nat.
Proof.
  induction n as [|n IH]; intros it s Hc; simpl; [lia|].
  pose proof (iterator_next_covers s it Hc) as Hn.
  destruct (iterator_next s it) as [[x|] it']; simpl.
  - destruct Hn as [Hx Hrest].
    etransitivity.
    + apply IH. intros y Hy. apply In_delete in Hy. now apply Hrest.
    + pose proof (size_delete_lt x s Hx). lia.
  - subst s. etransitivity; [apply IH; simpl; tauto | simpl; lia].
Qed.

(** Whatever the set holds, [cleanupViewedStatus] leaves at most
    [capacity] entries. *)
Lemma cleanupViewedStatus_size (capacity : nat) (s : StrSet) :
  (size (cleanupViewedStatus capacity s) <= capacity)%nat.
Proof.
  unfold cleanupViewedStatus. destruct (Nat.ltb_spec capacity (size s)).
  - etransitivity; [apply cleanup_loop_size; unfold values; auto | lia].
  - assumption.
Qed.

Lemma cleanup_loop_skipn (n : nat) :
  forall s, NoDup s -> cleanup_loop n s s = skipn n s.
Proof.
  induction n as [|n IH]; intros s Hs; [reflexivity|].
  destruct s as [|x s]; simpl.
  - clear IH. induction n; simpl; auto.
  - unfold has. simpl. rewrite String.eqb_refl. simpl.
    rewrite String.eqb_refl. simpl.
    inversion Hs; subst.
    fold (delete x s). rewrite delete_absent by assumption.
    now apply IH.
Qed.

(** On a set, eviction drops the oldest entries and keeps insertion
    order. *)
Lemma cleanupViewedStatus_skipn (capacity : nat) (s : StrSet) :
  NoDup s -> cleanupViewedStatus capacity s = skipn (size s - capacity) s.
Proof.
  intros Hs. unfold cleanupViewedStatus.
  destruct (Nat.ltb_spec capacity (size s)).
  - now apply cleanup_loop_skipn.
  - replace (size s - capacity)%nat with O by lia. reflexivity.
Qed.

Lemma NoDup_cleanupViewedStatus (capacity : nat) (s : StrSet) :
  NoDup s -> NoDup (cleanupViewedStatus capacity s).
Proof.
  intros Hs. rewrite cleanupViewedStatus_skipn by assumption.
  rewrite <- (firstn_skipn (size s - capacity) s) in Hs.
  now apply NoDup_app_remove_l in Hs.
Qed.

End Cleanup.

(** ** Dedup cache *)

Section Dedup.
Import JS SetFacts.

Variable config : Config.
Variable capacity : nat.

Lemma observeOnce_seen (statusId : string) (s : State) :
  has statusId (viewedStatus s) = true ->
  observeOnce capacity statusId s = (false, s).
Proof. unfold observeOnce. now intros ->. Qed.

Lemma observeOnce_new (statusId : string) (s : State) :
  has statusId (viewedStatus s) = false ->
  observeOnce capacity statusId s =
    (true,
     with_nextTimer (S (nextTimer s))
       (with_timers
          (timers s ++ [mkTimer (nextTimer s) (clock s + STATUS_CLEANUP_INTERVAL)
                          None (CbDeleteStatus statusId)])
          (with_viewedStatus
             (cleanupViewedStatus capacity (viewedStatus s ++ [statusId])) s))).
Proof.
  intros H. unfold observeOnce. rewrite H. cbn. rewrite (add_absent _ _ H).
  reflexivity.
Qed.

Lemma observeOnce_result (statusId : string) (s : State) :
  fst (observeOnce capacity statusId s) = negb (has statusId (viewedStatus s)).
Proof. unfold observeOnce. now destruct (has statusId (viewedStatus s)). Qed.

(** After the guard of line 101 [handleStatusView] only talks to the
    transport and the console. *)
Lemma handleStatusView_cache (net : Net) (sock : SockId) (msg : Message) (s : State) :
  let s' := handleStatusView config capacity net sock msg s in
  let o := snd (observeOnce capacity (key_id (key msg)) s) in
  viewedStatus s' = viewedStatus o /\ timers s' = timers o
  /\ nextTimer s' = nextTimer o /\ clock s' = clock o.
Proof.
  unfold handleStatusView.
  destruct (observeOnce capacity (key_id (key msg)) s) as [isNew o].
  destruct isNew; cbn; [|auto].
  destruct (truthy_string (key_participant (key msg))); [|auto].
  destruct (transport_ok net sock _); [|cbn; auto].
  destruct (autoReactStatus config); [|cbn; auto].
  destruct (truthy_string (statusReactionEmoji config)); [|cbn; auto].
  destruct (transport_ok net sock _); cbn; auto.
Qed.

End Dedup.

(** C5: right after [handleStatusView] has inserted a new id, the cache
    holds at most [MAX_VIEWED_STATUS_SIZE] entries, whatever it held
    before. *)
Theorem dedup_size_after_insertion
    (config : Config) (capacity : nat) (net : Net) (sock : SockId)
    (msg : Message) (s : State) :
  JS.has (key_id (key msg)) (viewedStatus s) = false ->
  let s' := handleStatusView config capacity net sock msg s in
  viewedStatus s' = cleanupViewedStatus capacity (viewedStatus s ++ [key_id (key msg)])
  /\ (JS.size (viewedStatus s') <= capacity)%nat.
Proof.
  intros H s'.
  destruct (handleStatusView_cache config capacity net sock msg s) as [Hv _].
  fold s' in Hv. rewrite (observeOnce_new capacity _ _ H) in Hv. cbn in Hv.
  split; [exact Hv|].
  rewrite Hv. apply cleanupViewedStatus_size.
Qed.

Lemma dedup_size_after_insertion_witness :
  JS.has "a" (viewedStatus fresh) = false
  /\ (JS.size (viewedStatus
                 (handleStatusView sample_config 1000 all_ok O (status_message "a") fresh))
      <= 1000)%nat.
Proof.
  split; [reflexivity|].
  apply (dedup_size_after_insertion sample_config 1000 all_ok O (status_message "a") fresh).
  reflexivity.
Defined.

(** C7: with a capacity of 3 and four distinct ids observed in the order
    a, b, c, d on an empty cache, nothing is evicted up to c, observing d
    evicts a and nothing else, and a is then treated as new. *)
Theorem capacity_three_evicts_oldest (a b c d : string) (s : State) :
  viewedStatus s = [] ->
  NoDup [a; b; c; d] ->
  let observe id st := snd (observeOnce 3 id st) in
  let s3 := observe c (observe b (observe a s)) in
  let s4 := observe d s3 in
  viewedStatus s3 = [a; b; c]
  /\ viewedStatus s4 = [b; c; d]
  /\ fst (observeOnce 3 a s4) = true
  /\ viewedStatus (observe a s4) = [c; d; a].
Proof.
  intros Hs Hd observe s3 s4.
  assert (Hneq : a <> b /\ a <> c /\ a <> d /\ b <> c /\ b <> d /\ c <> d).
  { inversion Hd as [|? ? Ha Hd1]; subst. inversion Hd1 as [|? ? Hb Hd2]; subst.
    inversion Hd2 as [|? ? Hc Hd3]; subst. simpl in *. intuition congruence. }
  destruct Hneq as (Hab & Hac & Had & Hbc & Hbd & Hcd).
  assert (E : forall x y : string, x <> y -> String.eqb x y = false /\ String.eqb y x = false).
  { intros x y H. split; apply String.eqb_neq; congruence. }
  destruct (E _ _ Hab) as [Eab Eba]. destruct (E _ _ Hac) as [Eac Eca].
  destruct (E _ _ Had) as [Ead Eda]. destruct (E _ _ Hbc) as [Ebc Ecb].
  destruct (E _ _ Hbd) as [Ebd Edb]. destruct (E _ _ Hcd) as [Ecd Edc].
  assert (V : forall id st, JS.has id (viewedStatus st) = false ->
            viewedStatus (observe id st)
            = cleanupViewedStatus 3 (viewedStatus st ++ [id])).
  { intros id st H. unfold observe. now rewrite (observeOnce_new 3 _ _ H). }
  assert (H1 : viewedStatus (observe a s) = [a]).
  { rewrite V; rewrite Hs; reflexivity. }
  assert (H2 : viewedStatus (observe b (observe a s)) = [a; b]).
  { rewrite V; rewrite H1; [reflexivity|]. unfold JS.has. cbn. now rewrite Eba. }
  assert (H3 : viewedStatus s3 = [a; b; c]).
  { unfold s3. rewrite V; rewrite H2; [reflexivity|].
    unfold JS.has. cbn. now rewrite Eca, Ecb. }
  assert (H4 : viewedStatus s4 = [b; c; d]).
  { unfold s4. rewrite V; rewrite H3.
    - unfold cleanupViewedStatus, JS.has. cbn. rewrite String.eqb_refl. cbn.
      rewrite String.eqb_refl. cbn. now rewrite Eab, Eac, Ead.
    - unfold JS.has. cbn. now rewrite Eda, Edb, Edc. }
  assert (Ha : JS.has a (viewedStatus s4) = false).
  { rewrite H4. unfold JS.has. cbn. now rewrite Eab, Eac, Ead. }
  repeat split; try assumption.
  - now rewrite observeOnce_result, Ha.
  - rewrite V by exact Ha. rewrite H4.
    unfold cleanupViewedStatus, JS.has. cbn. rewrite String.eqb_refl. cbn.
    rewrite String.eqb_refl. cbn. now rewrite Ebc, Ebd, Eba.
Qed.

Lemma capacity_three_evicts_oldest_witness :
  viewedStatus fresh = [] /\ NoDup ["a"; "b"; "c"; "d"]
  /\ fst (observeOnce 3 "a"
            (snd (observeOnce 3 "d"
               (snd (observeOnce 3 "c"
                  (snd (observeOnce 3 "b" (snd (observeOnce 3 "a" fresh))))))))) = true.
Proof.
  assert (Hd : NoDup ["a"; "b"; "c"; "d"]).
  { repeat constructor; simpl; intuition discriminate. }
  split; [reflexivity|]. split; [exact Hd|].
  exact (proj1 (proj2 (proj2
           (capacity_three_evicts_oldest "a" "b" "c" "d" fresh eq_refl Hd)))).
Defined.

(** ** Incoming messages *)

(** What the two handlers of a message add to the state. *)
Lemma handleAntiDelete_grows (config : Config) (net : Net) (sock : SockId)
    (msg : Message) (s : State) :
  clock (handleAntiDelete config net sock msg s) = clock s
  /\ timers (handleAntiDelete config net sock msg s) = timers s
  /\ exists added, effects (handleAntiDelete config net sock msg s) = effects s ++ added.
Proof.
  unfold handleAntiDelete.
  assert (H0 : clock s = clock s /\ timers s = timers s
               /\ exists added : list (Z * Effect), effects s = effects s ++ added).
  { repeat split. exists []. now rewrite app_nil_r. }
  destruct (message msg) as [content|]; [|exact H0].
  destruct (protocolMessage content) as [pm|]; [|exact H0].
  destruct (negb (Z.eqb (pm_type pm) 0)); [exact H0|].
  destruct (pm_key pm) as [deletedKey|].
  2:{ repeat split. cbn. eexists. reflexivity. }
  destruct (JS.truthy_string (key_remoteJid deletedKey)) as [deletedJid|]; [|exact H0].
  destruct (String.eqb deletedJid "status@broadcast"); [exact H0|].
  cbv zeta. destruct (transport_ok net sock _); repeat split; cbn;
    rewrite <- app_assoc; eexists; reflexivity.
Qed.

Lemma handleStatusView_reads (config : Config) (capacity : nat) (net : Net)
    (sock : SockId) (msg : Message) (sender : string) (s : State) :
  JS.has (key_id (key msg)) (viewedStatus s) = false ->
  key_participant (key msg) = Some sender -> sender <> "" ->
  let s' := handleStatusView config capacity net sock msg s in
  clock s' = clock s
  /\ In (clock s, Transport sock (ReadMessages (key_id (key msg)))) (effects s')
  /\ In (mkTimer (nextTimer s) (clock s + 3600000) None
           (CbDeleteStatus (key_id (key msg)))) (timers s').
Proof.
  intros Hnew Hp Hs s'.
  assert (H : clock s' = clock s
              /\ (exists added,
                    effects s' = effects s
                                 ++ (clock s, Transport sock (ReadMessages (key_id (key msg))))
                                    :: added)
              /\ timers s' = timers s
                             ++ [mkTimer (nextTimer s) (clock s + 3600000) None
                                   (CbDeleteStatus (key_id (key msg)))]).
  { unfold s', handleStatusView, observeOnce. rewrite Hnew, Hp.
    cbn [negb]. replace (JS.truthy_string (Some sender)) with (Some sender)
      by (destruct sender; [contradiction | reflexivity]).
    cbv zeta.
    destruct (transport_ok net sock (ReadMessages _)).
    - destruct (if autoReactStatus config
                then JS.truthy_string (statusReactionEmoji config) else None) as [emoji|].
      + destruct (transport_ok net sock _); (split; [reflexivity|]);
          (split; [|reflexivity]); cbn; rewrite <- ?app_assoc; cbn;
          eexists; reflexivity.
      + split; [reflexivity|]. split; [|reflexivity].
        cbn. rewrite <- ?app_assoc. cbn. eexists. reflexivity.
    - split; [reflexivity|]. split; [|reflexivity].
      cbn. rewrite <- ?app_assoc. cbn. eexists. reflexivity. }
  destruct H as (Hc & (added & He) & Ht). split; [exact Hc|].
  rewrite He, Ht. split; apply in_or_app; right; now left.
Qed.

(** C10: of a [messages.upsert] batch only the first message is looked
    at.  The rest is ignored: the batch is handled exactly as the batch
    made of its first message alone, both by [handleIncomingMessages] and
    by the event loop, and an empty batch changes nothing.  The first
    message is processed: when it is a status broadcast with a sender and
    an id that is not cached, and status viewing is on, it is marked read
    and its expiry timer is set; when it reports the deletion of a message
    of a chat other than "status@broadcast" and anti-delete is on, the
    owner is alerted. *)
Theorem only_first_message_processed
    (config : Config) (loggedOut : Z) (capacity : nat) (net : Net)
    (sock : SockId) (msg : Message) (rest : list Message) (s : State) :
  let s' := handleIncomingMessages config capacity net sock (msg :: rest) s in
  s' = handleIncomingMessages config capacity net sock [msg] s
  /\ step config loggedOut capacity net (MessagesUpsert sock (msg :: rest)) s
     = step config loggedOut capacity net (MessagesUpsert sock [msg]) s
  /\ handleIncomingMessages config capacity net sock [] s = s
  /\ (forall sender,
        message msg <> None ->
        key_remoteJid (key msg) = Some "status@broadcast" ->
        autoViewStatus config = true ->
        JS.has (key_id (key msg)) (viewedStatus s) = false ->
        key_participant (key msg) = Some sender -> sender <> "" ->
        In (clock s, Transport sock (ReadMessages (key_id (key msg)))) (effects s')
        /\ In (mkTimer (nextTimer s) (clock s + 3600000) None
                 (CbDeleteStatus (key_id (key msg)))) (timers s'))
  /\ (forall content pm deletedKey deletedJid,
        message msg = Some content ->
        protocolMessage content = Some pm ->
        pm_type pm = 0 -> pm_key pm = Some deletedKey ->
        key_remoteJid deletedKey = Some deletedJid ->
        deletedJid <> "" -> deletedJid <> "status@broadcast" ->
        antiDelete config = true ->
        In (clock s, Transport sock (SendMessage (ownerJid config) (PAlert deletedJid)))
          (effects s')).
Proof.
  intros s'. split; [reflexivity|]. split.
  { unfold step. destruct (exited s); [reflexivity|].
    destruct (is_listening sock s); reflexivity. }
  split; [reflexivity|]. split.
  - intros sender Hm Hj Hv Hnew Hp Hs.
    destruct (handleStatusView_reads config capacity net sock msg sender s Hnew Hp Hs)
      as (Hc & He & Ht).
    unfold s', handleIncomingMessages.
    destruct (message msg); [|contradiction].
    rewrite Hj, Hv. cbn [is_status_broadcast andb].
    rewrite String.eqb_refl. cbn [andb].
    destruct (antiDelete config); [|now split].
    destruct (handleAntiDelete_grows config net sock msg
                (handleStatusView config capacity net sock msg s))
      as (_ & Ht' & added & He').
    rewrite Ht', He'. split; [|exact Ht]. apply in_or_app. now left.
  - intros content pm deletedKey deletedJid Hm Hpm Hty Hk Hj Hne Hns Ha.
    unfold s', handleIncomingMessages. rewrite Hm, Ha.
    set (mid := if (is_status_broadcast (key_remoteJid (key msg))
                    && autoViewStatus config)%bool
                then handleStatusView config capacity net sock msg s else s).
    assert (Hc : clock mid = clock s).
    { unfold mid. destruct (_ && _)%bool; [|reflexivity].
      unfold handleStatusView, observeOnce.
      destruct (JS.has (key_id (key msg)) (viewedStatus s)); [reflexivity|].
      cbn [negb]. cbv zeta.
      repeat first [ reflexivity
                   | match goal with
                     | |- context [match ?c with _ => _ end] => destruct c
                     end ]. }
    unfold handleAntiDelete. rewrite Hm, Hpm, Hty, Hk, Hj. cbn [Z.eqb negb].
    replace (JS.truthy_string (Some deletedJid)) with (Some deletedJid)
      by (destruct deletedJid; [contradiction | reflexivity]).
    destruct (String.eqb_spec deletedJid "status@broadcast") as [|_]; [contradiction|].
    cbv zeta. fold (ownerJid config). rewrite <- Hc.
    destruct (transport_ok net sock _); cbn; rewrite ?in_app_iff; cbn; tauto.
Qed.

Lemma only_first_message_processed_witness :
  In (0, Transport O (ReadMessages "a"))
    (effects (handleIncomingMessages sample_config 1000 all_ok O
                [status_message "a"; status_message "b"] online)).
Proof.
  apply (proj1 (proj2 (proj2 (proj2
           (only_first_message_processed sample_config 401 1000 all_ok O
              (status_message "a") [status_message "b"] online))))
           "254711111111@s.whatsapp.net").
  - discriminate.
  - reflexivity.
  - reflexivity.
  - reflexivity.
  - reflexivity.
  - discriminate.
Defined.

(** ** The event loop after exit *)

Section Loop.

Variable config : Config.
Variable loggedOut : Z.
Variable capacity : nat.

Lemma step_exited (net : Net) (e : Event) (s : State) (code : Z) :
  exited s = Some code -> step config loggedOut capacity net e s = Some s.
Proof. unfold step. now intros ->. Qed.

Lemma run_exited (evs : list (Net * Event)) (s : State) (code : Z) :
  exited s = Some code -> run config loggedOut capacity evs s = Some s.
Proof.
  intros H. induction evs as [|[net e] evs IH]; simpl; [reflexivity|].
  now rewrite (step_exited net e s code H).
Qed.

Lemma run_app (evs1 evs2 : list (Net * Event)) (s : State) :
  run config loggedOut capacity (evs1 ++ evs2) s
  = match run config loggedOut capacity evs1 s with
    | Some s' => run config loggedOut capacity evs2 s'
    | None => None
    end.
Proof.
  revert s. induction evs1 as [|[net e] evs1 IH]; intros s; simpl; [reflexivity|].
  destruct (step config loggedOut capacity net e s); [apply IH | reflexivity].
Qed.

End Loop.

(** ** Close events *)

Lemma pending_bootstraps_clearInterval (h : TimerId) (s : State) :
  (pending_bootstraps (clearInterval h s) <= pending_bootstraps s)%nat.
Proof.
  unfold pending_bootstraps, clearInterval. cbn.
  induction (timers s) as [|t ts IH]; cbn; [lia|].
  destruct (negb (t_id t =? h)%nat); cbn; destruct (is_CbStartBot (t_callback t)); cbn; lia.
Qed.


(** What Node's timers make of a delay, and of the reconnect delay. *)
Lemma timer_delay_range (delay : Z) : 1 <= timer_delay delay <= TIMEOUT_MAX.
Proof.
  unfold timer_delay, TIMEOUT_MAX.
  destruct (Z.leb_spec 1 delay); destruct (Z.leb_spec delay 2147483647); cbn; lia.
Qed.

Lemma announced_delay_spec (config : Config) :
  JS.number_or (reconnectDelay config) 5000 = announced_delay config.
Proof.
  unfold JS.number_or, JS.truthy_number, announced_delay.
  destruct (reconnectDelay config) as [[|p|p]|]; reflexivity.
Qed.

Lemma restart_after_spec (config : Config) :
  timer_delay (JS.number_or (reconnectDelay config) 5000) = restart_after config.
Proof.
  rewrite announced_delay_spec. unfold announced_delay, restart_after.
  destruct (reconnectDelay config) as [delay|]; [|reflexivity].
  destruct (Z.eqb_spec delay 0) as [->|Hn]; [reflexivity|].
  unfold timer_delay, TIMEOUT_MAX.
  destruct (Z.leb_spec 1 delay); destruct (Z.leb_spec delay 2147483647);
    destruct (Z.ltb_spec delay 1); destruct (Z.ltb_spec 2147483647 delay);
    cbn; lia.
Qed.

Lemma restart_after_range (config : Config) : 1 <= restart_after config <= TIMEOUT_MAX.
Proof. rewrite <- restart_after_spec. apply timer_delay_range. Qed.




(** ** Bootstrap *)

Section Bootstrap.

Variable config : Config.

(** What the [catch] block of [startBot] does. *)
Lemma startBot_catch_spec (message : string) (s : State) :
  startBot_catch config message s =
    with_nextTimer (S (nextTimer s))
      (with_timers (timers s ++ [mkTimer (nextTimer s) (clock s + restart_after config)
                                   None CbStartBot])
         (with_effects (effects s
                        ++ [(clock s, Print (LogFatal message));
                            (clock s, Print (LogRestarting (announced_delay config)))])
            s)).
Proof.
  unfold startBot_catch. cbv zeta. rewrite announced_delay_spec.
  unfold print, emit, setTimeout. cbn.
  rewrite <- app_assoc, <- restart_after_spec, announced_delay_spec. reflexivity.
Qed.

(** A bootstrap whose validation throws ends in the [catch] block. *)
Lemma startBot_invalid (message : string) (s : State) :
  validateConfig config = JS.Throw message ->
  startBot config s = startBot_catch config message s.
Proof. unfold startBot. now intros ->. Qed.

End Bootstrap.

(** C3 (as the code has it): when [validateConfig] throws, [startBot]
    reports the error, announces a restart in [config.reconnectDelay]
    ms (5000 when that is missing or 0) and sets a timer that calls
    [startBot] again after that delay, or after 1 ms when the delay is
    negative or larger than 2147483647 ms; the retry fails in the same
    way, so after any number [n] of rounds the process is still alive with
    exactly one restart pending and [n + 1] reports on the console. *)
Theorem config_error_retried_forever
    (config : Config) (loggedOut : Z) (capacity : nat) (message : string) (n : nat) :
  validateConfig config = JS.Throw message ->
  run config loggedOut capacity (retry_rounds (restart_after config) n) (boot config)
  = Some (retrying message (announced_delay config) (restart_after config) n).
Proof.
  intros Hv.
  pose proof (restart_after_range config) as Hd.
  set (delay := announced_delay config).
  set (period := restart_after config) in *.
  induction n as [|n IH].
  - cbn. unfold boot. rewrite (startBot_invalid config message fresh Hv).
    rewrite startBot_catch_spec. reflexivity.
  - cbn [retry_rounds]. rewrite run_app, IH. clear IH.
    unfold run, step, retrying, find_timer, rearm, clearInterval.
    cbn -[Z.of_nat Z.mul Z.add Z.leb fatal_lines].
    replace (Z.leb 0 period) with true by (symmetry; apply Z.leb_le; lia).
    rewrite Z.leb_refl. cbn -[Z.of_nat Z.mul Z.add Z.leb fatal_lines].
    rewrite Nat.eqb_refl. cbn -[Z.of_nat Z.mul Z.add Z.leb fatal_lines].
    rewrite Z.leb_refl, Nat.eqb_refl.
    cbn -[Z.of_nat Z.mul Z.add Z.leb fatal_lines].
    rewrite (startBot_invalid config message _ Hv), startBot_catch_spec.
    fold delay period. unfold retrying. cbn [fatal_lines].
    replace (Z.of_nat (S n) * period) with (Z.of_nat n * period + period) by lia.
    reflexivity.
Qed.

Lemma config_error_retried_forever_witness :
  run config_without_name 401 1000 (retry_rounds 5000 3) (boot config_without_name)
  = Some (retrying "Missing required config: botName" 5000 5000 3).
Proof.
  apply (config_error_retried_forever config_without_name 401 1000
           "Missing required config: botName" 3).
  reflexivity.
Defined.

(** With a reconnect delay of 3000000000 ms the failing bootstrap is
    repeated every millisecond, each time announcing that delay. *)
Lemma config_error_retried_every_ms :
  run config_without_name_long 401 1000 (retry_rounds 1 2)
    (boot config_without_name_long)
  = Some (retrying "Missing required config: botName" 3000000000 1 2).
Proof. vm_compute. reflexivity. Qed.

(** C3 as the spec words it does not hold: with [botName] missing the
    first bootstrap throws, yet a restart is pending right away, and once
    it has fired the error has been reported twice and the process is
    still alive with another restart pending. *)
Lemma config_error_not_fatal :
  validateConfig config_without_name = JS.Throw "Missing required config: botName"
  /\ pending_bootstraps (boot config_without_name) = 1%nat
  /\ exists s,
       run config_without_name 401 1000
         [(all_ok, Elapse 5000); (all_ok, Fire O)] (boot config_without_name) = Some s
       /\ exited s = None
       /\ pending_bootstraps s = 1%nat
       /\ effects s = [(0, Print (LogFatal "Missing required config: botName"));
                       (0, Print (LogRestarting 5000));
                       (5000, Print (LogFatal "Missing required config: botName"));
                       (5000, Print (LogRestarting 5000))].
Proof.
  split; [reflexivity|]. split; [reflexivity|].
  eexists. split; [vm_compute; reflexivity|]. repeat split; reflexivity.
Qed.
(** ** Pairing *)

Section Pairing.

Variable config : Config.
Variable k : TaskId.

Lemma find_task_put (t : Task) (s : State) :
  find_task k (put_task k t s) = Some t.
Proof.
  unfold find_task, put_task. cbn.
  induction (tasks s) as [|[k' t'] ts IH]; cbn.
  - now rewrite Nat.eqb_refl.
  - destruct (Nat.eqb k' k) eqn:E; cbn; [exact IH|]. now rewrite E.
Qed.

Lemma pairing_run_app (ws1 ws2 : list Wake) (o : Outcome) :
  pairing_run config k (ws1 ++ ws2) o
  = match pairing_run config k ws1 o with
    | Some o' => pairing_run config k ws2 o'
    | None => None
    end.
Proof.
  revert o. induction ws1 as [|w ws1 IH]; intros o; cbn; [reflexivity|].
  destruct o as [s| |]; try reflexivity.
  destruct (find_task k s) as [[| |sock at_| |]|]; try reflexivity.
  destruct (getPairingCode_resume config k sock at_ w s); [apply IH | reflexivity].
Qed.

Lemma getPairingCode_at (sock : SockId) (s : State) :
  exists s', getPairingCode config k sock s = Suspended s'
             /\ pairing_at k sock Stabilizing (retryAttempts s) (pairing_requests s) s'.
Proof.
  eexists. split; [reflexivity|]. split; [apply find_task_put|].
  split; [reflexivity|].
  unfold pairing_requests. cbn. rewrite filter_app, length_app. cbn. lia.
Qed.

(** The [catch] block below the bound: one more retry is scheduled. *)
Lemma getPairingCode_catch_retry (sock : SockId) (message : string) (s : State) :
  retryAttempts s < MAX_RETRY_ATTEMPTS ->
  exists s', getPairingCode_catch k sock message s = Suspended s'
             /\ pairing_at k sock BackingOff (retryAttempts s + 1) (pairing_requests s) s'.
Proof.
  intros H. unfold getPairingCode_catch. cbn.
  apply Z.ltb_lt in H. rewrite H.
  eexists. split; [reflexivity|]. split; [apply find_task_put|].
  split; [reflexivity|].
  unfold pairing_requests. cbn. rewrite !filter_app, !length_app. cbn. lia.
Qed.

(** The [catch] block at the bound: the failure is raised. *)
Lemma getPairingCode_catch_throw (sock : SockId) (message : string) (s : State) :
  MAX_RETRY_ATTEMPTS <= retryAttempts s ->
  exists s', getPairingCode_catch k sock message s
             = Thrown "Max pairing attempts reached. Restarting bot..." s'
             /\ retryAttempts s' = retryAttempts s
             /\ pairing_requests s' = pairing_requests s.
Proof.
  intros H. unfold getPairingCode_catch. cbn.
  apply Z.ltb_ge in H. rewrite H.
  eexists. split; [reflexivity|]. split; [reflexivity|].
  unfold pairing_requests. cbn. rewrite !filter_app, !length_app. cbn. lia.
Qed.

(** One failed attempt runs into the [catch] block, having made a request
    when the answer was a valid number. *)
Lemma failed_attempt_reaches_catch (sock : SockId) (a : string * string) (s : State)
    (r : Z) (q : nat) :
  pairing_at k sock Stabilizing r q s ->
  exists message s1,
    pairing_run config k (failed_attempt a) (Suspended s)
    = Some (getPairingCode_catch k sock message s1)
    /\ retryAttempts s1 = r
    /\ pairing_requests s1 = (q + requests_of [a])%nat.
Proof.
  intros (Ht & Hr & Hq). unfold failed_attempt, requests_of. cbn [filter].
  destruct (answer_ok (fst a)) eqn:Ea.
  - exists (snd a). eexists. cbn [pairing_run]. rewrite Ht.
    cbn [getPairingCode_resume]. rewrite find_task_put.
    cbn [getPairingCode_resume]. unfold answer_ok in Ea. rewrite Ea.
    cbn [negb]. rewrite find_task_put. cbn [getPairingCode_resume].
    split; [reflexivity|]. split; [exact Hr|].
    unfold pairing_requests in *. cbn. rewrite !filter_app, !length_app. cbn. lia.
  - exists "Invalid phone number. Must be 10-15 digits.". eexists.
    cbn [pairing_run]. rewrite Ht.
    cbn [getPairingCode_resume]. rewrite find_task_put.
    cbn [getPairingCode_resume]. unfold answer_ok in Ea. rewrite Ea.
    cbn [negb]. split; [reflexivity|]. split; [exact Hr|].
    unfold pairing_requests in *. cbn. rewrite !filter_app, !length_app. cbn. lia.
Qed.

(** Below the bound a failed attempt and the pause after it lead back to
    the start of [getPairingCode] with the counter one higher. *)
Lemma failed_attempt_retried (sock : SockId) (a : string * string) (s : State)
    (r : Z) (q : nat) :
  pairing_at k sock Stabilizing r q s ->
  r < MAX_RETRY_ATTEMPTS ->
  exists s',
    pairing_run config k (failed_attempt a ++ [TimerElapsed]) (Suspended s)
    = Some (Suspended s')
    /\ pairing_at k sock Stabilizing (r + 1) (q + requests_of [a])%nat s'.
Proof.
  intros Hat Hr.
  destruct (failed_attempt_reaches_catch sock a s r q Hat) as (m & s1 & Hrun & Hr1 & Hq1).
  rewrite pairing_run_app, Hrun.
  destruct (getPairingCode_catch_retry sock m s1) as (s2 & Hc & Ht2 & Hr2 & Hq2);
    [now rewrite Hr1|].
  rewrite Hc. cbn [pairing_run]. rewrite Ht2. cbn [getPairingCode_resume].
  destruct (getPairingCode_at sock s2) as (s3 & Hg & Ht3 & Hr3 & Hq3).
  rewrite Hg. exists s3. split; [reflexivity|].
  split; [exact Ht3|]. split; congruence.
Qed.

Lemma retried_run (sock : SockId) (attempts : list (string * string)) :
  forall (s : State) (r : Z) (q : nat),
    pairing_at k sock Stabilizing r q s ->
    r + Z.of_nat (List.length attempts) <= MAX_RETRY_ATTEMPTS ->
    exists s',
      pairing_run config k (retried attempts) (Suspended s) = Some (Suspended s')
      /\ pairing_at k sock Stabilizing (r + Z.of_nat (List.length attempts))
           (q + requests_of attempts)%nat s'.
Proof.
  induction attempts as [|a attempts IH]; intros s r q Hat Hle.
  - exists s. split; [reflexivity|]. cbn. now rewrite Z.add_0_r, Nat.add_0_r.
  - cbn [List.length] in Hle. unfold retried. cbn [flat_map]. fold (retried attempts).
    destruct (failed_attempt_retried sock a s r q Hat) as (s1 & Hrun & Hat1); [lia|].
    rewrite pairing_run_app, Hrun.
    destruct (IH s1 (r + 1) (q + requests_of [a])%nat Hat1) as (s2 & Hrun2 & Hat2); [lia|].
    exists s2. split; [exact Hrun2|].
    replace (r + Z.of_nat (List.length (a :: attempts)))
      with (r + 1 + Z.of_nat (List.length attempts)) by (cbn [List.length]; lia).
    replace (q + requests_of (a :: attempts))%nat
      with (q + requests_of [a] + requests_of attempts)%nat; [exact Hat2|].
    unfold requests_of. cbn [filter]. destruct (answer_ok (fst a)); cbn; lia.
Qed.

End Pairing.

Lemma requests_of_all_ok (attempts : list (string * string)) :
  Forall (fun a => answer_ok (fst a) = true) attempts ->
  requests_of attempts = List.length attempts.
Proof.
  unfold requests_of. induction 1 as [|a l Ha _ IH]; cbn; [reflexivity|].
  rewrite Ha. cbn. now rewrite IH.
Qed.

(** C2 (as the code has it): starting from a retry counter of 0, with
    every attempt failing, [getPairingCode] retries [MAX_RETRY_ATTEMPTS]
    = 5 times and raises the terminal failure on the sixth failure, the
    counter being 5; when all six numbers are valid six requests have been
    made.  After fewer failures nothing is raised: the activation is
    pausing before the next attempt.  A request that succeeds makes
    [getPairingCode] return with the counter reset to 0. *)
Theorem pairing_exhausted_on_sixth_failure
    (config : Config) (k : TaskId) (sock : SockId) (s : State)
    (attempts : list (string * string)) (last : string * string) :
  retryAttempts s = 0 ->
  Z.of_nat (List.length attempts) = MAX_RETRY_ATTEMPTS ->
  (exists s',
      pairing_run config k (retried attempts ++ failed_attempt last)
        (getPairingCode config k sock s)
      = Some (Thrown "Max pairing attempts reached. Restarting bot..." s')
      /\ retryAttempts s' = MAX_RETRY_ATTEMPTS
      /\ pairing_requests s'
         = (pairing_requests s + requests_of (attempts ++ [last]))%nat
      /\ (Forall (fun a => answer_ok (fst a) = true) (attempts ++ [last]) ->
          pairing_requests s' = (pairing_requests s + 6)%nat))
  /\ (forall fewer : list (string * string),
        Z.of_nat (List.length fewer) < MAX_RETRY_ATTEMPTS ->
        exists s',
          pairing_run config k (retried fewer ++ failed_attempt last)
            (getPairingCode config k sock s)
          = Some (Suspended s')
          /\ find_task k s' = Some (BootPairing sock BackingOff)
          /\ retryAttempts s' = Z.of_nat (List.length fewer) + 1)
  /\ (forall (st : State) (phoneNumber code : string),
        exists st',
          getPairingCode_resume config k sock (Requesting phoneNumber)
            (Settle (Resolved (VText code))) st = Some (Returned st')
          /\ retryAttempts st' = 0).
Proof.
  intros Hr Hlen.
  destruct (getPairingCode_at config k sock s) as (s0 & Hg & Hat0).
  rewrite Hr in Hat0. rewrite Hg. split; [|split].
  - destruct (retried_run config k sock attempts s0 0 (pairing_requests s) Hat0)
      as (s1 & Hrun1 & Hat1); [lia|].
    destruct (failed_attempt_reaches_catch config k sock last s1 _ _ Hat1)
      as (m & s2 & Hrun2 & Hr2 & Hq2).
    destruct (getPairingCode_catch_throw k sock m s2) as (s3 & Hc & Hr3 & Hq3);
      [rewrite Hr2; lia|].
    exists s3. rewrite pairing_run_app, Hrun1, Hrun2, Hc.
    assert (Hq : pairing_requests s3
                 = (pairing_requests s + requests_of (attempts ++ [last]))%nat).
    { rewrite Hq3, Hq2. unfold requests_of. rewrite filter_app, length_app. lia. }
    split; [reflexivity|]. split; [rewrite Hr3, Hr2; lia|]. split; [exact Hq|].
    intros Hall. rewrite Hq, (requests_of_all_ok _ Hall), length_app. cbn.
    unfold MAX_RETRY_ATTEMPTS in Hlen. lia.
  - intros fewer Hf.
    destruct (retried_run config k sock fewer s0 0 (pairing_requests s) Hat0)
      as (s1 & Hrun1 & Hat1); [lia|].
    destruct (failed_attempt_reaches_catch config k sock last s1 _ _ Hat1)
      as (m & s2 & Hrun2 & Hr2 & Hq2).
    destruct (getPairingCode_catch_retry k sock m s2) as (s3 & Hc & Ht3 & Hr3 & _);
      [rewrite Hr2; lia|].
    exists s3. rewrite pairing_run_app, Hrun1, Hrun2, Hc.
    split; [reflexivity|]. split; [exact Ht3|]. rewrite Hr3, Hr2. lia.
  - intros st phoneNumber code. eexists. split; reflexivity.
Qed.

Lemma pairing_exhausted_on_sixth_failure_witness :
  exists s',
    pairing_run sample_config O
      (retried [("254700000001", "refused"); ("254700000002", "refused");
                ("254700000003", "refused"); ("254700000004", "refused");
                ("254700000005", "refused")]
       ++ failed_attempt ("254700000006", "refused"))
      (getPairingCode sample_config O O fresh)
    = Some (Thrown "Max pairing attempts reached. Restarting bot..." s')
    /\ retryAttempts s' = MAX_RETRY_ATTEMPTS.
Proof.
  destruct (pairing_exhausted_on_sixth_failure sample_config O O fresh
              [("254700000001", "refused"); ("254700000002", "refused");
               ("254700000003", "refused"); ("254700000004", "refused");
               ("254700000005", "refused")]
              ("254700000006", "refused") eq_refl eq_refl)
    as [(s' & Hrun & Hr & _) _].
  exists s'. split; [exact Hrun | exact Hr].
Defined.

(** C2 as the spec words it does not hold.  An unregistered session whose
    five first requests are all refused: after the fifth refusal nothing
    has been raised (the counter is 5, [getPairingCode] is pausing before
    a retry, [startBot] has reported nothing and no restart is pending);
    a sixth request follows; only its refusal raises the failure that
    [startBot] reports. *)
Lemma pairing_not_exhausted_on_fifth_failure :
  (exists s,
      run sample_config 401 1000 five_refusals (boot sample_config) = Some s
      /\ pairing_requests s = 5%nat
      /\ retryAttempts s = 5
      /\ find_task O s = Some (BootPairing O BackingOff)
      /\ reported_fatal s = false
      /\ pending_bootstraps s = O)
  /\ (exists s,
         run sample_config 401 1000 (five_refusals ++ sixth_request)
           (boot sample_config) = Some s
         /\ pairing_requests s = 6%nat
         /\ find_task O s = Some (BootPairing O (Requesting "254712345678"))
         /\ reported_fatal s = false)
  /\ (exists s,
         run sample_config 401 1000 (five_refusals ++ sixth_request ++ sixth_refusal)
           (boot sample_config) = Some s
         /\ pairing_requests s = 6%nat
         /\ In (75000, Print (LogFatal "Max pairing attempts reached. Restarting bot..."))
              (effects s)
         /\ pending_bootstraps s = 1%nat).
Proof.
  split; [|split]; eexists; (split; [vm_compute; reflexivity|]);
    repeat split; try reflexivity.
  cbn. intuition.
Qed.
(** ** Bootstraps in flight *)

Section InFlight.

Variable config : Config.
Variable loggedOut : Z.
Variable capacity : nat.

Lemma keeps_refl (s : State) : keeps 0 s s.
Proof. unfold keeps. repeat split; auto; lia. Qed.

Lemma keeps_trans (a b : nat) (s1 s2 s3 : State) :
  keeps a s1 s2 -> keeps b s2 s3 -> keeps (a + b) s1 s3.
Proof.
  intros (Hl1 & Hd1 & Ho1) (Hl2 & Hd2 & Ho2).
  split; [congruence | split; [lia | auto]].
Qed.

Lemma keeps_weaken (a b : nat) (s s' : State) :
  (a <= b)%nat -> keeps a s s' -> keeps b s s'.
Proof. intros H (Hl & Hd & Ho). repeat split; [assumption | lia | assumption]. Qed.

Lemma frees_keeps (s1 s2 s3 : State) :
  frees s1 s2 -> keeps 1 s2 s3 -> keeps 0 s1 s3.
Proof.
  intros (Hl1 & Hd1 & Ho1) (Hl2 & Hd2 & Ho2).
  split; [congruence | split; [lia | auto]].
Qed.

Lemma frees_then (s1 s2 s3 : State) :
  frees s1 s2 -> keeps 0 s2 s3 -> frees s1 s3.
Proof.
  intros (Hl1 & Hd1 & Ho1) (Hl2 & Hd2 & Ho2).
  split; [congruence | split; [lia | auto]].
Qed.

Lemma keeps_then_frees (s1 s2 s3 : State) :
  keeps 0 s1 s2 -> frees s2 s3 -> frees s1 s3.
Proof.
  intros (Hl1 & Hd1 & Ho1) (Hl2 & Hd2 & Ho2).
  split; [congruence | split; [lia | auto]].
Qed.

(** A state that differs from [s] in neither listeners, timers nor
    tasks. *)
Lemma keeps_same (s s' : State) :
  listening s' = listening s -> timers s' = timers s -> tasks s' = tasks s ->
  keeps 0 s s'.
Proof.
  intros Hl Ht Hk. unfold keeps, load, pending_bootstraps, bootstraps_running,
    oneshot_bootstraps. rewrite Hl, Ht, Hk. repeat split; auto; lia.
Qed.

Lemma keeps_emit (e : Effect) (s : State) : keeps 0 s (emit e s).
Proof. now apply keeps_same. Qed.

Lemma keeps_clearInterval (h : TimerId) (s : State) : keeps 0 s (clearInterval h s).
Proof.
  unfold keeps, load. split; [reflexivity|]. split.
  - pose proof (pending_bootstraps_clearInterval h s).
    assert (bootstraps_running (clearInterval h s) = bootstraps_running s)
      by reflexivity.
    lia.
  - intros Ho t Hin. apply Ho. unfold clearInterval in Hin. cbn in Hin.
    now apply filter_In in Hin.
Qed.

Lemma keeps_clear_if_set (h : option TimerId) (s : State) : keeps 0 s (clear_if_set h s).
Proof. destruct h; [apply keeps_clearInterval | apply keeps_refl]. Qed.

Lemma keeps_setTimeout (cb : Callback) (delay : Z) (s : State) :
  keeps (if is_CbStartBot cb then 1 else 0) s (snd (setTimeout cb delay s)).
Proof.
  unfold keeps, load, pending_bootstraps, bootstraps_running. cbn.
  split; [reflexivity|]. split.
  - rewrite filter_app, length_app. cbn. destruct (is_CbStartBot cb); cbn; lia.
  - intros Ho t Hin Hcb. apply in_app_or in Hin. destruct Hin as [Hin|[<-|[]]].
    + now apply Ho.
    + reflexivity.
Qed.

Lemma keeps_setInterval (cb : Callback) (delay : Z) (s : State) :
  is_CbStartBot cb = false ->
  keeps 0 s (snd (setInterval cb delay s)).
Proof.
  intros Hcb. unfold keeps, load, pending_bootstraps, bootstraps_running. cbn.
  split; [reflexivity|]. split.
  - rewrite filter_app, length_app. cbn. rewrite Hcb. cbn. lia.
  - intros Ho t Hin Ht. apply in_app_or in Hin. destruct Hin as [Hin|[<-|[]]].
    + now apply Ho.
    + cbn in Ht. congruence.
Qed.

Lemma keeps_spawn (t : Task) (s : State) :
  keeps (if is_boot t then 1 else 0) s (snd (spawn t s)).
Proof.
  unfold keeps, load, pending_bootstraps, bootstraps_running. cbn.
  split; [reflexivity|]. split; [|auto].
  rewrite filter_app, length_app. cbn. destruct (is_boot t); cbn; lia.
Qed.

(** Removing the entries of [k] from the task table. *)
Lemma running_without (k : TaskId) (ts : list (TaskId * Task)) :
  (List.length (filter (fun p => is_boot (snd p))
                  (filter (fun p => negb (Nat.eqb (fst p) k)) ts))
   <= List.length (filter (fun p => is_boot (snd p)) ts))%nat.
Proof.
  induction ts as [|[k' t'] ts IH]; cbn; [lia|].
  destruct (Nat.eqb k' k); cbn; destruct (is_boot t'); cbn; lia.
Qed.

Lemma running_without_boot (k : TaskId) (t : Task) (ts : list (TaskId * Task)) :
  find (fun p => Nat.eqb (fst p) k) ts = Some (k, t) \/
  (exists k', find (fun p => Nat.eqb (fst p) k) ts = Some (k', t)) ->
  is_boot t = true ->
  (List.length (filter (fun p => is_boot (snd p))
                  (filter (fun p => negb (Nat.eqb (fst p) k)) ts)) + 1
   <= List.length (filter (fun p => is_boot (snd p)) ts))%nat.
Proof.
  intros Hf Hb.
  assert (Hf' : exists k', find (fun p => Nat.eqb (fst p) k) ts = Some (k', t)).
  { destruct Hf as [Hf|Hf]; [now exists k | exact Hf]. }
  clear Hf. destruct Hf' as [k0 Hf].
  induction ts as [|[k' t'] ts IH]; cbn in *; [discriminate|].
  destruct (Nat.eqb k' k) eqn:E; cbn.
  - injection Hf as -> ->. rewrite Hb. cbn.
    pose proof (running_without k ts). lia.
  - specialize (IH Hf). destruct (is_boot t'); cbn; lia.
Qed.

Lemma find_task_found (k : TaskId) (t : Task) (s : State) :
  find_task k s = Some t ->
  exists k', find (fun p => Nat.eqb (fst p) k) (tasks s) = Some (k', t).
Proof.
  unfold find_task.
  destruct (find (fun p => Nat.eqb (fst p) k) (tasks s)) as [[k' t']|]; [|discriminate].
  intros [= ->]. now exists k'.
Qed.

Lemma keeps_drop_task (k : TaskId) (s : State) : keeps 0 s (drop_task k s).
Proof.
  unfold keeps, load, pending_bootstraps, bootstraps_running. cbn.
  split; [reflexivity|]. split; [|auto].
  pose proof (running_without k (tasks s)). lia.
Qed.

Lemma frees_drop_task (k : TaskId) (t : Task) (s : State) :
  find_task k s = Some t -> is_boot t = true -> frees s (drop_task k s).
Proof.
  intros Hf Hb. unfold frees, load, pending_bootstraps, bootstraps_running. cbn.
  split; [reflexivity|]. split; [|auto].
  pose proof (running_without_boot k t (tasks s) (or_intror (find_task_found k t s Hf)) Hb).
  lia.
Qed.

Lemma keeps_put_task (k : TaskId) (t t' : Task) (s : State) :
  find_task k s = Some t -> is_boot t = true -> keeps 0 s (put_task k t' s).
Proof.
  intros Hf Hb. unfold keeps, load, pending_bootstraps, bootstraps_running. cbn.
  split; [reflexivity|]. split; [|auto].
  rewrite filter_app, length_app. cbn.
  pose proof (running_without_boot k t (tasks s) (or_intror (find_task_found k t s Hf)) Hb).
  destruct (is_boot t'); cbn; lia.
Qed.

Lemma keeps_print (line : Console) (s : State) : keeps 0 s (print line s).
Proof. apply keeps_emit. Qed.

Lemma keeps_call (sock : SockId) (c : Call) (s : State) : keeps 0 s (call sock c s).
Proof. apply keeps_emit. Qed.

Lemma keeps_observeOnce (statusId : string) (s : State) :
  keeps 0 s (snd (observeOnce capacity statusId s)).
Proof.
  unfold observeOnce. destruct (JS.has statusId (viewedStatus s)); [apply keeps_refl|].
  cbn [snd].
  eapply (keeps_trans 0 0); [|apply (keeps_setTimeout (CbDeleteStatus statusId))].
  now apply keeps_same.
Qed.

Ltac keeps_step :=
  first [ apply keeps_refl
        | eapply (keeps_trans 0 0); [|apply keeps_print]
        | eapply (keeps_trans 0 0); [|apply keeps_call]
        | eapply (keeps_trans 0 0); [|apply keeps_emit] ].

Lemma keeps_handleStatusView (net : Net) (sock : SockId) (msg : Message) (s : State) :
  keeps 0 s (handleStatusView config capacity net sock msg s).
Proof.
  unfold handleStatusView.
  pose proof (keeps_observeOnce (key_id (key msg)) s) as H.
  destruct (observeOnce capacity (key_id (key msg)) s) as [isNew o]. cbn [snd] in H.
  destruct isNew; cbn [negb]; [|exact H].
  destruct (JS.truthy_string (key_participant (key msg))); [|exact H].
  destruct (transport_ok net sock _).
  - destruct (if autoReactStatus config then _ else _).
    + destruct (transport_ok net sock _); repeat keeps_step; exact H.
    + repeat keeps_step; exact H.
  - repeat keeps_step; exact H.
Qed.

Lemma keeps_handleAntiDelete (net : Net) (sock : SockId) (msg : Message) (s : State) :
  keeps 0 s (handleAntiDelete config net sock msg s).
Proof.
  unfold handleAntiDelete.
  destruct (message msg) as [content|]; [|apply keeps_refl].
  destruct (protocolMessage content) as [pm|]; [|apply keeps_refl].
  destruct (negb (Z.eqb (pm_type pm) 0)); [apply keeps_refl|].
  destruct (pm_key pm) as [deletedKey|]; [|repeat keeps_step].
  destruct (JS.truthy_string (key_remoteJid deletedKey)) as [deletedJid|];
    [|apply keeps_refl].
  destruct (String.eqb deletedJid "status@broadcast"); [apply keeps_refl|].
  destruct (transport_ok net sock _); repeat keeps_step.
Qed.

Lemma keeps_handleIncomingMessages (net : Net) (sock : SockId)
    (messages : list Message) (s : State) :
  keeps 0 s (handleIncomingMessages config capacity net sock messages s).
Proof.
  unfold handleIncomingMessages.
  destruct messages as [|msg rest]; [apply keeps_refl|].
  destruct (message msg); [|apply keeps_refl].
  assert (H : keeps 0 s
                (if (is_status_broadcast (key_remoteJid (key msg))
                     && autoViewStatus config)%bool
                 then handleStatusView config capacity net sock msg s else s)).
  { destruct (_ && _)%bool; [apply keeps_handleStatusView | apply keeps_refl]. }
  destruct (antiDelete config); [|exact H].
  eapply (keeps_trans 0 0); [exact H | apply keeps_handleAntiDelete].
Qed.

Lemma keeps_startPresenceUpdates (sock : SockId) (s : State) :
  keeps 0 s (startPresenceUpdates sock s).
Proof.
  unfold startPresenceUpdates, updatePresence.
  set (s1 := call sock SendPresenceUpdate (clear_if_set (presenceInterval s) s)).
  assert (H1 : keeps 0 s s1).
  { unfold s1. keeps_step. apply keeps_clear_if_set. }
  pose proof (keeps_setInterval (CbUpdatePresence sock) PRESENCE_UPDATE_INTERVAL s1 eq_refl)
    as H2.
  destruct (setInterval (CbUpdatePresence sock) PRESENCE_UPDATE_INTERVAL s1) as [h s2].
  cbn [snd] in H2.
  eapply (keeps_trans 0 0); [|apply keeps_same; reflexivity].
  eapply (keeps_trans 0 0); eassumption.
Qed.

Lemma keeps_startStatusSync (sock : SockId) (s : State) :
  keeps 0 s (startStatusSync config sock s).
Proof.
  unfold startStatusSync. destruct (negb (autoViewStatus config)); [apply keeps_refl|].
  set (s1 := clear_if_set (statusSyncInterval s) s).
  assert (H1 : keeps 0 s s1) by apply keeps_clear_if_set.
  pose proof (keeps_setInterval (CbStatusSync sock) STATUS_SYNC_INTERVAL s1 eq_refl) as H2.
  destruct (setInterval (CbStatusSync sock) STATUS_SYNC_INTERVAL s1) as [h s2].
  cbn [snd] in H2.
  eapply (keeps_trans 0 0); [|apply keeps_same; reflexivity].
  eapply (keeps_trans 0 0); eassumption.
Qed.

Lemma keeps_opened (sock : SockId) (s : State) :
  keeps 0 s (handleConnectionUpdate_opened config sock s).
Proof.
  unfold handleConnectionUpdate_opened.
  eapply (keeps_trans 0 0); [apply keeps_startPresenceUpdates | apply keeps_startStatusSync].
Qed.

Lemma keeps_statusSync_tick (net : Net) (sock : SockId) (s : State) :
  keeps 0 s (statusSync_tick net sock s).
Proof.
  unfold statusSync_tick. destruct (transport_ok net sock _); repeat keeps_step.
Qed.

Lemma keeps_startBot_catch (message : string) (s : State) :
  keeps 1 s (startBot_catch config message s).
Proof.
  unfold startBot_catch.
  eapply (keeps_trans 0 1); [|apply (keeps_setTimeout CbStartBot)].
  repeat keeps_step.
Qed.

Lemma keeps_startBot (s : State) : keeps 1 s (startBot config s).
Proof.
  unfold startBot. destruct (validateConfig config).
  - apply (keeps_spawn BootAuthState).
  - apply keeps_startBot_catch.
Qed.

Lemma keeps_intervals_cleared (s : State) : keeps 0 s (intervals_cleared s).
Proof.
  unfold intervals_cleared.
  eapply (keeps_trans 0 0); apply keeps_clear_if_set.
Qed.

(** *** Pairing and bootstrap activations *)

Lemma outcome_getPairingCode (k : TaskId) (sock : SockId) (t : Task) (s : State) :
  find_task k s = Some t -> is_boot t = true ->
  outcome_keeps k s (getPairingCode config k sock s).
Proof.
  intros Hf Hb. unfold getPairingCode, outcome_keeps.
  eapply (keeps_trans 0 0); [|eapply keeps_put_task; [exact Hf | exact Hb]].
  eapply (keeps_trans 0 0); [apply keeps_print | apply (keeps_setTimeout (CbResolve k))].
Qed.

Lemma outcome_getPairingCode_catch (k : TaskId) (sock : SockId) (message : string)
    (t : Task) (s : State) :
  find_task k s = Some t -> is_boot t = true ->
  outcome_keeps k s (getPairingCode_catch k sock message s).
Proof.
  intros Hf Hb. unfold getPairingCode_catch.
  destruct (Z.ltb (retryAttempts (print (LogPairingError message) s)) MAX_RETRY_ATTEMPTS).
  - unfold outcome_keeps.
    eapply (keeps_trans 0 0); [|eapply keeps_put_task; [exact Hf | exact Hb]].
    eapply (keeps_trans 0 0); [|apply (keeps_setTimeout (CbResolve k))].
    eapply (keeps_trans 0 0); [|apply keeps_print].
    now apply keeps_same.
  - split; [apply keeps_print | reflexivity].
Qed.

Lemma outcome_getPairingCode_resume (k : TaskId) (sock : SockId) (at_ : PairingPoint)
    (w : Wake) (t : Task) (s : State) (o : Outcome) :
  find_task k s = Some t -> is_boot t = true ->
  getPairingCode_resume config k sock at_ w s = Some o ->
  outcome_keeps k s o.
Proof.
  intros Hf Hb. unfold getPairingCode_resume.
  destruct at_ as [| |phoneNumber|]; destruct w as [|[[|answer|]|message]];
    try discriminate.
  - intros [= <-]. unfold outcome_keeps.
    eapply (keeps_trans 0 0); [apply keeps_emit|].
    eapply keeps_put_task; [exact Hf | exact Hb].
  - destruct (negb (valid_phone (formatPhoneNumber answer))); intros [= <-].
    + eapply outcome_getPairingCode_catch; eassumption.
    + unfold outcome_keeps.
      eapply (keeps_trans 0 0); [apply keeps_call|].
      eapply keeps_put_task; [exact Hf | exact Hb].
  - intros [= <-]. split; [|reflexivity]. now apply keeps_same.
  - intros [= <-]. eapply outcome_getPairingCode_catch; eassumption.
  - intros [= <-]. eapply outcome_getPairingCode; eassumption.
Qed.

Lemma moved_keeps (s s' : State) : keeps 0 s s' -> moved s s'.
Proof. now left. Qed.

(** Attaching the listeners once the activation is over. *)
Lemma moved_listen (k : TaskId) (sock : SockId) (t : Task) (s s1 : State) :
  keeps 0 s s1 -> find_task k s1 = Some t -> is_boot t = true ->
  moved s (startBot_listen sock (drop_task k s1)).
Proof.
  intros (Hl & Hd & Ho) Hf Hb. right. exists sock.
  destruct (frees_drop_task k t s1 Hf Hb) as (Hl2 & Hd2 & Ho2).
  assert (E : load (startBot_listen sock (drop_task k s1)) = load (drop_task k s1))
    by reflexivity.
  split; [|split].
  - change (listening (startBot_listen sock (drop_task k s1)))
      with (listening (drop_task k s1) ++ [sock]).
    congruence.
  - lia.
  - intros H u Hu. apply (Ho2 (Ho H)). exact Hu.
Qed.

(** Reporting the failure once the activation is over. *)
Lemma moved_catch (k : TaskId) (message : string) (t : Task) (s s1 : State) :
  keeps 0 s s1 -> find_task k s1 = Some t -> is_boot t = true ->
  moved s (startBot_catch config message (drop_task k s1)).
Proof.
  intros Hk Hf Hb. left.
  eapply (keeps_trans 0 0); [exact Hk|].
  eapply frees_keeps; [eapply frees_drop_task; eassumption | apply keeps_startBot_catch].
Qed.

Lemma moved_startBot_paired (k : TaskId) (sock : SockId) (t : Task) (s : State)
    (o : Outcome) :
  find_task k s = Some t -> is_boot t = true ->
  outcome_keeps k s o ->
  moved s (startBot_paired config k sock o).
Proof.
  intros Hf Hb Ho. destruct o as [s'|s'|message s']; cbn in *.
  - now left.
  - destruct Ho as [Hk Hs].
    eapply moved_listen; [exact Hk | rewrite Hs; exact Hf | exact Hb].
  - destruct Ho as [Hk Hs].
    eapply moved_catch; [exact Hk | rewrite Hs; exact Hf | exact Hb].
Qed.

Lemma moved_startBot_connect (net : Net) (k : TaskId) (registered : bool) (t : Task)
    (s : State) :
  find_task k s = Some t -> is_boot t = true ->
  moved s (startBot_connect config net k registered s).
Proof.
  intros Hf Hb. unfold startBot_connect. cbv zeta.
  destruct (negb (construct_ok net)).
  - eapply moved_catch; [apply keeps_refl | exact Hf | exact Hb].
  - set (s1 := emit (MakeSocket (sockets s)) (with_sockets (S (sockets s)) s)).
    assert (H1 : keeps 0 s s1).
    { unfold s1. eapply (keeps_trans 0 0); [|apply keeps_emit]. now apply keeps_same. }
    assert (Hf1 : find_task k s1 = Some t) by exact Hf.
    destruct (negb registered).
    + pose proof (moved_startBot_paired k (sockets s) t s1 _ Hf1 Hb
                    (outcome_getPairingCode k (sockets s) t s1 Hf1 Hb)) as Hm.
      destruct H1 as (Hl1 & Hd1 & Ho1).
      destruct Hm as [(Hl & Hd & Ho)|(sock & Hl & Hd & Ho)].
      * left. split; [congruence | split; [lia | auto]].
      * right. exists sock. split; [congruence | split; [lia | auto]].
    + eapply moved_listen; [exact H1 | exact Hf1 | exact Hb].
Qed.

Lemma moved_resume (net : Net) (k : TaskId) (t : Task) (w : Wake) (s s' : State) :
  find_task k s = Some t ->
  resume config net k t w s = Some s' ->
  moved s s'.
Proof.
  intros Hf. unfold resume.
  destruct t as [|registered|sock at_|sock|sock].
  - destruct w as [|[[| |registered]|message]]; try discriminate; intros [= <-].
    + left. eapply keeps_put_task; [exact Hf | reflexivity].
    + eapply moved_catch; [apply keeps_refl | exact Hf | reflexivity].
  - destruct w as [|[v|message]]; try discriminate; intros [= <-].
    + eapply moved_startBot_connect; [exact Hf | reflexivity].
    + eapply moved_catch; [apply keeps_refl | exact Hf | reflexivity].
  - destruct (getPairingCode_resume config k sock at_ w s) as [o|] eqn:E;
      [|discriminate].
    intros [= <-]. eapply moved_startBot_paired; [exact Hf | reflexivity |].
    eapply outcome_getPairingCode_resume; [exact Hf | reflexivity | exact E].
  - destruct w as [|r]; try discriminate; intros [= <-]. left.
    eapply (keeps_trans 0 0); [|apply keeps_opened].
    eapply (keeps_trans 0 0); [apply keeps_drop_task|].
    unfold initializeStatusViewing_settled. destruct r; apply keeps_print.
  - destruct w as [|[[| |]|]]; try discriminate; intros [= <-]. left.
    eapply (keeps_trans 0 0); [apply keeps_drop_task | apply keeps_opened].
Qed.

(** *** Turns of the event loop *)

Lemma keeps_moved (s s1 s2 : State) : keeps 0 s s1 -> moved s1 s2 -> moved s s2.
Proof.
  intros (Hl1 & Hd1 & Ho1) [(Hl & Hd & Ho)|(sock & Hl & Hd & Ho)].
  - left. split; [congruence | split; [lia | auto]].
  - right. exists sock. split; [congruence | split; [lia | auto]].
Qed.

Lemma keeps_rearm (t : Timer) (s : State) : keeps 0 s (rearm t s).
Proof.
  unfold rearm. destruct (t_every t) as [period|]; [|apply keeps_clearInterval].
  unfold keeps, load, pending_bootstraps, bootstraps_running, oneshot_bootstraps. cbn.
  split; [reflexivity|]. split.
  - induction (timers s) as [|u ts IH]; cbn in *; [lia|].
    destruct (Nat.eqb (t_id u) (t_id t)); cbn;
      destruct (is_CbStartBot (t_callback u)); cbn; lia.
  - intros Ho u Hu. apply in_map_iff in Hu. destruct Hu as (v & <- & Hv).
    specialize (Ho v Hv). destruct (Nat.eqb (t_id v) (t_id t)); cbn; auto.
Qed.

Lemma find_timer_In (h : TimerId) (t : Timer) (s : State) :
  find_timer h s = Some t -> In t (timers s) /\ t_id t = h.
Proof.
  unfold find_timer. intros H. apply find_some in H.
  destruct H as [Hin He]. split; [assumption | now apply Nat.eqb_eq].
Qed.

Lemma pending_without (t : Timer) (ts : list Timer) :
  In t ts -> is_CbStartBot (t_callback t) = true ->
  (List.length (filter (fun u => is_CbStartBot (t_callback u))
                  (filter (fun u => negb (Nat.eqb (t_id u) (t_id t))) ts)) + 1
   <= List.length (filter (fun u => is_CbStartBot (t_callback u)) ts))%nat.
Proof.
  intros Hin Hcb. induction ts as [|u ts IH]; [destruct Hin|].
  cbn. destruct Hin as [->|Hin].
  - rewrite Nat.eqb_refl, Hcb. cbn.
    pose proof (pending_bootstraps_clearInterval (t_id t)
                  (with_timers ts fresh)) as H.
    unfold pending_bootstraps, clearInterval in H. cbn in H. lia.
  - specialize (IH Hin).
    destruct (Nat.eqb (t_id u) (t_id t)); cbn;
      destruct (is_CbStartBot (t_callback u)); cbn; lia.
Qed.

(** A restart timer that fires leaves the table. *)
Lemma frees_rearm (h : TimerId) (t : Timer) (s : State) :
  oneshot_bootstraps s ->
  find_timer h s = Some t -> is_CbStartBot (t_callback t) = true ->
  frees s (rearm t s).
Proof.
  intros Ho Hf Hcb. destruct (find_timer_In h t s Hf) as [Hin _].
  unfold rearm. rewrite (Ho t Hin Hcb).
  destruct (keeps_clearInterval (t_id t) s) as (Hl & _ & Hos).
  split; [exact Hl|]. split; [|exact Hos].
  unfold load, pending_bootstraps, bootstraps_running, clearInterval. cbn.
  pose proof (pending_without t (timers s) Hin Hcb). lia.
Qed.

Lemma tasks_rearm (t : Timer) (s : State) : tasks (rearm t s) = tasks s.
Proof. unfold rearm. now destruct (t_every t). Qed.

Lemma moved_run_callback (net : Net) (h : TimerId) (t : Timer) (s s' : State) :
  oneshot_bootstraps s ->
  find_timer h s = Some t ->
  run_callback config net (t_callback t) (rearm t s) = Some s' ->
  moved s s'.
Proof.
  intros Ho Hf. destruct (t_callback t) as [|statusId|sock|sock|k] eqn:Ecb; cbn.
  - intros [= <-]. left.
    eapply frees_keeps; [|apply keeps_startBot].
    eapply frees_rearm; [exact Ho | exact Hf | now rewrite Ecb].
  - intros [= <-]. left.
    eapply (keeps_trans 0 0); [apply keeps_rearm | now apply keeps_same].
  - intros [= <-]. left.
    eapply (keeps_trans 0 0); [apply keeps_rearm | apply keeps_call].
  - intros [= <-]. left.
    eapply (keeps_trans 0 0); [apply keeps_rearm | apply keeps_statusSync_tick].
  - destruct (find_task k (rearm t s)) as [task|] eqn:Et; [|discriminate].
    intros Hr. eapply keeps_moved; [apply keeps_rearm|].
    eapply moved_resume; eassumption.
Qed.

Lemma keeps_handleConnectionUpdate (update : Update) (sock : SockId) (s : State) :
  keeps (match connection update with Some ConnClose => 1 | _ => 0 end) s
    (handleConnectionUpdate config loggedOut update sock s).
Proof.
  unfold handleConnectionUpdate. destruct (connection update) as [[| |]|];
    try apply keeps_refl.
  - assert (Hc : keeps 0 s
                   (clear_if_set (statusSyncInterval (clear_if_set (presenceInterval s) s))
                      (clear_if_set (presenceInterval s) s))).
    { eapply (keeps_trans 0 0); apply keeps_clear_if_set. }
    destruct (shouldReconnect loggedOut (lastDisconnect update)).
    + eapply (keeps_trans 0 1); [|apply (keeps_setTimeout CbStartBot)].
      eapply (keeps_trans 0 0); [exact Hc | apply keeps_print].
    + apply (keeps_weaken 0 1); [lia|].
      eapply (keeps_trans 0 0); [|apply keeps_same; reflexivity].
      eapply (keeps_trans 0 0); [exact Hc | apply keeps_print].
  - unfold initializeStatusViewing.
    assert (H0 : keeps 0 s (with_retryAttempts 0 (print LogOnline s)))
      by now apply keeps_same.
    destruct (negb (autoViewStatus config)).
    + eapply (keeps_trans 0 0); [exact H0 | now apply (keeps_spawn (OpenYielded sock))].
    + eapply (keeps_trans 0 0); [|apply (keeps_spawn (OpenPriming sock))].
      eapply (keeps_trans 0 0); [exact H0 | apply keeps_call].
Qed.

(** A turn that is not a close notification on a listening socket. *)
Lemma moved_step (net : Net) (e : Event) (s s' : State) :
  oneshot_bootstraps s ->
  step config loggedOut capacity net e s = Some s' ->
  closes [(net, e)] = [] \/ (exists sock, closes [(net, e)] = [sock]
                                         /\ is_listening sock s = false)
  \/ exited s <> None ->
  moved s s'.
Proof.
  intros Ho. unfold step. destruct (exited s) as [code|] eqn:Ex.
  { intros [= <-] _. left. apply keeps_refl. }
  destruct e as [ms|h|k r|sock update|sock messages].
  - destruct (_ && _)%bool; [|discriminate]. intros [= <-] _. left.
    now apply keeps_same.
  - destruct (find_timer h s) as [t|] eqn:Ef; [|discriminate].
    destruct (Z.leb (t_due t) (clock s)); [|discriminate].
    intros Hr _. eapply moved_run_callback; eassumption.
  - destruct (find_task k s) as [t|] eqn:Ef; [|discriminate].
    intros Hr _. eapply moved_resume; eassumption.
  - destruct (is_listening sock s) eqn:El; intros [= <-] Hc.
    + left. pose proof (keeps_handleConnectionUpdate update sock s) as Hk.
      cbn in Hc. destruct (connection update) as [[| |]|]; try exact Hk.
      cbn in Hc. destruct Hc as [Hc|[(sock' & Hs & Hc)|Hc]]; [discriminate| |congruence].
      injection Hs as <-. congruence.
    + left. apply keeps_refl.
  - destruct (is_listening sock s); intros [= <-] _; left;
      [apply keeps_handleIncomingMessages | apply keeps_refl].
Qed.

(** *** Live handles *)

Lemma is_closed_app (c d : list SockId) (sock : SockId) :
  is_closed (c ++ d) sock = (is_closed c sock || is_closed d sock)%bool.
Proof. unfold is_closed. apply existsb_app. Qed.

Lemma live_same (c : list SockId) (s s' : State) :
  listening s' = listening s -> live_handles c s' = live_handles c s.
Proof. unfold live_handles. now intros ->. Qed.

Lemma live_more_closed (c d : list SockId) (s : State) :
  (live_handles (c ++ d) s <= live_handles c s)%nat.
Proof.
  unfold live_handles. induction (listening s) as [|x l IH]; cbn; [lia|].
  rewrite is_closed_app. destruct (is_closed c x), (is_closed d x); cbn; lia.
Qed.

Lemma live_listen (c : list SockId) (sock : SockId) (s s' : State) :
  listening s' = listening s ++ [sock] ->
  (live_handles c s' <= live_handles c s + 1)%nat.
Proof.
  unfold live_handles. intros ->. rewrite filter_app, length_app. cbn.
  destruct (negb (is_closed c sock)); cbn; lia.
Qed.

(** A listening socket that closes for the first time is one live handle
    less. *)
Lemma live_close (c : list SockId) (sock : SockId) (s : State) :
  is_listening sock s = true -> is_closed c sock = false ->
  (live_handles (c ++ [sock]) s + 1 <= live_handles c s)%nat.
Proof.
  unfold live_handles, is_listening. intros Hl Hc.
  induction (listening s) as [|x l IH]; cbn in *; [discriminate|].
  rewrite is_closed_app.
  destruct (Nat.eqb_spec sock x) as [<-|Hn].
  - rewrite Hc. unfold is_closed at 2. cbn. rewrite Nat.eqb_refl. cbn.
    pose proof (live_more_closed c [sock] (with_listening l fresh)) as H.
    unfold live_handles in H. cbn in H. lia.
  - cbn in Hl. specialize (IH Hl).
    destruct (is_closed c x), (is_closed [sock] x); cbn; lia.
Qed.

Lemma in_flight_moved (c d : list SockId) (s s' : State) :
  moved s s' -> (in_flight (c ++ d) s' <= in_flight c s)%nat.
Proof.
  unfold in_flight. pose proof (live_more_closed c d s') as Hm.
  intros [(Hl & Hd & _)|(sock & Hl & Hd & _)].
  - rewrite (live_same c s s' Hl) in Hm. lia.
  - pose proof (live_listen c sock s s' Hl). lia.
Qed.

Lemma oneshot_moved (s s' : State) :
  moved s s' -> oneshot_bootstraps s -> oneshot_bootstraps s'.
Proof. intros [(_ & _ & Ho)|(sock & _ & _ & Ho)]; exact Ho. Qed.

(** One turn of the loop adds to what is in flight only when it delivers
    the close of a socket that has closed before, and then one at most. *)
Lemma in_flight_step (c : list SockId) (net : Net) (e : Event) (s s' : State) :
  oneshot_bootstraps s ->
  step config loggedOut capacity net e s = Some s' ->
  (in_flight (c ++ closes [(net, e)]) s'
   <= in_flight c s + repeated c (closes [(net, e)]))%nat
  /\ oneshot_bootstraps s'.
Proof.
  intros Ho Hs.
  destruct (closes [(net, e)]) as [|sock rest] eqn:Ec.
  { assert (Hm : moved s s').
    { eapply moved_step; [exact Ho | exact Hs | left; exact Ec]. }
    split; [|now apply (oneshot_moved s s')].
    pose proof (in_flight_moved c [] s s' Hm). cbn [repeated]. lia. }
  assert (He : exists update, e = ConnectionUpdate sock update
                              /\ connection update = Some ConnClose /\ rest = []).
  { destruct e as [ms|h|k r|sock' update|sock' messages]; try discriminate.
    cbn in Ec. destruct (connection update) as [[| |]|] eqn:Eu; try discriminate.
    injection Ec as <- <-. now exists update. }
  destruct He as (update & -> & Hu & ->). cbn [repeated].
  destruct (exited s) as [code|] eqn:Ex.
  { assert (Hm : moved s s').
    { eapply moved_step; [exact Ho | exact Hs | right; right; congruence]. }
    split; [|now apply (oneshot_moved s s')].
    pose proof (in_flight_moved c [sock] s s' Hm). lia. }
  destruct (is_listening sock s) eqn:El.
  - unfold step in Hs. rewrite Ex, El in Hs. injection Hs as <-.
    pose proof (keeps_handleConnectionUpdate update sock s) as Hk.
    rewrite Hu in Hk. destruct Hk as (Hl & Hd & Hos).
    split; [|auto]. unfold in_flight.
    rewrite (live_same (c ++ [sock]) s _ Hl).
    destruct (is_closed c sock) eqn:Hc.
    + pose proof (live_more_closed c [sock] s). lia.
    + pose proof (live_close c sock s El Hc). lia.
  - assert (Hm : moved s s').
    { eapply moved_step; [exact Ho | exact Hs |].
      right; left. exists sock. split; [exact Ec | exact El]. }
    split; [|now apply (oneshot_moved s s')].
    pose proof (in_flight_moved c [sock] s s' Hm). lia.
Qed.

Lemma is_closed_false (c : list SockId) (sock : SockId) :
  ~ In sock c -> is_closed c sock = false.
Proof.
  intros H. unfold is_closed. destruct (existsb (Nat.eqb sock) c) eqn:E; [|reflexivity].
  apply existsb_exists in E. destruct E as (x & Hx & He).
  apply Nat.eqb_eq in He. subst. contradiction.
Qed.

Lemma NoDup_app_disjoint (l1 l2 : list SockId) (a : SockId) :
  NoDup (l1 ++ l2) -> In a l1 -> ~ In a l2.
Proof.
  induction l1 as [|x l1 IH]; cbn; [tauto|].
  intros Hnd [->|Hin] H2.
  - inversion Hnd as [|? ? Hx _]; subst. apply Hx. apply in_or_app. now right.
  - inversion Hnd; subst. now apply IH.
Qed.

Lemma closes_cons (x : Net * Event) (evs : list (Net * Event)) :
  closes (x :: evs) = closes [x] ++ closes evs.
Proof. unfold closes. cbn. now rewrite app_nil_r. Qed.

Lemma repeated_app (l1 l2 : list SockId) :
  forall c, repeated c (l1 ++ l2) = (repeated c l1 + repeated (c ++ l1) l2)%nat.
Proof.
  induction l1 as [|x l1 IH]; intros c; cbn [app repeated].
  - now rewrite app_nil_r.
  - rewrite IH, <- app_assoc. cbn [app]. lia.
Qed.

(** Without a repeated close there is nothing to add. *)
Lemma repeated_NoDup (l : list SockId) :
  forall c, NoDup (c ++ l) -> repeated c l = O.
Proof.
  induction l as [|x l IH]; intros c Hnd; cbn [repeated]; [reflexivity|].
  rewrite (is_closed_false c x).
  - rewrite IH; [reflexivity|]. now rewrite <- app_assoc.
  - intros Hc. apply NoDup_remove_2 in Hnd. apply Hnd. apply in_or_app. now left.
Qed.

Lemma in_flight_run (evs : list (Net * Event)) :
  forall (c : list SockId) (s s' : State),
    oneshot_bootstraps s ->
    run config loggedOut capacity evs s = Some s' ->
    (in_flight (c ++ closes evs) s' <= in_flight c s + repeated c (closes evs))%nat.
Proof.
  induction evs as [|[net e] evs IH]; intros c s s' Ho Hr.
  - cbn in *. injection Hr as <-. rewrite app_nil_r. lia.
  - cbn [run] in Hr.
    destruct (step config loggedOut capacity net e s) as [s1|] eqn:Es; [|discriminate].
    rewrite closes_cons, repeated_app, app_assoc.
    destruct (in_flight_step c net e s s1 Ho Es) as [H1 Ho1].
    specialize (IH (c ++ closes [(net, e)]) s1 s' Ho1 Hr). lia.
Qed.

End InFlight.

(** ** Session handles *)

Section Handles.

Variable config : Config.
Variable loggedOut : Z.
Variable capacity : nat.

(** *** Changes that leave the handles alone *)

Lemma same_handles_refl (s : State) : same_handles s s.
Proof. unfold same_handles. repeat split; lia. Qed.

Lemma same_handles_trans (s1 s2 s3 : State) :
  same_handles s1 s2 -> same_handles s2 s3 -> same_handles s1 s3.
Proof.
  intros (A1 & A2 & A3 & A4 & A5) (B1 & B2 & B3 & B4 & B5).
  unfold same_handles. repeat split; try congruence. lia.
Qed.

Lemma same_handles_added (added : list (Z * Effect)) (s s' : State) :
  sockets s' = sockets s -> listening s' = listening s -> tasks s' = tasks s ->
  nextTask s' = nextTask s -> effects s' = effects s ++ added ->
  same_handles s s'.
Proof.
  intros H1 H2 H3 H4 H5. unfold same_handles, exhausted_pairings.
  repeat split; try assumption. rewrite H5, filter_app, length_app. lia.
Qed.

Lemma same_handles_fields (s s' : State) :
  sockets s' = sockets s -> listening s' = listening s -> tasks s' = tasks s ->
  nextTask s' = nextTask s -> effects s' = effects s ->
  same_handles s s'.
Proof.
  intros H1 H2 H3 H4 H5. apply (same_handles_added []); try assumption.
  now rewrite app_nil_r.
Qed.

Lemma same_handles_emit (e : Effect) (s : State) : same_handles s (emit e s).
Proof. now apply (same_handles_added [(clock s, e)]). Qed.

Lemma same_handles_clear_if_set (h : option TimerId) (s : State) :
  same_handles s (clear_if_set h s).
Proof. destruct h; now apply same_handles_fields. Qed.

Ltac sh_fields := apply same_handles_fields; reflexivity.

Ltac sh :=
  lazymatch goal with
  | |- same_handles ?s ?s => apply same_handles_refl
  | |- same_handles ?s (print ?l ?x) =>
      apply (same_handles_trans s x); [|apply same_handles_emit]
  | |- same_handles ?s (call ?k ?c ?x) =>
      apply (same_handles_trans s x); [|apply same_handles_emit]
  | |- same_handles ?s (emit ?e ?x) =>
      apply (same_handles_trans s x); [|apply same_handles_emit]
  | |- same_handles ?s (snd (setTimeout ?cb ?d ?x)) =>
      apply (same_handles_trans s x); [|sh_fields]
  | |- same_handles ?s (snd (setInterval ?cb ?d ?x)) =>
      apply (same_handles_trans s x); [|sh_fields]
  | |- same_handles ?s (clear_if_set ?h ?x) =>
      apply (same_handles_trans s x); [|apply same_handles_clear_if_set]
  | |- same_handles ?s (with_retryAttempts ?v ?x) =>
      apply (same_handles_trans s x); [|sh_fields]
  | |- same_handles ?s (with_exited ?v ?x) =>
      apply (same_handles_trans s x); [|sh_fields]
  | |- same_handles ?s (with_viewedStatus ?v ?x) =>
      apply (same_handles_trans s x); [|sh_fields]
  | |- same_handles ?s (with_presenceInterval ?v ?x) =>
      apply (same_handles_trans s x); [|sh_fields]
  | |- same_handles ?s (with_statusSyncInterval ?v ?x) =>
      apply (same_handles_trans s x); [|sh_fields]
  | |- same_handles ?s (if ?c then _ else _) => destruct c
  | |- same_handles ?s (match ?c with _ => _ end) => destruct c
  end.

Lemma same_handles_handleStatusView (net : Net) (sock : SockId) (msg : Message)
    (s : State) :
  same_handles s (handleStatusView config capacity net sock msg s).
Proof.
  unfold handleStatusView.
  assert (H : same_handles s (snd (observeOnce capacity (key_id (key msg)) s))).
  { unfold observeOnce. destruct (JS.has _ _); cbn [snd]; [apply same_handles_refl|].
    sh_fields. }
  destruct (observeOnce capacity (key_id (key msg)) s) as [isNew o]. cbn [snd] in H.
  destruct isNew; cbn [negb]; [|exact H].
  repeat sh; exact H.
Qed.

Lemma same_handles_handleAntiDelete (net : Net) (sock : SockId) (msg : Message)
    (s : State) :
  same_handles s (handleAntiDelete config net sock msg s).
Proof. unfold handleAntiDelete. repeat sh. Qed.

Lemma same_handles_handleIncomingMessages (net : Net) (sock : SockId)
    (messages : list Message) (s : State) :
  same_handles s (handleIncomingMessages config capacity net sock messages s).
Proof.
  unfold handleIncomingMessages.
  destruct messages as [|msg rest]; [apply same_handles_refl|].
  destruct (message msg); [|apply same_handles_refl].
  assert (H : same_handles s
                (if (is_status_broadcast (key_remoteJid (key msg))
                     && autoViewStatus config)%bool
                 then handleStatusView config capacity net sock msg s else s)).
  { destruct (_ && _)%bool;
      [apply same_handles_handleStatusView | apply same_handles_refl]. }
  destruct (antiDelete config); [|exact H].
  eapply same_handles_trans; [exact H | apply same_handles_handleAntiDelete].
Qed.

Lemma same_handles_startPresenceUpdates (sock : SockId) (s : State) :
  same_handles s (startPresenceUpdates sock s).
Proof.
  change (startPresenceUpdates sock s)
    with (with_presenceInterval
            (Some (nextTimer (updatePresence sock (clear_if_set (presenceInterval s) s))))
            (snd (setInterval (CbUpdatePresence sock) PRESENCE_UPDATE_INTERVAL
                    (updatePresence sock (clear_if_set (presenceInterval s) s))))).
  unfold updatePresence. repeat sh.
Qed.

Lemma same_handles_startStatusSync (sock : SockId) (s : State) :
  same_handles s (startStatusSync config sock s).
Proof.
  unfold startStatusSync.
  destruct (negb (autoViewStatus config)); [apply same_handles_refl|].
  change (same_handles s
            (with_statusSyncInterval
               (Some (nextTimer (clear_if_set (statusSyncInterval s) s)))
               (snd (setInterval (CbStatusSync sock) STATUS_SYNC_INTERVAL
                       (clear_if_set (statusSyncInterval s) s))))).
  repeat sh.
Qed.

Lemma same_handles_opened (sock : SockId) (s : State) :
  same_handles s (handleConnectionUpdate_opened config sock s).
Proof.
  unfold handleConnectionUpdate_opened.
  eapply same_handles_trans;
    [apply same_handles_startPresenceUpdates | apply same_handles_startStatusSync].
Qed.

Lemma same_handles_startBot_catch (message : string) (s : State) :
  same_handles s (startBot_catch config message s).
Proof. unfold startBot_catch. cbv zeta. repeat sh. Qed.

Lemma same_handles_rearm (t : Timer) (s : State) : same_handles s (rearm t s).
Proof. unfold rearm. destruct (t_every t); sh_fields. Qed.

Lemma same_handles_find (k : TaskId) (s s' : State) :
  same_handles s s' -> find_task k s' = find_task k s.
Proof. intros (_ & _ & Ht & _). unfold find_task. now rewrite Ht. Qed.

(** *** What pairing does to the handles *)

Lemma outcome_handles_catch (k : TaskId) (sock : SockId) (message : string)
    (s : State) :
  outcome_handles k sock s (getPairingCode_catch k sock message s).
Proof.
  unfold getPairingCode_catch. cbv zeta. destruct (Z.ltb _ _); cbn [outcome_handles].
  - eexists. exists BackingOff. split; [|reflexivity]. repeat sh.
  - split; [reflexivity|]. repeat sh.
Qed.

Lemma outcome_handles_getPairingCode (k : TaskId) (sock : SockId) (s : State) :
  outcome_handles k sock s (getPairingCode config k sock s).
Proof.
  unfold getPairingCode. cbv zeta. cbn [outcome_handles].
  eexists. exists Stabilizing. split; [|reflexivity]. repeat sh.
Qed.

Lemma outcome_handles_resume (k : TaskId) (sock : SockId) (at_ : PairingPoint)
    (w : Wake) (s : State) (o : Outcome) :
  getPairingCode_resume config k sock at_ w s = Some o ->
  outcome_handles k sock s o.
Proof.
  unfold getPairingCode_resume.
  destruct at_ as [| |phoneNumber|]; destruct w as [|[[|answer|]|message]];
    try discriminate.
  - intros [= <-]. cbn [outcome_handles]. eexists. exists Prompting.
    split; [|reflexivity]. repeat sh.
  - destruct (negb (valid_phone (formatPhoneNumber answer))); intros [= <-].
    + apply outcome_handles_catch.
    + cbn [outcome_handles]. eexists. exists (Requesting (formatPhoneNumber answer)).
      split; [|reflexivity]. repeat sh.
  - intros [= <-]. cbn [outcome_handles]. repeat sh.
  - intros [= <-]. apply outcome_handles_catch.
  - intros [= <-]. apply outcome_handles_getPairingCode.
Qed.

(** *** Lists of activations and of handles *)

Lemma filter_key_absent (k : TaskId) (ts : list (TaskId * Task)) :
  ~ In k (map fst ts) -> filter (fun p => negb (Nat.eqb (fst p) k)) ts = ts.
Proof.
  induction ts as [|p ts IH]; cbn; [reflexivity|]. intros H.
  destruct (Nat.eqb_spec (fst p) k) as [E|E]; cbn.
  - exfalso. apply H. now left.
  - rewrite IH; [reflexivity|]. intros Hin. apply H. now right.
Qed.

Lemma key_absent_filter (k : TaskId) (ts : list (TaskId * Task)) :
  ~ In k (map fst (filter (fun p => negb (Nat.eqb (fst p) k)) ts)).
Proof.
  intros H. apply in_map_iff in H. destruct H as (p & Hk & Hin).
  apply filter_In in Hin. destruct Hin as [_ Hne].
  apply negb_true_iff, Nat.eqb_neq in Hne. contradiction.
Qed.

Lemma NoDup_keys_filter (f : TaskId * Task -> bool) (ts : list (TaskId * Task)) :
  NoDup (map fst ts) -> NoDup (map fst (filter f ts)).
Proof.
  induction ts as [|p ts IH]; cbn; [trivial|]. intros H.
  inversion H as [|? ? Hn Hd]; subst. destruct (f p); cbn; [|now apply IH].
  constructor; [|now apply IH]. intros Hin. apply Hn.
  apply in_map_iff in Hin. destruct Hin as (q & Hq & Hin).
  apply filter_In in Hin. apply in_map_iff. exists q. tauto.
Qed.

Lemma NoDup_add_last (A : Type) (l : list A) (x : A) :
  NoDup l -> ~ In x l -> NoDup (l ++ [x]).
Proof.
  induction l as [|y l IH]; cbn; intros Hd Hn.
  - constructor; [intros []|constructor].
  - inversion Hd as [|? ? Hy Hl]; subst. constructor.
    + intros Hin. apply in_app_or in Hin. destruct Hin as [Hin|[->|[]]]; tauto.
    + apply IH; tauto.
Qed.

(** Dropping the entries of [k] takes away the activation found under [k]
    and nothing else. *)
Lemma pairing_without (k k' : TaskId) (t : Task) (ts : list (TaskId * Task)) :
  NoDup (map fst ts) ->
  find (fun p => Nat.eqb (fst p) k) ts = Some (k', t) ->
  (List.length (filter (fun p => is_pairing (snd p)) ts)
   <= List.length (filter (fun p => is_pairing (snd p))
                     (filter (fun p => negb (Nat.eqb (fst p) k)) ts))
      + (if is_pairing t then 1 else 0))%nat.
Proof.
  induction ts as [|p ts IH]; cbn; [discriminate|]. intros Hd.
  inversion Hd as [|? ? Hn Hd']; subst.
  destruct (Nat.eqb_spec (fst p) k) as [E|E]; cbn.
  - intros [= ->]. cbn. rewrite filter_key_absent by (now rewrite <- E).
    destruct (is_pairing t); cbn; lia.
  - intros Hf. specialize (IH Hd' Hf). destruct (is_pairing (snd p)); cbn; lia.
Qed.

Lemma filter_remove_one (f : nat -> bool) (a : nat) (l : list nat) :
  NoDup l -> In a l -> f a = true ->
  (List.length (filter (fun x => f x && negb (Nat.eqb x a))%bool l) + 1
   = List.length (filter f l))%nat.
Proof.
  induction l as [|x l IH]; cbn; [tauto|]. intros Hd Hin Hf.
  inversion Hd as [|? ? Hn Hd']; subst.
  destruct (Nat.eqb_spec x a) as [->|E].
  - rewrite Hf. cbn. f_equal.
    rewrite (filter_ext_in (fun x => f x && negb (Nat.eqb x a))%bool f); [lia|].
    intros y Hy. destruct (Nat.eqb_spec y a) as [->|_]; [contradiction|].
    now rewrite andb_true_r.
  - destruct Hin as [->|Hin]; [contradiction|]. specialize (IH Hd' Hin Hf).
    rewrite andb_true_r. destruct (f x); cbn; lia.
Qed.

Lemma is_listening_In (sock : SockId) (s : State) :
  is_listening sock s = true <-> In sock (listening s).
Proof.
  unfold is_listening. rewrite existsb_exists. split.
  - intros (x & Hin & E). apply Nat.eqb_eq in E. now subst.
  - intros Hin. exists sock. split; [exact Hin | apply Nat.eqb_refl].
Qed.

(** *** The bookkeeping is kept *)

Lemma accounted_same (d : nat) (s s' : State) :
  same_handles s s' -> accounted d s -> accounted d s'.
Proof.
  intros (Hs & Hl & Ht & Hn & He).
  unfold accounted, unlistened, pairing_handles, is_listening.
  rewrite Hs, Hl, Ht, Hn. intros (H1 & H2 & H3 & H4 & H5 & H6).
  repeat split; try assumption; try (now apply (H4 k sock at_)). lia.
Qed.

Lemma accounted_weaken (d d' : nat) (s : State) :
  (d <= d')%nat -> accounted d s -> accounted d' s.
Proof.
  intros Hd (H1 & H2 & H3 & H4 & H5 & H6). repeat split; try assumption;
    try (now apply (H4 k sock at_)). lia.
Qed.

Lemma accounted_add_plain (d : nat) (k : TaskId) (t : Task) (s : State) :
  is_pairing t = false -> ~ In k (map fst (tasks s)) -> (k < nextTask s)%nat ->
  accounted d s -> accounted d (with_tasks (tasks s ++ [(k, t)]) s).
Proof.
  intros Hp Hk Hlt (H1 & H2 & H3 & H4 & H5 & H6).
  assert (Hin : forall k' sock at_,
             In (k', BootPairing sock at_) (tasks s ++ [(k, t)]) ->
             In (k', BootPairing sock at_) (tasks s)).
  { intros k' sock at_ Hin. apply in_app_or in Hin.
    destruct Hin as [Hin|[E|[]]]; [exact Hin|].
    injection E as _ ->. discriminate Hp. }
  unfold accounted. cbn [tasks nextTask sockets listening with_tasks].
  split; [rewrite map_app; now apply NoDup_add_last|].
  split.
  { intros p Hp'. apply in_app_or in Hp'. destruct Hp' as [Hp'|[<-|[]]]; auto. }
  split; [exact H3|]. split.
  { intros k' sock at_ Hi. exact (H4 k' sock at_ (Hin _ _ _ Hi)). }
  split.
  { intros k1 k2 sock a1 a2 Hi1 Hi2. exact (H5 _ _ _ _ _ (Hin _ _ _ Hi1) (Hin _ _ _ Hi2)). }
  unfold unlistened, pairing_handles, is_listening, exhausted_pairings in *.
  cbn [tasks sockets listening effects with_tasks].
  rewrite filter_app, length_app. cbn. rewrite Hp. cbn.
  lia.
Qed.

Lemma accounted_add_pairing (d : nat) (k : TaskId) (sock : SockId) (at_ : PairingPoint)
    (s : State) :
  ~ In k (map fst (tasks s)) -> (k < nextTask s)%nat ->
  (sock < sockets s)%nat -> ~ In sock (listening s) ->
  (forall k' at', ~ In (k', BootPairing sock at') (tasks s)) ->
  accounted (S d) s ->
  accounted d (with_tasks (tasks s ++ [(k, BootPairing sock at_)]) s).
Proof.
  intros Hk Hlt Hs Hl Hfree (H1 & H2 & H3 & H4 & H5 & H6).
  unfold accounted. cbn [tasks nextTask sockets listening with_tasks].
  split; [rewrite map_app; now apply NoDup_add_last|].
  split.
  { intros p Hp'. apply in_app_or in Hp'. destruct Hp' as [Hp'|[<-|[]]]; auto. }
  split; [exact H3|]. split.
  { intros k' sock' a Hi. apply in_app_or in Hi.
    destruct Hi as [Hi|[E|[]]]; [exact (H4 _ _ _ Hi)|].
    injection E as _ <- _. now split. }
  split.
  { intros k1 k2 sock' a1 a2 Hi1 Hi2.
    apply in_app_or in Hi1. apply in_app_or in Hi2.
    destruct Hi1 as [Hi1|[E1|[]]]; destruct Hi2 as [Hi2|[E2|[]]].
    - exact (H5 _ _ _ _ _ Hi1 Hi2).
    - exfalso. injection E2 as _ <- _. exact (Hfree _ _ Hi1).
    - exfalso. injection E1 as _ <- _. exact (Hfree _ _ Hi2).
    - injection E1 as <- _ _. now injection E2 as <- _ _. }
  unfold unlistened, pairing_handles, is_listening, exhausted_pairings in *.
  cbn [tasks sockets listening effects with_tasks].
  rewrite filter_app, length_app. cbn.
  lia.
Qed.

Lemma accounted_drop (d : nat) (k : TaskId) (t : Task) (s : State) :
  find_task k s = Some t -> accounted d s ->
  accounted (d + (if is_pairing t then 1 else 0)) (drop_task k s)
  /\ ~ In k (map fst (tasks (drop_task k s)))
  /\ (k < nextTask (drop_task k s))%nat
  /\ In (k, t) (tasks s).
Proof.
  intros Hf (H1 & H2 & H3 & H4 & H5 & H6).
  destruct (find_task_found k t s Hf) as (k' & Hfind).
  assert (Hin : In (k, t) (tasks s)).
  { apply find_some in Hfind. destruct Hfind as [Hin E].
    apply Nat.eqb_eq in E. cbn in E. now subst. }
  assert (Hsub : forall p, In p (tasks (drop_task k s)) -> In p (tasks s)).
  { intros p Hp. cbn in Hp. apply filter_In in Hp. tauto. }
  split; [|split; [apply key_absent_filter | split; [exact (H2 _ Hin) | exact Hin]]].
  unfold accounted. cbn [tasks nextTask sockets listening drop_task with_tasks].
  split; [now apply NoDup_keys_filter|].
  split; [intros p Hp; apply H2, Hsub, Hp|].
  split; [exact H3|].
  split; [intros k1 sock a Hi; exact (H4 _ _ _ (Hsub _ Hi))|].
  split; [intros k1 k2 sock a1 a2 Hi1 Hi2; exact (H5 _ _ _ _ _ (Hsub _ Hi1) (Hsub _ Hi2))|].
  pose proof (pairing_without k k' t (tasks s) H1 Hfind) as Hp.
  unfold unlistened, pairing_handles, is_listening, exhausted_pairings in *.
  cbn [tasks sockets listening effects drop_task with_tasks].
  lia.
Qed.

Lemma accounted_spawn (d : nat) (t : Task) (s : State) :
  is_pairing t = false -> accounted d s -> accounted d (snd (spawn t s)).
Proof.
  intros Hp Ha.
  assert (Hk : ~ In (nextTask s) (map fst (tasks s))).
  { intros Hin. apply in_map_iff in Hin. destruct Hin as (p & E & Hin).
    destruct Ha as (_ & H2 & _). specialize (H2 p Hin). lia. }
  assert (Hlt : forall p, In p (tasks s) -> (fst p < nextTask s)%nat)
    by (destruct Ha as (_ & H2 & _); exact H2).
  destruct Ha as (H1 & H2 & H3 & H4 & H5 & H6).
  assert (Hin : forall k' sock at_,
             In (k', BootPairing sock at_) (tasks s ++ [(nextTask s, t)]) ->
             In (k', BootPairing sock at_) (tasks s)).
  { intros k' sock at_ Hin. apply in_app_or in Hin.
    destruct Hin as [Hin|[E|[]]]; [exact Hin|].
    injection E as _ ->. discriminate Hp. }
  unfold accounted, spawn. cbn [snd tasks nextTask sockets listening with_tasks with_nextTask].
  split; [rewrite map_app; now apply NoDup_add_last|].
  split.
  { intros p Hp'. apply in_app_or in Hp'. destruct Hp' as [Hp'|[<-|[]]]; cbn.
    - specialize (H2 p Hp'). lia.
    - lia. }
  split; [exact H3|]. split.
  { intros k' sock at_ Hi. exact (H4 k' sock at_ (Hin _ _ _ Hi)). }
  split.
  { intros k1 k2 sock a1 a2 Hi1 Hi2. exact (H5 _ _ _ _ _ (Hin _ _ _ Hi1) (Hin _ _ _ Hi2)). }
  unfold unlistened, pairing_handles, is_listening, exhausted_pairings in *.
  cbn [tasks sockets listening effects with_tasks with_nextTask].
  rewrite filter_app, length_app. cbn. rewrite Hp. cbn. lia.
Qed.

Lemma accounted_make (d : nat) (s : State) :
  accounted d s -> accounted (S d) (with_sockets (S (sockets s)) s).
Proof.
  intros (H1 & H2 & H3 & H4 & H5 & H6).
  unfold accounted. cbn [tasks nextTask sockets listening with_sockets].
  split; [exact H1|]. split; [exact H2|].
  split; [intros sock Hin; specialize (H3 sock Hin); lia|].
  split.
  { intros k sock a Hi. destruct (H4 _ _ _ Hi). split; [lia | assumption]. }
  split; [exact H5|].
  unfold unlistened, pairing_handles, is_listening, exhausted_pairings in *.
  cbn [tasks sockets listening effects with_sockets].
  rewrite seq_S, filter_app, length_app. cbn.
  destruct (negb (existsb (Nat.eqb (sockets s)) (listening s))); cbn; lia.
Qed.

Lemma accounted_listen (d : nat) (sock : SockId) (s : State) :
  (sock < sockets s)%nat -> ~ In sock (listening s) ->
  (forall k at_, ~ In (k, BootPairing sock at_) (tasks s)) ->
  accounted (S d) s ->
  accounted d (with_listening (listening s ++ [sock]) s).
Proof.
  intros Hs Hl Hfree (H1 & H2 & H3 & H4 & H5 & H6).
  unfold accounted. cbn [tasks nextTask sockets listening with_listening].
  split; [exact H1|]. split; [exact H2|].
  split.
  { intros x Hin. apply in_app_or in Hin. destruct Hin as [Hin|[<-|[]]]; auto. }
  split.
  { intros k sock' a Hi. destruct (H4 _ _ _ Hi) as [Hlt Hn]. split; [exact Hlt|].
    intros Hin. apply in_app_or in Hin. destruct Hin as [Hin|[<-|[]]]; [tauto|].
    exact (Hfree _ _ Hi). }
  split; [exact H5|].
  unfold unlistened, pairing_handles, is_listening, exhausted_pairings in *.
  cbn [tasks sockets listening effects with_listening].
  pose proof (filter_remove_one
                (fun x => negb (existsb (Nat.eqb x) (listening s))) sock
                (seq 0 (sockets s)) (seq_NoDup _ _)) as Hr.
  rewrite (filter_ext (fun x => negb (existsb (Nat.eqb x) (listening s ++ [sock])))
             (fun x => (negb (existsb (Nat.eqb x) (listening s))
                        && negb (Nat.eqb x sock))%bool)).
  2:{ intros x. rewrite existsb_app. cbn. rewrite orb_false_r. apply negb_orb. }
  assert (Hnot : negb (existsb (Nat.eqb sock) (listening s)) = true).
  { apply negb_true_iff. destruct (existsb (Nat.eqb sock) (listening s)) eqn:E;
      [|reflexivity].
    exfalso. apply Hl. apply (proj1 (is_listening_In sock s)). exact E. }
  specialize (Hr (proj2 (in_seq _ _ _) (conj (Nat.le_0_l _) Hs)) Hnot). lia.
Qed.

Lemma accounted_exhaust (d : nat) (s : State) :
  accounted (S d) s -> accounted d (emit (Print (LogFatal exhaustion)) s).
Proof.
  intros (H1 & H2 & H3 & H4 & H5 & H6).
  unfold accounted. cbn [tasks nextTask sockets listening emit with_effects].
  repeat split; try assumption; try (now apply (H4 k sock at_)).
  unfold unlistened, pairing_handles, is_listening, exhausted_pairings in *.
  cbn [tasks sockets listening effects emit with_effects].
  rewrite filter_app, length_app. cbn. lia.
Qed.

(** *** Bootstrap and pairing *)

Lemma accounted_startBot_catch (d : nat) (message : string) (s : State) :
  accounted d s -> accounted d (startBot_catch config message s).
Proof. apply accounted_same, same_handles_startBot_catch. Qed.

Lemma accounted_exhausted (d : nat) (s : State) :
  accounted (S d) s -> accounted d (startBot_catch config exhaustion s).
Proof.
  intros Ha. apply accounted_exhaust in Ha. revert Ha. apply accounted_same.
  unfold startBot_catch. cbv zeta.
  change (print (LogFatal exhaustion) s) with (emit (Print (LogFatal exhaustion)) s).
  sh. sh. apply same_handles_refl.
Qed.

Lemma accounted_startBot_listen (d : nat) (sock : SockId) (s : State) :
  (sock < sockets s)%nat -> ~ In sock (listening s) ->
  (forall k at_, ~ In (k, BootPairing sock at_) (tasks s)) ->
  accounted (S d) s -> accounted d (startBot_listen sock s).
Proof.
  intros Hs Hl Hfree Ha. unfold startBot_listen. cbv zeta.
  apply (accounted_same d (with_listening (listening s ++ [sock]) s)).
  - repeat sh.
  - now apply accounted_listen.
Qed.

Lemma accounted_startBot (d : nat) (s : State) :
  accounted d s -> accounted d (startBot config s).
Proof.
  intros Ha. unfold startBot. destruct (validateConfig config).
  - now apply accounted_spawn.
  - now apply accounted_startBot_catch.
Qed.

Lemma accounted_put_plain (d : nat) (k : TaskId) (t t' : Task) (s : State) :
  find_task k s = Some t -> is_pairing t = false -> is_pairing t' = false ->
  accounted d s -> accounted d (put_task k t' s).
Proof.
  intros Hf Hp Hp' Ha.
  destruct (accounted_drop d k t s Hf Ha) as (Hd & Hk & Hlt & _).
  rewrite Hp, Nat.add_0_r in Hd.
  exact (accounted_add_plain d k t' (drop_task k s) Hp' Hk Hlt Hd).
Qed.

Lemma accounted_put_again (d : nat) (k : TaskId) (sock : SockId)
    (at_ at' : PairingPoint) (s : State) :
  find_task k s = Some (BootPairing sock at_) ->
  accounted d s -> accounted d (put_task k (BootPairing sock at') s).
Proof.
  intros Hf Ha.
  destruct (accounted_drop d k _ s Hf Ha) as (Hd & Hk & Hlt & Hin).
  cbn [is_pairing] in Hd. rewrite Nat.add_1_r in Hd.
  destruct Ha as (_ & _ & _ & H4 & H5 & _). destruct (H4 _ _ _ Hin) as [Hs Hl].
  apply (accounted_add_pairing d k sock at' (drop_task k s) Hk Hlt Hs Hl); [|exact Hd].
  intros k' a Hi. cbn in Hi. apply filter_In in Hi. destruct Hi as [Hi Hne].
  apply negb_true_iff, Nat.eqb_neq in Hne. cbn in Hne.
  apply Hne. exact (H5 _ _ _ _ _ Hi Hin).
Qed.

Lemma accounted_startBot_paired (k : TaskId) (sock : SockId) (at_ : PairingPoint)
    (s : State) (o : Outcome) :
  find_task k s = Some (BootPairing sock at_) ->
  outcome_handles k sock s o ->
  accounted 0 s -> accounted 0 (startBot_paired config k sock o).
Proof.
  intros Hf Ho Ha.
  assert (Hend : forall s', same_handles s s' ->
             accounted 1 (drop_task k s')
             /\ (sock < sockets (drop_task k s'))%nat
             /\ ~ In sock (listening (drop_task k s'))
             /\ forall k' a, ~ In (k', BootPairing sock a) (tasks (drop_task k s'))).
  { intros s' Hs. pose proof (accounted_same 0 s s' Hs Ha) as Ha'.
    assert (Hf' : find_task k s' = Some (BootPairing sock at_))
      by (now rewrite (same_handles_find k s s' Hs)).
    destruct (accounted_drop 0 k _ s' Hf' Ha') as (Hd & _ & _ & Hin).
    destruct Ha' as (_ & _ & _ & H4 & H5 & _). destruct (H4 _ _ _ Hin) as [Hlt Hl].
    split; [exact Hd|]. split; [exact Hlt|]. split; [exact Hl|].
    intros k' a Hi. cbn in Hi. apply filter_In in Hi. destruct Hi as [Hi Hne].
    apply negb_true_iff, Nat.eqb_neq in Hne. cbn in Hne.
    apply Hne. exact (H5 _ _ _ _ _ Hi Hin). }
  destruct o as [s'|s'|message s']; cbn [outcome_handles startBot_paired] in *.
  - destruct Ho as (s1 & a & Hs & ->).
    apply (accounted_put_again 0 k sock at_ a s1).
    + now rewrite (same_handles_find k s s1 Hs).
    + exact (accounted_same 0 s s1 Hs Ha).
  - destruct (Hend s' Ho) as (Hd & Hlt & Hl & Hfree).
    now apply accounted_startBot_listen.
  - destruct Ho as [-> Hs]. destruct (Hend s' Hs) as (Hd & _).
    now apply accounted_exhausted.
Qed.

Lemma accounted_startBot_connect (net : Net) (k : TaskId) (registered : bool)
    (t : Task) (s : State) :
  find_task k s = Some t -> is_pairing t = false ->
  accounted 0 s -> accounted 0 (startBot_connect config net k registered s).
Proof.
  intros Hf Hp Ha. unfold startBot_connect. cbv zeta.
  destruct (negb (construct_ok net)).
  { apply accounted_startBot_catch.
    destruct (accounted_drop 0 k t s Hf Ha) as (Hd & _). now rewrite Hp in Hd. }
  set (s1 := emit (MakeSocket (sockets s)) (with_sockets (S (sockets s)) s)).
  assert (Ha1 : accounted 1 s1).
  { apply (accounted_same 1 (with_sockets (S (sockets s)) s));
      [apply same_handles_emit | now apply accounted_make]. }
  assert (Hf1 : find_task k s1 = Some t) by exact Hf.
  assert (Hfresh : (sockets s < sockets s1)%nat
                   /\ ~ In (sockets s) (listening s1)
                   /\ forall k' a, ~ In (k', BootPairing (sockets s) a) (tasks s1)).
  { destruct Ha as (_ & _ & H3 & H4 & _). split; [cbn; lia|]. split.
    - intros Hin. specialize (H3 _ Hin). lia.
    - intros k' a Hin. destruct (H4 _ _ _ Hin). lia. }
  destruct Hfresh as (Hlt & Hl & Hfree).
  destruct (negb registered).
  - unfold getPairingCode. cbv zeta. cbn [startBot_paired].
    set (s2 := snd (setTimeout (CbResolve k) (PAIRING_STABILIZATION_DELAY config)
                      (print LogStabilizing s1))).
    assert (Hs2 : same_handles s1 s2) by (unfold s2; repeat sh).
    pose proof (accounted_same 1 s1 s2 Hs2 Ha1) as Ha2.
    assert (Hf2 : find_task k s2 = Some t)
      by (now rewrite (same_handles_find k s1 s2 Hs2)).
    destruct (accounted_drop 1 k t s2 Hf2 Ha2) as (Hd & Hk & Hkl & _).
    rewrite Hp, Nat.add_0_r in Hd.
    apply (accounted_add_pairing 0 k (sockets s) Stabilizing (drop_task k s2) Hk Hkl);
      try assumption.
    intros k' a Hi. cbn in Hi. apply filter_In in Hi. exact (Hfree _ _ (proj1 Hi)).
  - destruct (accounted_drop 1 k t s1 Hf1 Ha1) as (Hd & _).
    rewrite Hp, Nat.add_0_r in Hd.
    apply accounted_startBot_listen; try assumption.
    intros k' a Hi. cbn in Hi. apply filter_In in Hi. exact (Hfree _ _ (proj1 Hi)).
Qed.

Lemma accounted_resume (net : Net) (k : TaskId) (t : Task) (w : Wake) (s s' : State) :
  find_task k s = Some t ->
  resume config net k t w s = Some s' ->
  accounted 0 s -> accounted 0 s'.
Proof.
  intros Hf. unfold resume.
  assert (Hdrop : is_pairing t = false -> accounted 0 s -> accounted 0 (drop_task k s)).
  { intros Hp Ha. destruct (accounted_drop 0 k t s Hf Ha) as (Hd & _).
    now rewrite Hp in Hd. }
  destruct t as [|registered|sock at_|sock|sock].
  - destruct w as [|[[| |registered]|message]]; try discriminate; intros [= <-] Ha.
    + now apply (accounted_put_plain 0 k BootAuthState).
    + apply accounted_startBot_catch. now apply Hdrop.
  - destruct w as [|[v|message]]; try discriminate; intros [= <-] Ha.
    + now apply (accounted_startBot_connect net k registered (BootVersion registered)).
    + apply accounted_startBot_catch. now apply Hdrop.
  - destruct (getPairingCode_resume config k sock at_ w s) as [o|] eqn:E;
      [|discriminate].
    intros [= <-]. apply (accounted_startBot_paired k sock at_ s o Hf).
    eapply outcome_handles_resume. exact E.
  - destruct w as [|r]; try discriminate. intros [= <-] Ha.
    apply (accounted_same 0 (drop_task k s)); [|now apply Hdrop].
    eapply same_handles_trans; [|apply same_handles_opened].
    unfold initializeStatusViewing_settled. destruct r; repeat sh.
  - destruct w as [|[[| |]|]]; try discriminate. intros [= <-] Ha.
    apply (accounted_same 0 (drop_task k s)); [|now apply Hdrop].
    apply same_handles_opened.
Qed.

Lemma accounted_step (net : Net) (e : Event) (s s' : State) :
  step config loggedOut capacity net e s = Some s' ->
  accounted 0 s -> accounted 0 s'.
Proof.
  unfold step. destruct (exited s) as [code|].
  { now intros [= <-]. }
  destruct e as [ms|h|k r|sock update|sock messages].
  - destruct (_ && _)%bool; [|discriminate]. intros [= <-].
    apply accounted_same. sh_fields.
  - destruct (find_timer h s) as [t|]; [|discriminate].
    destruct (Z.leb (t_due t) (clock s)); [|discriminate].
    intros Hr Ha.
    assert (Ha1 : accounted 0 (rearm t s))
      by (revert Ha; apply accounted_same, same_handles_rearm).
    revert Hr. destruct (t_callback t) as [|statusId|sock|sock|k]; cbn.
    + intros [= <-]. now apply accounted_startBot.
    + intros [= <-]. revert Ha1. apply accounted_same. sh_fields.
    + intros [= <-]. revert Ha1. apply accounted_same, same_handles_emit.
    + intros [= <-]. revert Ha1. apply accounted_same.
      unfold statusSync_tick. cbv zeta. repeat sh.
    + destruct (find_task k (rearm t s)) as [task|] eqn:Ef; [|discriminate].
      intros Hr. exact (accounted_resume net k task TimerElapsed _ _ Ef Hr Ha1).
  - destruct (find_task k s) as [t|] eqn:Ef; [|discriminate].
    intros Hr. exact (accounted_resume net k t (Settle r) s s' Ef Hr).
  - destruct (is_listening sock s); intros [= <-]; [|trivial].
    unfold handleConnectionUpdate, initializeStatusViewing.
    destruct (connection update) as [[| |]|]; trivial.
    + apply accounted_same. cbv zeta. repeat sh.
    + intros Ha. cbv zeta.
      destruct (negb (autoViewStatus config)); apply accounted_spawn;
        try reflexivity; revert Ha; apply accounted_same; repeat sh.
  - destruct (is_listening sock s); intros [= <-]; [|trivial].
    apply accounted_same, same_handles_handleIncomingMessages.
Qed.

Lemma accounted_run (evs : list (Net * Event)) :
  forall s s', run config loggedOut capacity evs s = Some s' ->
               accounted 0 s -> accounted 0 s'.
Proof.
  induction evs as [|[net e] evs IH]; intros s s' Hr Ha; cbn in Hr.
  - now injection Hr as <-.
  - destruct (step config loggedOut capacity net e s) as [s1|] eqn:Es; [|discriminate].
    eapply IH; [exact Hr|]. eapply accounted_step; eassumption.
Qed.

Lemma accounted_boot : accounted 0 (boot config).
Proof.
  apply accounted_startBot. unfold accounted. cbn.
  repeat split; try constructor; try contradiction; try lia.
Qed.

(** *** Counting the active handles *)

Lemma filter_split_length (A : Type) (p q : A -> bool) (l : list A) :
  List.length (filter p l)
  = (List.length (filter (fun x => p x && q x)%bool l)
     + List.length (filter (fun x => p x && negb (q x))%bool l))%nat.
Proof.
  induction l as [|x l IH]; cbn; [reflexivity|].
  destruct (p x), (q x); cbn; lia.
Qed.

Lemma filter_length_le (A : Type) (p q : A -> bool) (l : list A) :
  (forall x, p x = true -> q x = true) ->
  (List.length (filter p l) <= List.length (filter q l))%nat.
Proof.
  intros H. induction l as [|x l IH]; cbn; [lia|].
  destruct (p x) eqn:E.
  - rewrite (H x E). cbn. lia.
  - destruct (q x); cbn; lia.
Qed.

(** An active handle has listeners and has not closed, or has no
    listeners. *)
Lemma active_handles_split (closed : list SockId) (s : State) :
  (active_handles closed s <= live_handles closed s + unlistened s)%nat.
Proof.
  unfold active_handles, live_handles, unlistened.
  rewrite (filter_split_length nat (fun sock => negb (is_closed closed sock))
             (fun sock => is_listening sock s)).
  apply Nat.add_le_mono.
  - apply NoDup_incl_length.
    + apply NoDup_filter, seq_NoDup.
    + intros x Hx. apply filter_In in Hx. destruct Hx as [_ Hx].
      apply andb_true_iff in Hx. destruct Hx as [Hc Hl].
      apply filter_In. split; [|exact Hc]. now apply is_listening_In.
  - apply filter_length_le. intros x Hx. apply andb_true_iff in Hx. tauto.
Qed.

Lemma pairing_handles_running (s : State) :
  (pairing_handles s <= bootstraps_running s)%nat.
Proof.
  unfold pairing_handles, bootstraps_running. apply filter_length_le.
  intros [k t]. cbn. now destruct t.
Qed.

End Handles.

(** C4 (as the code has it): after any sequence of events, the session
    handles that have listeners and have not closed, the restart timers
    that are pending and the bootstraps that are running number at most
    one altogether, plus one for every close notification that a handle
    delivers after its first.  The other active handles have no
    listeners: they are being paired by a running bootstrap or were left
    behind by an exhausted pairing, one for each.  So when no handle
    reports its close twice there is at most one listening handle, at most
    one pending restart, no restart is scheduled while a bootstrap is
    pending or running, and the active handles and the pending restart
    number at most one more than the pairings given up. *)
Theorem one_bootstrap_in_flight
    (config : Config) (loggedOut : Z) (capacity : nat)
    (evs : list (Net * Event)) (s : State) :
  run config loggedOut capacity evs (boot config) = Some s ->
  (live_handles (closes evs) s + pending_bootstraps s + bootstraps_running s
   <= 1 + repeated_closes evs)%nat
  /\ (active_handles (closes evs) s
      <= live_handles (closes evs) s + pairing_handles s + exhausted_pairings s)%nat
  /\ (NoDup (closes evs) ->
      (live_handles (closes evs) s + pending_bootstraps s + bootstraps_running s
       <= 1)%nat
      /\ (active_handles (closes evs) s + pending_bootstraps s
          <= 1 + exhausted_pairings s)%nat).
Proof.
  intros Hr.
  assert (H1 : (live_handles (closes evs) s + pending_bootstraps s
                + bootstraps_running s <= 1 + repeated_closes evs)%nat).
  { assert (Hb : keeps 1 fresh (boot config)) by apply keeps_startBot.
    destruct Hb as (Hl & Hd & Ho).
    assert (Ho0 : oneshot_bootstraps fresh) by (intros t []).
    pose proof (in_flight_run config loggedOut capacity evs [] (boot config) s
                  (Ho Ho0) Hr) as H.
    cbn [app] in H. unfold in_flight, load, repeated_closes in *.
    rewrite (live_same [] fresh (boot config) Hl) in H. cbn in Hd.
    unfold live_handles in H at 2. cbn in H. lia. }
  assert (H2 : (active_handles (closes evs) s
                <= live_handles (closes evs) s + pairing_handles s
                   + exhausted_pairings s)%nat).
  { pose proof (accounted_run config loggedOut capacity evs _ _ Hr
                  (accounted_boot config)) as Ha.
    destruct Ha as (_ & _ & _ & _ & _ & Hu).
    pose proof (active_handles_split (closes evs) s). lia. }
  split; [exact H1|]. split; [exact H2|].
  intros Hnd. unfold repeated_closes in H1.
  rewrite (repeated_NoDup (closes evs) [] Hnd) in H1.
  pose proof (pairing_handles_running s). lia.
Qed.

Lemma one_bootstrap_in_flight_witness :
  NoDup (closes reconnect_cycle)
  /\ exists s,
       run sample_config 401 1000 reconnect_cycle (boot sample_config) = Some s
       /\ listening s = [O; 1%nat]
       /\ (live_handles (closes reconnect_cycle) s + pending_bootstraps s
           + bootstraps_running s <= 1)%nat
       /\ (active_handles (closes reconnect_cycle) s + pending_bootstraps s
           <= 1 + exhausted_pairings s)%nat.
Proof.
  assert (Hnd : NoDup (closes reconnect_cycle)).
  { cbn. repeat constructor. intros []. }
  split; [exact Hnd|].
  eexists. split; [vm_compute; reflexivity|]. split; [reflexivity|].
  refine (proj2 (proj2 (one_bootstrap_in_flight sample_config 401 1000
                          reconnect_cycle _ _)) Hnd).
  vm_compute. reflexivity.
Defined.

(** C4 as the spec words it does not hold: the script never ends a
    session handle.  When pairing on socket 0 has been given up after six
    refused requests, the restart builds socket 1 and pairs it; no close
    has been reported, so both handles are active, the second one with
    listeners, the first one abandoned. *)
Lemma abandoned_handle_stays_active :
  closes exhausted_then_paired = []
  /\ exists s,
       run sample_config 401 1000 exhausted_then_paired (boot sample_config) = Some s
       /\ exited s = None
       /\ sockets s = 2%nat
       /\ listening s = [1%nat]
       /\ active_handles (closes exhausted_then_paired) s = 2%nat
       /\ exhausted_pairings s = 1%nat.
Proof.
  split; [reflexivity|].
  eexists. split; [vm_compute; reflexivity|]. repeat split; reflexivity.
Qed.

(** The bound on what is in flight is reached when a handle reports its
    close a second time: the handler has no guard and schedules a second
    restart. *)
Lemma repeated_close_adds_restart :
  repeated_closes double_close = 1%nat
  /\ exists s,
       run sample_config 401 1000 double_close (boot sample_config) = Some s
       /\ live_handles (closes double_close) s = O
       /\ pending_bootstraps s = 2%nat.
Proof.
  split; [reflexivity|].
  eexists. split; [vm_compute; reflexivity|]. split; reflexivity.
Qed.

(** ** The cache along a run *)

Section CacheRun.

Variable config : Config.
Variable loggedOut : Z.
Variable capacity : nat.

Ltac crush_same :=
  repeat first
    [ reflexivity
    | match goal with
      | |- context [match ?x with _ => _ end] => destruct x
      end ].

Lemma viewedStatus_rearm (t : Timer) (s : State) :
  viewedStatus (rearm t s) = viewedStatus s.
Proof. unfold rearm. now destruct (t_every t). Qed.

Lemma viewedStatus_startBot_catch (message : string) (s : State) :
  viewedStatus (startBot_catch config message s) = viewedStatus s.
Proof. reflexivity. Qed.

Lemma viewedStatus_startBot (s : State) :
  viewedStatus (startBot config s) = viewedStatus s.
Proof. unfold startBot. now destruct (validateConfig config). Qed.

Lemma viewedStatus_opened (sock : SockId) (s : State) :
  viewedStatus (handleConnectionUpdate_opened config sock s) = viewedStatus s.
Proof.
  unfold handleConnectionUpdate_opened, startStatusSync, startPresenceUpdates,
    clear_if_set.
  destruct (negb (autoViewStatus config)); cbn; crush_same.
Qed.

Lemma viewedStatus_handleConnectionUpdate (update : Update) (sock : SockId) (s : State) :
  viewedStatus (handleConnectionUpdate config loggedOut update sock s) = viewedStatus s.
Proof.
  unfold handleConnectionUpdate, initializeStatusViewing.
  destruct (connection update) as [[| |]|]; try reflexivity.
  - unfold clear_if_set. crush_same.
  - destruct (negb (autoViewStatus config)); reflexivity.
Qed.

Lemma viewedStatus_outcome (k : TaskId) (sock : SockId) (at_ : PairingPoint) (w : Wake)
    (s : State) (o : Outcome) :
  getPairingCode_resume config k sock at_ w s = Some o ->
  viewedStatus (startBot_paired config k sock o) = viewedStatus s.
Proof.
  unfold getPairingCode_resume, getPairingCode_catch, getPairingCode.
  destruct at_; destruct w as [|[[| |]|]]; try discriminate;
    try (intros [= <-]; reflexivity).
  - destruct (negb (valid_phone _)); [|intros [= <-]; reflexivity].
    cbn. destruct (Z.ltb _ _); intros [= <-]; reflexivity.
  - cbn. destruct (Z.ltb _ _); intros [= <-]; reflexivity.
Qed.

Lemma viewedStatus_resume (net : Net) (k : TaskId) (t : Task) (w : Wake) (s s' : State) :
  resume config net k t w s = Some s' -> viewedStatus s' = viewedStatus s.
Proof.
  unfold resume. destruct t as [|registered|sock at_|sock|sock].
  - destruct w as [|[[| |]|]]; try discriminate; intros [= <-]; reflexivity.
  - destruct w as [|[|]]; try discriminate; intros [= <-]; [|reflexivity].
    unfold startBot_connect. destruct (negb (construct_ok net)); [reflexivity|].
    destruct (negb registered); reflexivity.
  - destruct (getPairingCode_resume config k sock at_ w s) as [o|] eqn:E; [|discriminate].
    intros [= <-]. eapply viewedStatus_outcome; eassumption.
  - destruct w as [|r]; try discriminate. intros [= <-].
    rewrite viewedStatus_opened. now destruct r.
  - destruct w as [|[[| |]|]]; try discriminate. intros [= <-].
    now rewrite viewedStatus_opened.
Qed.

Lemma viewedStatus_handleAntiDelete (net : Net) (sock : SockId) (msg : Message)
    (s : State) :
  viewedStatus (handleAntiDelete config net sock msg s) = viewedStatus s
  /\ timers (handleAntiDelete config net sock msg s) = timers s.
Proof. unfold handleAntiDelete. crush_same; split; reflexivity. Qed.

Lemma cleanup_loop_subset (x : string) (n : nat) :
  forall it l, In x (cleanup_loop n it l) -> In x l.
Proof.
  induction n as [|n IH]; intros it l; cbn; [trivial|].
  destruct (JS.iterator_next l it) as [[v|] it']; cbn; intros H.
  - apply IH in H. now apply SetFacts.In_delete in H.
  - now apply IH in H.
Qed.

(** Eviction only removes entries. *)
Lemma cleanupViewedStatus_subset (x : string) (l : JS.StrSet) :
  In x (cleanupViewedStatus capacity l) -> In x l.
Proof.
  unfold cleanupViewedStatus. destruct (Nat.ltb capacity (JS.size l)); [|trivial].
  apply cleanup_loop_subset.
Qed.

(** What a turn of the event loop does to the cache: nothing, the
    deletion of the id whose timer fires, or the insertion of an id that
    was not there followed by capacity eviction. *)
Lemma step_cache (net : Net) (e : Event) (s s' : State) :
  step config loggedOut capacity net e s = Some s' ->
  viewedStatus s' = viewedStatus s
  \/ (exists h t id, e = Fire h /\ exited s = None /\ find_timer h s = Some t
                     /\ t_callback t = CbDeleteStatus id
                     /\ viewedStatus s' = JS.delete id (viewedStatus s))
  \/ (exists id, observed config e s = Some id
                 /\ JS.has id (viewedStatus s) = false
                 /\ viewedStatus s'
                    = cleanupViewedStatus capacity (viewedStatus s ++ [id])).
Proof.
  unfold step, observed. destruct (exited s) as [code|] eqn:Ex.
  { intros [= <-]. now left. }
  destruct e as [ms|h|k r|sock update|sock messages].
  - destruct (_ && _)%bool; [|discriminate]. intros [= <-]. now left.
  - destruct (find_timer h s) as [t|] eqn:Ef; [|discriminate].
    destruct (Z.leb (t_due t) (clock s)); [|discriminate].
    destruct (t_callback t) as [|id|sock|sock|k] eqn:Ecb; cbn.
    + intros [= <-]. left. now rewrite viewedStatus_startBot, viewedStatus_rearm.
    + intros [= <-]. right; left. exists h, t, id. cbn.
      now rewrite viewedStatus_rearm.
    + intros [= <-]. left. cbn. apply viewedStatus_rearm.
    + intros [= <-]. left. unfold statusSync_tick.
      destruct (transport_ok net sock _); cbn; apply viewedStatus_rearm.
    + destruct (find_task k (rearm t s)) as [task|]; [|discriminate].
      intros Hr. left. rewrite (viewedStatus_resume _ _ _ _ _ _ Hr).
      apply viewedStatus_rearm.
  - destruct (find_task k s) as [t|]; [|discriminate].
    intros Hr. left. eapply viewedStatus_resume; eassumption.
  - destruct (is_listening sock s); intros [= <-]; left;
      [apply viewedStatus_handleConnectionUpdate | reflexivity].
  - destruct (is_listening sock s); intros [= <-]; [|now left].
    unfold handleIncomingMessages. destruct messages as [|msg rest]; [now left|].
    destruct (message msg) as [content|]; [|now left]. cbn [andb].
    set (sv := (is_status_broadcast (key_remoteJid (key msg))
                && autoViewStatus config)%bool).
    assert (Hanti : forall x,
               viewedStatus (if antiDelete config
                             then handleAntiDelete config net sock msg x else x)
               = viewedStatus x).
    { intros x. destruct (antiDelete config); [|reflexivity].
      apply viewedStatus_handleAntiDelete. }
    rewrite Hanti. destruct sv; [|now left].
    destruct (handleStatusView_cache config capacity net sock msg s) as [Hv _].
    rewrite Hv. destruct (JS.has (key_id (key msg)) (viewedStatus s)) eqn:Eh.
    + left. now rewrite (observeOnce_seen capacity _ _ Eh).
    + right; right. exists (key_id (key msg)). split; [reflexivity|].
      split; [exact Eh|]. now rewrite (observeOnce_new capacity _ _ Eh).
Qed.

Lemma NoDup_step (net : Net) (e : Event) (s s' : State) :
  step config loggedOut capacity net e s = Some s' ->
  NoDup (viewedStatus s) -> NoDup (viewedStatus s').
Proof.
  intros Hs Hnd.
  destruct (step_cache net e s s' Hs)
    as [->|[(h & t & id & _ & _ & _ & _ & ->)|(id & _ & Hh & ->)]].
  - exact Hnd.
  - now apply SetFacts.NoDup_delete.
  - apply NoDup_cleanupViewedStatus.
    rewrite <- (SetFacts.add_absent _ _ Hh). now apply SetFacts.NoDup_add.
Qed.

Lemma NoDup_run (evs : list (Net * Event)) :
  forall s s', run config loggedOut capacity evs s = Some s' ->
               NoDup (viewedStatus s) -> NoDup (viewedStatus s').
Proof.
  induction evs as [|[net e] evs IH]; intros s s' Hr Hnd; cbn in Hr.
  - now injection Hr as <-.
  - destruct (step config loggedOut capacity net e s) as [s1|] eqn:Es; [|discriminate].
    eapply IH; [exact Hr|]. eapply NoDup_step; eassumption.
Qed.

Lemma observed_mentions (e : Event) (s : State) (id : string) :
  observed config e s = Some id -> mentions id e = true.
Proof.
  unfold observed, mentions. destruct (exited s); [discriminate|].
  destruct e as [| | | |sock [|msg rest]]; try discriminate.
  destruct (_ && _)%bool; [|discriminate].
  intros [= <-]. apply String.eqb_refl.
Qed.

(** An id in the cache comes from an earlier batch. *)
Lemma cached_was_mentioned (id : string) (evs : list (Net * Event)) :
  forall s s', run config loggedOut capacity evs s = Some s' ->
               never_mentioned id evs = true ->
               In id (viewedStatus s') -> In id (viewedStatus s).
Proof.
  induction evs as [|[net e] evs IH]; intros s s' Hr Hn Hin; cbn in Hr.
  - now injection Hr as <-.
  - destruct (step config loggedOut capacity net e s) as [s1|] eqn:Es; [|discriminate].
    cbn in Hn. apply andb_true_iff in Hn. destruct Hn as [Hne Hn].
    specialize (IH s1 s' Hr Hn Hin).
    destruct (step_cache net e s s1 Es)
      as [E|[(h & t & id' & _ & _ & _ & _ & E)|(id' & Ho & Hh & E)]];
      rewrite E in IH.
    + exact IH.
    + now apply SetFacts.In_delete in IH.
    + apply cleanupViewedStatus_subset in IH. apply in_app_or in IH.
      destruct IH as [IH|[<-|[]]]; [exact IH|].
      apply observed_mentions in Ho. rewrite Ho in Hne. discriminate.
Qed.

(** The turn that observes a new id inserts it, evicts down to the
    capacity and sets the expiry timer. *)
Lemma step_observed (net : Net) (e : Event) (s s' : State) (id : string) :
  observed config e s = Some id ->
  JS.has id (viewedStatus s) = false ->
  step config loggedOut capacity net e s = Some s' ->
  viewedStatus s' = cleanupViewedStatus capacity (viewedStatus s ++ [id])
  /\ timers s' = timers s ++ [mkTimer (nextTimer s) (clock s + STATUS_CLEANUP_INTERVAL)
                                None (CbDeleteStatus id)].
Proof.
  unfold observed, step. destruct (exited s); [discriminate|].
  destruct e as [| | | |sock [|msg rest]]; try discriminate.
  destruct (is_listening sock s); [|discriminate]. cbn [andb].
  unfold handleIncomingMessages.
  destruct (message msg) as [content|]; [|discriminate]. cbn [andb].
  destruct (_ && _)%bool; [|discriminate].
  intros [= <-] Hh [= <-].
  destruct (handleStatusView_cache config capacity net sock msg s) as (Hv & Ht & _).
  rewrite (observeOnce_new capacity _ _ Hh) in Hv, Ht. cbn in Hv, Ht.
  destruct (antiDelete config); [|now split].
  destruct (viewedStatus_handleAntiDelete net sock msg
              (handleStatusView config capacity net sock msg s)) as [-> ->].
  now split.
Qed.

Lemma kept_step (id : string) (net : Net) (e : Event) (s s' : State) :
  NoDup (viewedStatus s) ->
  In id (viewedStatus s) ->
  step config loggedOut capacity net e s = Some s' ->
  expires id e s = false ->
  evicts config capacity id e s = false ->
  In id (viewedStatus s').
Proof.
  intros Hnd Hin Hs Hx Hv.
  destruct (step_cache net e s s' Hs)
    as [E|[(h & t & id' & -> & Hex & Hf & Hcb & E)|(id' & Ho & Hh & E)]];
    rewrite E.
  - exact Hin.
  - apply SetFacts.In_delete. split; [exact Hin|].
    unfold expires in Hx. rewrite Hex, Hf, Hcb in Hx.
    apply String.eqb_neq in Hx. congruence.
  - unfold evicts in Hv. rewrite Ho, Hh in Hv. apply SetFacts.has_false in Hv.
    rewrite cleanupViewedStatus_skipn.
    + unfold JS.size in *. rewrite length_app. cbn [List.length].
      assert (Hall : In id (viewedStatus s ++ [id'])) by (apply in_or_app; now left).
      rewrite <- (firstn_skipn (List.length (viewedStatus s) + 1 - capacity)
                    (viewedStatus s ++ [id'])) in Hall.
      apply in_app_or in Hall. destruct Hall; [contradiction | assumption].
    + rewrite <- (SetFacts.add_absent _ _ Hh). now apply SetFacts.NoDup_add.
Qed.

Lemma kept_run (id : string) (evs : list (Net * Event)) :
  forall s s',
    NoDup (viewedStatus s) ->
    In id (viewedStatus s) ->
    run config loggedOut capacity evs s = Some s' ->
    undisturbed config loggedOut capacity id evs s = true ->
    In id (viewedStatus s').
Proof.
  induction evs as [|[net e] evs IH]; intros s s' Hnd Hin Hr Hu; cbn in Hr.
  - now injection Hr as <-.
  - destruct (step config loggedOut capacity net e s) as [s1|] eqn:Es; [|discriminate].
    cbn [undisturbed] in Hu. rewrite Es in Hu.
    apply andb_true_iff in Hu. destruct Hu as [Hu Hrest].
    apply andb_true_iff in Hu. destruct Hu as [Hx Hv].
    apply negb_true_iff in Hx, Hv.
    eapply IH; [| |exact Hr|exact Hrest].
    + eapply NoDup_step; eassumption.
    + eapply kept_step; eassumption.
Qed.

Lemma newest_survives_cleanup (id : string) (l : JS.StrSet) :
  (0 < capacity)%nat -> NoDup (l ++ [id]) ->
  In id (cleanupViewedStatus capacity (l ++ [id])).
Proof.
  intros Hc Hnd. rewrite (cleanupViewedStatus_skipn capacity _ Hnd).
  unfold JS.size. rewrite length_app. cbn [List.length].
  rewrite skipn_app. apply in_or_app. right.
  replace (List.length l + 1 - capacity - List.length l)%nat with O by lia.
  now left.
Qed.

End CacheRun.

(** C6: in any run of the script, the event that first presents a status
    id to [handleStatusView] finds it new and records it with a timer due
    [STATUS_CLEANUP_INTERVAL] later; after any further events among which
    none fires an expiry timer of that id and none evicts it for capacity,
    the id is found already seen. *)
Theorem observeOnce_first_then_repeats
    (config : Config) (loggedOut : Z) (capacity : nat) (id : string)
    (evs1 evs2 : list (Net * Event)) (net : Net) (e : Event)
    (s1 s1' s2 : State) :
  (0 < capacity)%nat ->
  run config loggedOut capacity evs1 (boot config) = Some s1 ->
  never_mentioned id evs1 = true ->
  observed config e s1 = Some id ->
  step config loggedOut capacity net e s1 = Some s1' ->
  run config loggedOut capacity evs2 s1' = Some s2 ->
  undisturbed config loggedOut capacity id evs2 s1' = true ->
  fst (observeOnce capacity id s1) = true
  /\ In (mkTimer (nextTimer s1) (clock s1 + STATUS_CLEANUP_INTERVAL) None
          (CbDeleteStatus id)) (timers s1')
  /\ fst (observeOnce capacity id s2) = false.
Proof.
  intros Hc Hr1 Hn Ho Hs Hr2 Hu.
  assert (Hb : viewedStatus (boot config) = []) by apply viewedStatus_startBot.
  assert (Hnew : JS.has id (viewedStatus s1) = false).
  { apply SetFacts.has_false. intros Hin.
    pose proof (cached_was_mentioned config loggedOut capacity id evs1 _ _ Hr1 Hn Hin) as H.
    rewrite Hb in H. destruct H. }
  assert (Hnd1 : NoDup (viewedStatus s1)).
  { eapply NoDup_run; [exact Hr1|]. rewrite Hb. constructor. }
  destruct (step_observed config loggedOut capacity net e s1 s1' id Ho Hnew Hs) as [Hv Ht].
  assert (Hnd : NoDup (viewedStatus s1 ++ [id])).
  { rewrite <- (SetFacts.add_absent _ _ Hnew). now apply SetFacts.NoDup_add. }
  rewrite !observeOnce_result, Hnew. split; [reflexivity|]. split.
  - rewrite Ht. apply in_or_app. right. now left.
  - assert (Hin : In id (viewedStatus s2)).
    { eapply kept_run; [| |exact Hr2|exact Hu].
      - rewrite Hv. now apply NoDup_cleanupViewedStatus.
      - rewrite Hv. now apply newest_survives_cleanup. }
    apply SetFacts.has_In in Hin. now rewrite Hin.
Qed.

Lemma observeOnce_first_then_repeats_witness :
  fst (observeOnce 1000 "a" online) = true
  /\ fst (observeOnce 1000 "a" seen_a_b) = false.
Proof.
  destruct (observeOnce_first_then_repeats sample_config 401 1000 "a"
              registered_bootstrap after_a all_ok (snd (sees "a"))
              online seen_a seen_a_b) as (H1 & _ & H2);
    try (vm_compute; reflexivity).
  - cbn. lia.
  - split; [exact H1 | exact H2].
Defined.

(** ** Expiry timers and re-insertion *)

(** C8 fails on the code.  With the capacity of the script (1000): status
    "a" is seen at time 0 (timer 0, due at 3600000), a thousand other
    statuses push it out, and it is seen again at time 1 (timer 1001, due
    at 3600001).  At 3600000 the entry of time 1 is still cached; timer 0
    then fires and deletes it, 1 ms before its own expiry, whose timer is
    still pending; the same status arriving at that moment is read a third
    time. *)
Theorem stale_timer_expires_reinserted_entry :
  let view evs :=
    option_map (cache_view "a" 1001)
      (run sample_config 401 MAX_VIEWED_STATUS_SIZE_default evs (boot sample_config)) in
  let own_timer := Some (mkTimer 1001 (1 + STATUS_CLEANUP_INTERVAL) None (CbDeleteStatus "a")) in
  view (registered_bootstrap ++ [sees "a"] ++ burst)
  = Some (0, false, 1000%nat, None)
  /\ view a_evicted_and_back
     = Some (1, true, 1000%nat, own_timer)
  /\ view (a_evicted_and_back ++ [(all_ok, Elapse 3599999)])
     = Some (3600000, true, 1000%nat, own_timer)
  /\ view (a_evicted_and_back ++ [(all_ok, Elapse 3599999); (all_ok, Fire O)])
     = Some (3600000, false, 999%nat, own_timer)
  /\ option_map (times_of O (is_read "a"))
       (run sample_config 401 MAX_VIEWED_STATUS_SIZE_default
          (a_evicted_and_back ++ [(all_ok, Elapse 3599999); (all_ok, Fire O); sees "a"])
          (boot sample_config))
     = Some [0; 1; 3600000].
Proof.
  cbv zeta. repeat split; vm_compute; reflexivity.
Qed.

(** ** Maintenance intervals along a run *)

Section Maintenance.

Variable config : Config.
Variable loggedOut : Z.
Variable capacity : nat.

Lemma settled_refl (s : State) : settled s s.
Proof.
  split; [reflexivity|]. split; [reflexivity|].
  intros t Ht _. now exists t.
Qed.

Lemma settled_trans (s1 s2 s3 : State) :
  settled s1 s2 -> settled s2 s3 -> settled s1 s3.
Proof.
  intros (Hp1 & Hs1 & Ht1) (Hp2 & Hs2 & Ht2).
  split; [congruence|]. split; [congruence|].
  intros t3 H3 Hm. destruct (Ht2 t3 H3 Hm) as (t2 & H2 & Hid2 & Hcb2).
  destruct (Ht1 t2 H2) as (t1 & H1 & Hid1 & Hcb1); [congruence|].
  exists t1. repeat split; congruence.
Qed.

(** A state whose timers are timers of [s] or callbacks other than the
    maintenance ones. *)
Lemma settled_sub (s s' : State) :
  presenceInterval s' = presenceInterval s ->
  statusSyncInterval s' = statusSyncInterval s ->
  (forall t, In t (timers s') ->
             In t (timers s) \/ is_maintenance (t_callback t) = false) ->
  settled s s'.
Proof.
  intros Hp Hs Ht. split; [exact Hp|]. split; [exact Hs|].
  intros t Hin Hm. destruct (Ht t Hin) as [H|H]; [now exists t | congruence].
Qed.

Lemma settled_same (s s' : State) :
  presenceInterval s' = presenceInterval s ->
  statusSyncInterval s' = statusSyncInterval s ->
  timers s' = timers s ->
  settled s s'.
Proof.
  intros Hp Hs Ht. apply settled_sub; try assumption.
  intros t Hin. left. now rewrite <- Ht.
Qed.

Lemma settled_emit (e : Effect) (s : State) : settled s (emit e s).
Proof. now apply settled_same. Qed.

Lemma settled_clearInterval (h : TimerId) (s : State) : settled s (clearInterval h s).
Proof.
  apply settled_sub; try reflexivity.
  intros t Hin. left. unfold clearInterval in Hin. cbn in Hin.
  now apply filter_In in Hin.
Qed.

Lemma settled_clear_if_set (h : option TimerId) (s : State) :
  settled s (clear_if_set h s).
Proof. destruct h; [apply settled_clearInterval | apply settled_refl]. Qed.

Lemma settled_setTimeout (cb : Callback) (delay : Z) (s : State) :
  is_maintenance cb = false -> settled s (snd (setTimeout cb delay s)).
Proof.
  intros Hcb. apply settled_sub; try reflexivity.
  intros t Hin. cbn in Hin. apply in_app_or in Hin.
  destruct Hin as [Hin|[<-|[]]]; [now left | now right].
Qed.

Lemma settled_rearm (t : Timer) (s : State) : settled s (rearm t s).
Proof.
  unfold rearm. destruct (t_every t) as [period|]; [|apply settled_clearInterval].
  split; [reflexivity|]. split; [reflexivity|].
  intros u Hu _. cbn in Hu. apply in_map_iff in Hu. destruct Hu as (v & <- & Hv).
  exists v. split; [exact Hv|]. now destruct (Nat.eqb (t_id v) (t_id t)).
Qed.

Ltac settled_step :=
  first [ apply settled_refl
        | eapply settled_trans; [|apply settled_emit]
        | eapply settled_trans; [|now apply settled_same] ].

Lemma settled_observeOnce (statusId : string) (s : State) :
  settled s (snd (observeOnce capacity statusId s)).
Proof.
  unfold observeOnce. destruct (JS.has statusId (viewedStatus s)); [apply settled_refl|].
  cbn [snd].
  eapply settled_trans; [|now apply (settled_setTimeout (CbDeleteStatus statusId))].
  now apply settled_same.
Qed.

Lemma settled_handleStatusView (net : Net) (sock : SockId) (msg : Message) (s : State) :
  settled s (handleStatusView config capacity net sock msg s).
Proof.
  unfold handleStatusView.
  pose proof (settled_observeOnce (key_id (key msg)) s) as H.
  destruct (observeOnce capacity (key_id (key msg)) s) as [isNew o]. cbn [snd] in H.
  destruct isNew; cbn [negb]; [|exact H].
  destruct (JS.truthy_string (key_participant (key msg))); [|exact H].
  unfold print, call.
  destruct (transport_ok net sock _).
  - destruct (if autoReactStatus config then _ else _).
    + destruct (transport_ok net sock _); repeat settled_step; exact H.
    + repeat settled_step; exact H.
  - repeat settled_step; exact H.
Qed.

Lemma settled_handleAntiDelete (net : Net) (sock : SockId) (msg : Message) (s : State) :
  settled s (handleAntiDelete config net sock msg s).
Proof.
  apply settled_same; unfold handleAntiDelete;
    repeat first [ reflexivity
                 | match goal with
                   | |- context [match ?x with _ => _ end] => destruct x
                   end ].
Qed.

Lemma settled_handleIncomingMessages (net : Net) (sock : SockId)
    (messages : list Message) (s : State) :
  settled s (handleIncomingMessages config capacity net sock messages s).
Proof.
  unfold handleIncomingMessages.
  destruct messages as [|msg rest]; [apply settled_refl|].
  destruct (message msg); [|apply settled_refl].
  assert (H : settled s
                (if (is_status_broadcast (key_remoteJid (key msg))
                     && autoViewStatus config)%bool
                 then handleStatusView config capacity net sock msg s else s)).
  { destruct (_ && _)%bool; [apply settled_handleStatusView | apply settled_refl]. }
  destruct (antiDelete config); [|exact H].
  eapply settled_trans; [exact H | apply settled_handleAntiDelete].
Qed.

Lemma settled_startBot_catch (message : string) (s : State) :
  settled s (startBot_catch config message s).
Proof.
  unfold startBot_catch.
  eapply settled_trans; [|now apply (settled_setTimeout CbStartBot)].
  now apply settled_same.
Qed.

Lemma settled_startBot (s : State) : settled s (startBot config s).
Proof.
  unfold startBot. destruct (validateConfig config).
  - now apply settled_same.
  - apply settled_startBot_catch.
Qed.

Lemma settled_getPairingCode (k : TaskId) (sock : SockId) (s : State) :
  settled s (outcome_state (getPairingCode config k sock s)).
Proof.
  unfold getPairingCode, outcome_state.
  eapply settled_trans; [|now apply settled_same].
  eapply settled_trans; [|now apply (settled_setTimeout (CbResolve k))].
  now apply settled_same.
Qed.

Lemma settled_getPairingCode_catch (k : TaskId) (sock : SockId) (message : string)
    (s : State) :
  settled s (outcome_state (getPairingCode_catch k sock message s)).
Proof.
  unfold getPairingCode_catch.
  destruct (Z.ltb (retryAttempts (print (LogPairingError message) s)) MAX_RETRY_ATTEMPTS);
    cbn [outcome_state]; [|now apply settled_same].
  eapply settled_trans; [|now apply settled_same].
  eapply settled_trans; [|now apply (settled_setTimeout (CbResolve k))].
  now apply settled_same.
Qed.

Lemma settled_getPairingCode_resume (k : TaskId) (sock : SockId) (at_ : PairingPoint)
    (w : Wake) (s : State) (o : Outcome) :
  getPairingCode_resume config k sock at_ w s = Some o ->
  settled s (outcome_state o).
Proof.
  unfold getPairingCode_resume.
  destruct at_ as [| |phoneNumber|]; destruct w as [|[[|answer|]|message]];
    try discriminate.
  - intros [= <-]. now apply settled_same.
  - destruct (negb (valid_phone (formatPhoneNumber answer))); intros [= <-].
    + apply settled_getPairingCode_catch.
    + now apply settled_same.
  - intros [= <-]. now apply settled_same.
  - intros [= <-]. apply settled_getPairingCode_catch.
  - intros [= <-]. apply settled_getPairingCode.
Qed.

Lemma settled_startBot_paired (k : TaskId) (sock : SockId) (o : Outcome) :
  settled (outcome_state o) (startBot_paired config k sock o).
Proof.
  destruct o as [s|s|message s]; cbn [outcome_state startBot_paired].
  - apply settled_refl.
  - now apply settled_same.
  - eapply settled_trans; [|apply settled_startBot_catch]. now apply settled_same.
Qed.

Lemma settled_startBot_connect (net : Net) (k : TaskId) (registered : bool) (s : State) :
  settled s (startBot_connect config net k registered s).
Proof.
  unfold startBot_connect. cbv zeta. destruct (negb (construct_ok net)).
  - eapply settled_trans; [|apply settled_startBot_catch]. now apply settled_same.
  - destruct (negb registered); [|now apply settled_same].
    eapply settled_trans; [|apply settled_startBot_paired].
    eapply settled_trans; [|apply settled_getPairingCode].
    now apply settled_same.
Qed.

(** *** The invariant *)

Lemma tracked_settled (s s' : State) :
  settled s s' -> maintenance_tracked s -> maintenance_tracked s'.
Proof.
  intros (Hp & Hs & Ht) Hm t' Hin.
  destruct (is_maintenance (t_callback t')) eqn:E.
  - destruct (Ht t' Hin E) as (t & Hin0 & Hid & Hcb).
    specialize (Hm t Hin0). rewrite Hcb, Hid in Hm.
    destruct (t_callback t'); trivial; congruence.
  - destruct (t_callback t'); trivial; discriminate.
Qed.

(** Once the interval a variable refers to is cleared, no interval of
    that kind is left. *)
Lemma tracked_startPresenceUpdates (sock : SockId) (s : State) :
  maintenance_tracked s -> maintenance_tracked (startPresenceUpdates sock s).
Proof.
  intros Hm t Hin. unfold startPresenceUpdates, updatePresence in Hin. cbn in Hin.
  apply in_app_or in Hin. destruct Hin as [Hin|[<-|[]]]; [|reflexivity].
  assert (Hin0 : In t (timers s) /\
                 match presenceInterval s with
                 | Some h => Nat.eqb (t_id t) h = false
                 | None => True
                 end).
  { unfold clear_if_set in Hin. destruct (presenceInterval s) as [h|]; cbn in Hin.
    - apply filter_In in Hin. destruct Hin as [Hin Hne]. split; [exact Hin|].
      now apply negb_true_iff in Hne.
    - now split. }
  destruct Hin0 as [Hin0 Hne]. specialize (Hm t Hin0).
  destruct (t_callback t); trivial.
  - exfalso. rewrite Hm in Hne. now rewrite Nat.eqb_refl in Hne.
  - unfold startPresenceUpdates, updatePresence. cbn.
    unfold clear_if_set. destruct (presenceInterval s); exact Hm.
Qed.

Lemma tracked_startStatusSync (sock : SockId) (s : State) :
  maintenance_tracked s -> maintenance_tracked (startStatusSync config sock s).
Proof.
  intros Hm. unfold startStatusSync. destruct (negb (autoViewStatus config)); [exact Hm|].
  intros t Hin. cbn in Hin.
  apply in_app_or in Hin. destruct Hin as [Hin|[<-|[]]]; [|reflexivity].
  assert (Hin0 : In t (timers s) /\
                 match statusSyncInterval s with
                 | Some h => Nat.eqb (t_id t) h = false
                 | None => True
                 end).
  { unfold clear_if_set in Hin. destruct (statusSyncInterval s) as [h|]; cbn in Hin.
    - apply filter_In in Hin. destruct Hin as [Hin Hne]. split; [exact Hin|].
      now apply negb_true_iff in Hne.
    - now split. }
  destruct Hin0 as [Hin0 Hne]. specialize (Hm t Hin0).
  destruct (t_callback t); trivial.
  - cbn. unfold clear_if_set. destruct (statusSyncInterval s); exact Hm.
  - exfalso. rewrite Hm in Hne. now rewrite Nat.eqb_refl in Hne.
Qed.

Lemma tracked_opened (sock : SockId) (s : State) :
  maintenance_tracked s ->
  maintenance_tracked (handleConnectionUpdate_opened config sock s).
Proof.
  intros Hm. unfold handleConnectionUpdate_opened.
  now apply tracked_startStatusSync, tracked_startPresenceUpdates.
Qed.

Lemma tracked_resume (net : Net) (k : TaskId) (t : Task) (w : Wake) (s s' : State) :
  resume config net k t w s = Some s' ->
  maintenance_tracked s -> maintenance_tracked s'.
Proof.
  unfold resume. destruct t as [|registered|sock at_|sock|sock].
  - destruct w as [|[[| |registered]|message]]; try discriminate; intros [= <-];
      apply tracked_settled.
    + now apply settled_same.
    + eapply settled_trans; [|apply settled_startBot_catch]. now apply settled_same.
  - destruct w as [|[v|message]]; try discriminate; intros [= <-];
      apply tracked_settled.
    + apply settled_startBot_connect.
    + eapply settled_trans; [|apply settled_startBot_catch]. now apply settled_same.
  - destruct (getPairingCode_resume config k sock at_ w s) as [o|] eqn:E;
      [|discriminate].
    intros [= <-]. apply tracked_settled.
    eapply settled_trans; [|apply settled_startBot_paired].
    eapply settled_getPairingCode_resume. exact E.
  - destruct w as [|r]; try discriminate. intros [= <-] Hm.
    apply tracked_opened. revert Hm. apply tracked_settled.
    unfold initializeStatusViewing_settled. destruct r; now apply settled_same.
  - destruct w as [|[[| |]|]]; try discriminate. intros [= <-] Hm.
    apply tracked_opened. revert Hm. apply tracked_settled. now apply settled_same.
Qed.

Lemma tracked_step (net : Net) (e : Event) (s s' : State) :
  step config loggedOut capacity net e s = Some s' ->
  maintenance_tracked s -> maintenance_tracked s'.
Proof.
  unfold step. destruct (exited s) as [code|].
  { now intros [= <-]. }
  destruct e as [ms|h|k r|sock update|sock messages].
  - destruct (_ && _)%bool; [|discriminate]. intros [= <-].
    apply tracked_settled. now apply settled_same.
  - destruct (find_timer h s) as [t|]; [|discriminate].
    destruct (Z.leb (t_due t) (clock s)); [|discriminate].
    intros Hr Hm.
    assert (Hm1 : maintenance_tracked (rearm t s)).
    { revert Hm. apply tracked_settled, settled_rearm. }
    revert Hr. destruct (t_callback t) as [|statusId|sock|sock|k]; cbn.
    + intros [= <-]. revert Hm1. apply tracked_settled, settled_startBot.
    + intros [= <-]. revert Hm1. apply tracked_settled. now apply settled_same.
    + intros [= <-]. revert Hm1. apply tracked_settled, settled_emit.
    + intros [= <-]. revert Hm1. apply tracked_settled.
      unfold statusSync_tick. destruct (transport_ok net sock _); now apply settled_same.
    + destruct (find_task k (rearm t s)) as [task|]; [|discriminate].
      intros Hr. eapply tracked_resume; eassumption.
  - destruct (find_task k s) as [t|]; [|discriminate].
    apply tracked_resume.
  - destruct (is_listening sock s); intros [= <-]; [|trivial].
    unfold handleConnectionUpdate. destruct (connection update) as [[| |]|]; trivial.
    + apply tracked_settled.
      assert (Hc : settled s
                     (clear_if_set (statusSyncInterval (clear_if_set (presenceInterval s) s))
                        (clear_if_set (presenceInterval s) s))).
      { eapply settled_trans; apply settled_clear_if_set. }
      destruct (shouldReconnect loggedOut (lastDisconnect update)).
      * eapply settled_trans; [|now apply (settled_setTimeout CbStartBot)].
        eapply settled_trans; [exact Hc | apply settled_emit].
      * eapply settled_trans; [exact Hc | now apply settled_same].
    + unfold initializeStatusViewing. intros Hm.
      destruct (negb (autoViewStatus config));
        revert Hm; apply tracked_settled; now apply settled_same.
  - destruct (is_listening sock s); intros [= <-]; [|trivial].
    apply tracked_settled, settled_handleIncomingMessages.
Qed.

Lemma tracked_run (evs : list (Net * Event)) :
  forall s s', run config loggedOut capacity evs s = Some s' ->
               maintenance_tracked s -> maintenance_tracked s'.
Proof.
  induction evs as [|[net e] evs IH]; intros s s' Hr Hm; cbn in Hr.
  - now injection Hr as <-.
  - destruct (step config loggedOut capacity net e s) as [s1|] eqn:Es; [|discriminate].
    eapply IH; [exact Hr|]. eapply tracked_step; eassumption.
Qed.

Lemma tracked_boot : maintenance_tracked (boot config).
Proof.
  unfold boot. apply (tracked_settled fresh); [apply settled_startBot|].
  intros t [].
Qed.

(** In every state the script can reach, the close handler leaves no
    maintenance interval in the timer table. *)
Lemma close_cancels_maintenance (evs : list (Net * Event)) (s : State)
    (update : Update) (sock : SockId) :
  run config loggedOut capacity evs (boot config) = Some s ->
  connection update = Some ConnClose ->
  maintenance_timers (handleConnectionUpdate config loggedOut update sock s) = [].
Proof.
  intros Hr Hc.
  pose proof (tracked_run evs _ _ Hr tracked_boot) as Hm.
  assert (Hclear : forall t, In t (timers (intervals_cleared s)) ->
                             is_maintenance (t_callback t) = false).
  { intros t Hin. unfold intervals_cleared, clear_if_set in Hin.
    assert (H : In t (timers s)
                /\ presenceInterval s <> Some (t_id t)
                /\ statusSyncInterval s <> Some (t_id t)).
    { destruct (statusSyncInterval s) as [h2|], (presenceInterval s) as [h1|];
        cbn in Hin; repeat (apply filter_In in Hin; destruct Hin as [Hin ?]);
        repeat split; try assumption; try discriminate;
        intros [= ->]; rewrite Nat.eqb_refl in *; discriminate. }
    destruct H as (Hin0 & Hp & Hs). specialize (Hm t Hin0).
    destruct (t_callback t); try reflexivity; contradiction. }
  assert (Hall : forall t, In t (timers (handleConnectionUpdate config loggedOut
                                           update sock s)) ->
                           is_maintenance (t_callback t) = false).
  { unfold handleConnectionUpdate. rewrite Hc.
    replace (clear_if_set (statusSyncInterval (clear_if_set (presenceInterval s) s))
               (clear_if_set (presenceInterval s) s))
      with (intervals_cleared s)
      by (unfold intervals_cleared; destruct (presenceInterval s); reflexivity).
    destruct (shouldReconnect loggedOut (lastDisconnect update)); cbn; intros t Hin.
    - apply in_app_or in Hin. destruct Hin as [Hin|[<-|[]]]; [now apply Hclear | reflexivity].
    - now apply Hclear. }
  unfold maintenance_timers.
  induction (timers (handleConnectionUpdate config loggedOut update sock s))
    as [|t ts IH]; [reflexivity|].
  cbn. rewrite (Hall t (or_introl eq_refl)). apply IH.
  intros u Hu. apply Hall. now right.
Qed.

End Maintenance.

(** ** Maintenance timers and close events *)

(** C9 fails on the code.  Socket 0 opens at time 0 and
    [handleConnectionUpdate] awaits the subscription priming; the socket
    closes at 100, when no maintenance timer exists yet; the priming call
    is rejected at 150 and the resumed handler starts both intervals on the
    closed socket: a heartbeat is sent at 150 and again at 60150, after
    the restart timer of the close event has fired. *)
Theorem heartbeat_after_close :
  let look evs :=
    option_map (fun s => (clock s, times_of O is_presence s,
                          map t_callback (maintenance_timers s)))
      (run sample_config 401 1000 evs (boot sample_config)) in
  look closed_while_priming = Some (100, [], [])
  /\ look (closed_while_priming ++ priming_rejected)
     = Some (150, [150], [CbUpdatePresence O; CbStatusSync O])
  /\ look (closed_while_priming ++ priming_rejected ++ one_minute_later)
     = Some (60150, [150; 60150], [CbUpdatePresence O; CbStatusSync O]).
Proof.
  cbv zeta. repeat split; vm_compute; reflexivity.
Qed.

(** When the open handler has run to its end before the close (status
    viewing is off here, so it is resumed at once) the scenario of the spec
    goes as it says: heartbeats at 0 and 60000, none pending after the
    close at 90000. *)
Lemma heartbeat_open_minute_close :
  option_map (fun s => (clock s, times_of O is_presence s, maintenance_timers s))
    (run config_no_status 401 1000 open_minute_close (boot config_no_status))
  = Some (90000, [0; 60000], []).
Proof. vm_compute. reflexivity. Qed.

(** * Further properties *)

(** ** Phone numbers and user names *)

Lemma string_filter_all (p : ascii -> bool) (s : string) :
  JS.string_forall p (JS.string_filter p s) = true.
Proof.
  induction s as [|c s IH]; cbn; [reflexivity|].
  destruct (p c) eqn:E; cbn; [now rewrite E | exact IH].
Qed.

Lemma string_filter_id (p : ascii -> bool) (s : string) :
  JS.string_forall p s = true -> JS.string_filter p s = s.
Proof.
  induction s as [|c s IH]; cbn; [reflexivity|].
  destruct (p c); cbn; [|discriminate]. intros H. now rewrite IH.
Qed.

Lemma string_filter_length (p : ascii -> bool) (s : string) :
  (String.length (JS.string_filter p s) <= String.length s)%nat.
Proof.
  induction s as [|c s IH]; cbn; [lia|]. destruct (p c); cbn; lia.
Qed.

(** X1: [formatPhoneNumber] returns decimal digits only, never more
    characters than it was given, leaves a string of digits as it is and
    is therefore idempotent. *)
Theorem formatPhoneNumber_digits (phone : string) :
  JS.string_forall JS.is_digit (formatPhoneNumber phone) = true
  /\ (String.length (formatPhoneNumber phone) <= String.length phone)%nat
  /\ formatPhoneNumber (formatPhoneNumber phone) = formatPhoneNumber phone
  /\ (JS.string_forall JS.is_digit phone = true -> formatPhoneNumber phone = phone).
Proof.
  unfold formatPhoneNumber. split; [apply string_filter_all|].
  split; [apply string_filter_length|]. split.
  - apply string_filter_id, string_filter_all.
  - apply string_filter_id.
Qed.

Lemma formatPhoneNumber_digits_witness :
  JS.string_forall JS.is_digit "254712345678" = true
  /\ formatPhoneNumber "254712345678" = "254712345678".
Proof.
  split; [reflexivity|].
  exact (proj2 (proj2 (proj2 (formatPhoneNumber_digits "254712345678"))) eq_refl).
Defined.

Lemma before_first_free (c : ascii) (s : string) :
  free_of c (JS.before_first c s) = true.
Proof.
  unfold free_of. induction s as [|x s IH]; cbn; [reflexivity|].
  destruct (Ascii.eqb x c) eqn:E; cbn; [reflexivity|]. now rewrite E.
Qed.

Lemma before_first_app (c : ascii) (name rest : string) :
  free_of c name = true ->
  JS.before_first c (String.append name (String c rest)) = name.
Proof.
  unfold free_of. induction name as [|x name IH]; cbn.
  - now rewrite Ascii.eqb_refl.
  - destruct (Ascii.eqb x c); cbn; [discriminate|]. intros H. now rewrite IH.
Qed.

(** X2: [extractUsername] never returns the empty string and never a
    string with an "@"; for a jid [name@rest] with a non-empty [name] it
    returns [name], and for a missing jid or one that starts with "@" it
    returns "Unknown". *)
Theorem extractUsername_name (jid : option string) :
  extractUsername jid <> ""
  /\ free_of "@" (extractUsername jid) = true
  /\ (forall name rest : string,
        name <> "" -> free_of "@" name = true ->
        jid = Some (String.append name (String "@" rest)) ->
        extractUsername jid = name)
  /\ (forall rest : string,
        jid = None \/ jid = Some (String "@" rest) -> extractUsername jid = "Unknown").
Proof.
  unfold extractUsername. split; [|split; [|split]].
  - destruct jid as [j|]; [|discriminate].
    destruct (JS.before_first "@" j); discriminate.
  - destruct jid as [j|]; [|reflexivity].
    pose proof (before_first_free "@" j) as H.
    destruct (JS.before_first "@" j); [reflexivity | exact H].
  - intros name rest Hn Hf ->. rewrite (before_first_app _ _ _ Hf).
    destruct name; [contradiction | reflexivity].
  - intros rest [->| ->]; reflexivity.
Qed.

Lemma extractUsername_name_witness :
  extractUsername (Some "254711111111@s.whatsapp.net") = "254711111111".
Proof.
  apply (proj1 (proj2 (proj2 (extractUsername_name
                                (Some "254711111111@s.whatsapp.net"))))
           "254711111111" "s.whatsapp.net").
  - discriminate.
  - reflexivity.
  - reflexivity.
Defined.

(** ** Configuration *)

Lemma truthy_string_Some (v : option string) (x : string) :
  JS.truthy_string v = Some x <-> v = Some x /\ x <> "".
Proof.
  destruct v as [[|c r]|]; cbn; split; try discriminate.
  - intros [[= <-] H]. contradiction.
  - intros [= <-]. split; [reflexivity | discriminate].
  - now intros [-> _].
  - intros [[=] _].
Qed.

Lemma truthy_number_Some (v : option Z) (d : Z) :
  JS.truthy_number v = Some d <-> v = Some d /\ d <> 0.
Proof.
  destruct v as [[|p|p]|]; cbn; split; try discriminate.
  - intros [[= <-] H]. contradiction.
  - intros [= <-]. split; [reflexivity | discriminate].
  - now intros [-> _].
  - intros [= <-]. split; [reflexivity | discriminate].
  - now intros [-> _].
  - intros [[=] _].
Qed.

(** X3: [validateConfig] returns normally exactly when [botName] is a
    non-empty string, [ownerNumber] is a string of 10 to 15 decimal digits
    and [reconnectDelay] is a number other than 0; a missing key is
    reported before the format of the owner number is looked at. *)
Theorem validateConfig_accepts (config : Config) :
  (validateConfig config = JS.Normal tt
   <-> (exists name, botName config = Some name /\ name <> "")
       /\ (exists owner, ownerNumber config = Some owner
                         /\ JS.digits_10_15 owner = true)
       /\ (exists delay, reconnectDelay config = Some delay /\ delay <> 0))
  /\ (validateConfig config = JS.Throw "Invalid owner number format"
      <-> (exists name, botName config = Some name /\ name <> "")
          /\ (exists owner, ownerNumber config = Some owner /\ owner <> ""
                            /\ JS.digits_10_15 owner = false)
          /\ (exists delay, reconnectDelay config = Some delay /\ delay <> 0)).
Proof.
  unfold validateConfig, required, config_truthy. cbn.
  destruct (JS.truthy_string (botName config)) as [name|] eqn:Eb;
  destruct (JS.truthy_string (ownerNumber config)) as [owner|] eqn:Eo;
  destruct (JS.truthy_number (reconnectDelay config)) as [delay|] eqn:Ed; cbn.
  all: try rewrite Eo.
  2-8: split; (split; [discriminate|]);
       intros ((n & Hn) & (o & Ho & Hd) & (d & Hdl));
       apply truthy_string_Some in Hn; apply truthy_number_Some in Hdl;
       try congruence;
       (assert (Ho' : JS.truthy_string (ownerNumber config) = Some o)
          by (apply truthy_string_Some; split; [exact Ho|];
              try exact (proj1 Hd); intros ->; discriminate));
       congruence.
  apply truthy_string_Some in Eb, Eo. apply truthy_number_Some in Ed.
  destruct Eo as [Eo Hne].
  destruct (JS.digits_10_15 owner) eqn:E; cbn; split; split; try discriminate;
    intros H; try reflexivity.
  all: try (split; [now exists name|];
            split; [exists owner; repeat split; assumption | now exists delay]).
  all: destruct H as (_ & (o & Ho & Hd) & _); rewrite Eo in Ho; injection Ho as <-;
    try match type of Hd with _ /\ _ => destruct Hd as [_ Hd] end; congruence.
Qed.

(** ** Every turn is a sequence of elementary changes *)

Section MayStep.

Variable config : Config.
Variable loggedOut : Z.
Variable capacity : nat.

Local Abbreviation may := (may capacity).

Lemma may_clear_if_set (h : option TimerId) (s : State) : may s (clear_if_set h s).
Proof. destruct h; [apply may_clearInterval | apply may_refl]. Qed.

Ltac other := apply may_other; [apply Z.le_refl | reflexivity ..].

Ltac peel :=
  lazymatch goal with
  | |- may ?s ?s => apply may_refl
  | |- may ?s (print ?l ?x) => apply (may_trans _ s x); [|apply may_emit; exact I]
  | |- may ?s (call ?k ?c ?x) => apply (may_trans _ s x); [|apply may_emit; exact I]
  | |- may ?s (emit ?e ?x) => apply (may_trans _ s x); [|apply may_emit; exact I]
  | |- may ?s (snd (setTimeout ?cb ?d ?x)) =>
      apply (may_trans _ s x); [|apply may_setTimeout]
  | |- may ?s (snd (setInterval ?cb ?d ?x)) =>
      apply (may_trans _ s x); [|apply may_setInterval]
  | |- may ?s (clear_if_set ?h ?x) =>
      apply (may_trans _ s x); [|apply may_clear_if_set]
  | |- may ?s (put_task ?k ?t ?x) => apply (may_trans _ s x); [|other]
  | |- may ?s (drop_task ?k ?x) => apply (may_trans _ s x); [|other]
  | |- may ?s (snd (spawn ?t ?x)) => apply (may_trans _ s x); [|other]
  | |- may ?s (with_retryAttempts 0 ?x) => apply (may_trans _ s x); [|apply may_reset]
  | |- may ?s (with_exited (Some 0) ?x) => apply (may_trans _ s x); [|apply may_exit]
  | |- may ?s (with_sockets ?v ?x) => apply (may_trans _ s x); [|other]
  | |- may ?s (with_listening ?v ?x) => apply (may_trans _ s x); [|other]
  | |- may ?s (with_presenceInterval ?v ?x) => apply (may_trans _ s x); [|other]
  | |- may ?s (with_statusSyncInterval ?v ?x) => apply (may_trans _ s x); [|other]
  | |- may ?s (if ?c then _ else _) => destruct c
  | |- may ?s (match ?c with _ => _ end) => destruct c
  end.

Lemma may_observeOnce (statusId : string) (s : State) :
  may s (snd (observeOnce capacity statusId s)).
Proof.
  unfold observeOnce.
  destruct (JS.has statusId (viewedStatus s)) eqn:E; cbn [snd]; [apply may_refl|].
  peel. exact (may_insert capacity statusId s E).
Qed.

Lemma may_handleStatusView (net : Net) (sock : SockId) (msg : Message) (s : State) :
  may s (handleStatusView config capacity net sock msg s).
Proof.
  unfold handleStatusView.
  pose proof (may_observeOnce (key_id (key msg)) s) as H.
  destruct (observeOnce capacity (key_id (key msg)) s) as [isNew o]. cbn [snd] in H.
  destruct isNew; cbn [negb]; [|exact H].
  repeat peel; exact H.
Qed.

Lemma may_handleAntiDelete (net : Net) (sock : SockId) (msg : Message) (s : State) :
  may s (handleAntiDelete config net sock msg s).
Proof. unfold handleAntiDelete. repeat peel. Qed.

Lemma may_handleIncomingMessages (net : Net) (sock : SockId)
    (messages : list Message) (s : State) :
  may s (handleIncomingMessages config capacity net sock messages s).
Proof.
  unfold handleIncomingMessages.
  destruct messages as [|msg rest]; [apply may_refl|].
  destruct (message msg); [|apply may_refl].
  assert (H : may s
                (if (is_status_broadcast (key_remoteJid (key msg))
                     && autoViewStatus config)%bool
                 then handleStatusView config capacity net sock msg s else s)).
  { destruct (_ && _)%bool; [apply may_handleStatusView | apply may_refl]. }
  destruct (antiDelete config); [|exact H].
  eapply may_trans; [exact H | apply may_handleAntiDelete].
Qed.

Lemma may_startPresenceUpdates (sock : SockId) (s : State) :
  may s (startPresenceUpdates sock s).
Proof.
  change (startPresenceUpdates sock s)
    with (with_presenceInterval
            (Some (nextTimer (updatePresence sock (clear_if_set (presenceInterval s) s))))
            (snd (setInterval (CbUpdatePresence sock) PRESENCE_UPDATE_INTERVAL
                    (updatePresence sock (clear_if_set (presenceInterval s) s))))).
  unfold updatePresence. repeat peel.
Qed.

Lemma may_startStatusSync (sock : SockId) (s : State) :
  may s (startStatusSync config sock s).
Proof.
  unfold startStatusSync. destruct (negb (autoViewStatus config)); [apply may_refl|].
  change (may s
            (with_statusSyncInterval
               (Some (nextTimer (clear_if_set (statusSyncInterval s) s)))
               (snd (setInterval (CbStatusSync sock) STATUS_SYNC_INTERVAL
                       (clear_if_set (statusSyncInterval s) s))))).
  repeat peel.
Qed.

Lemma may_opened (sock : SockId) (s : State) :
  may s (handleConnectionUpdate_opened config sock s).
Proof.
  unfold handleConnectionUpdate_opened.
  eapply may_trans; [apply may_startPresenceUpdates | apply may_startStatusSync].
Qed.

Lemma may_handleConnectionUpdate (update : Update) (sock : SockId) (s : State) :
  may s (handleConnectionUpdate config loggedOut update sock s).
Proof.
  unfold handleConnectionUpdate, initializeStatusViewing.
  destruct (connection update) as [[| |]|]; try apply may_refl.
  - cbv zeta. repeat peel.
  - cbv zeta. destruct (negb (autoViewStatus config)); repeat peel.
Qed.

Lemma may_startBot_catch (message : string) (s : State) :
  may s (startBot_catch config message s).
Proof. unfold startBot_catch. cbv zeta. repeat peel. Qed.

Lemma may_startBot (s : State) : may s (startBot config s).
Proof.
  unfold startBot. destruct (validateConfig config);
    [repeat peel | apply may_startBot_catch].
Qed.

Lemma may_getPairingCode (k : TaskId) (sock : SockId) (s : State) :
  may s (outcome_state (getPairingCode config k sock s)).
Proof. unfold getPairingCode, outcome_state. cbv zeta. repeat peel. Qed.

Lemma may_getPairingCode_catch (k : TaskId) (sock : SockId) (message : string)
    (s : State) :
  may s (outcome_state (getPairingCode_catch k sock message s)).
Proof.
  unfold getPairingCode_catch. cbv zeta.
  destruct (Z.ltb_spec (retryAttempts (print (LogPairingError message) s))
              MAX_RETRY_ATTEMPTS) as [H|H]; cbn [outcome_state]; [|repeat peel].
  do 3 peel. eapply may_trans; [|apply may_retry; exact H]. repeat peel.
Qed.

Lemma valid_phone_digits (answer : string) :
  valid_phone (formatPhoneNumber answer) = true ->
  JS.digits_10_15 (formatPhoneNumber answer) = true.
Proof.
  unfold valid_phone, JS.digits_10_15, formatPhoneNumber.
  rewrite string_filter_all. cbn [andb].
  set (n := String.length (JS.string_filter JS.is_digit answer)).
  intros H. apply negb_true_iff in H.
  apply orb_false_iff in H. destruct H as [H H2].
  apply orb_false_iff in H. destruct H as [_ H1].
  apply Nat.ltb_ge in H1, H2. apply andb_true_iff. split; now apply Nat.leb_le.
Qed.

Lemma may_getPairingCode_resume (k : TaskId) (sock : SockId) (at_ : PairingPoint)
    (w : Wake) (s : State) (o : Outcome) :
  getPairingCode_resume config k sock at_ w s = Some o ->
  may s (outcome_state o).
Proof.
  unfold getPairingCode_resume.
  destruct at_ as [| |phoneNumber|]; destruct w as [|[[|answer|]|message]];
    try discriminate.
  - intros [= <-]. cbn [outcome_state]. repeat peel.
  - destruct (valid_phone (formatPhoneNumber answer)) eqn:E; cbn [negb]; intros [= <-].
    + cbn [outcome_state]. peel. unfold call.
      apply may_emit. exact (valid_phone_digits answer E).
    + apply may_getPairingCode_catch.
  - intros [= <-]. cbn [outcome_state]. repeat peel.
  - intros [= <-]. apply may_getPairingCode_catch.
  - intros [= <-]. apply may_getPairingCode.
Qed.

Lemma may_startBot_listen (sock : SockId) (s : State) :
  may s (startBot_listen sock s).
Proof. unfold startBot_listen. cbv zeta. repeat peel. Qed.

Lemma may_startBot_paired (k : TaskId) (sock : SockId) (o : Outcome) :
  may (outcome_state o) (startBot_paired config k sock o).
Proof.
  destruct o as [s|s|message s]; cbn [outcome_state startBot_paired].
  - apply may_refl.
  - eapply may_trans; [|apply may_startBot_listen]. repeat peel.
  - eapply may_trans; [|apply may_startBot_catch]. repeat peel.
Qed.

Lemma may_startBot_connect (net : Net) (k : TaskId) (registered : bool) (s : State) :
  may s (startBot_connect config net k registered s).
Proof.
  unfold startBot_connect. cbv zeta. destruct (negb (construct_ok net)).
  - eapply may_trans; [|apply may_startBot_catch]. repeat peel.
  - destruct (negb registered).
    + eapply may_trans; [|apply may_startBot_paired].
      eapply may_trans; [|apply may_getPairingCode]. repeat peel.
    + eapply may_trans; [|apply may_startBot_listen]. repeat peel.
Qed.

Lemma may_resume (net : Net) (k : TaskId) (t : Task) (w : Wake) (s s' : State) :
  resume config net k t w s = Some s' -> may s s'.
Proof.
  unfold resume. destruct t as [|registered|sock at_|sock|sock].
  - destruct w as [|[[| |registered]|message]]; try discriminate; intros [= <-].
    + repeat peel.
    + eapply may_trans; [|apply may_startBot_catch]. repeat peel.
  - destruct w as [|[v|message]]; try discriminate; intros [= <-].
    + apply may_startBot_connect.
    + eapply may_trans; [|apply may_startBot_catch]. repeat peel.
  - destruct (getPairingCode_resume config k sock at_ w s) as [o|] eqn:E;
      [|discriminate].
    intros [= <-]. eapply may_trans; [|apply may_startBot_paired].
    eapply may_getPairingCode_resume. exact E.
  - destruct w as [|r]; try discriminate. intros [= <-].
    eapply may_trans; [|apply may_opened].
    unfold initializeStatusViewing_settled. destruct r; repeat peel.
  - destruct w as [|[[| |]|]]; try discriminate. intros [= <-].
    eapply may_trans; [|apply may_opened]. repeat peel.
Qed.

(** Every turn of the event loop is a sequence of the changes of
    [may]. *)
Lemma may_step (net : Net) (e : Event) (s s' : State) :
  step config loggedOut capacity net e s = Some s' -> may s s'.
Proof.
  unfold step. destruct (exited s) as [code|].
  { intros [= <-]. apply may_refl. }
  destruct e as [ms|h|k r|sock update|sock messages].
  - destruct (Z.leb_spec 0 ms) as [Hms|]; [|discriminate]. cbn [andb].
    destruct (forallb _ _); [|discriminate]. intros [= <-].
    apply may_other; try reflexivity. cbn. lia.
  - destruct (find_timer h s) as [t|]; [|discriminate].
    destruct (Z.leb (t_due t) (clock s)); [|discriminate].
    intros Hr. eapply may_trans; [apply (may_rearm capacity t)|].
    revert Hr. destruct (t_callback t) as [|statusId|sock|sock|k]; cbn.
    + intros [= <-]. apply may_startBot.
    + intros [= <-]. apply may_delete.
    + intros [= <-]. unfold updatePresence. repeat peel.
    + intros [= <-]. unfold statusSync_tick. cbv zeta. repeat peel.
    + destruct (find_task k (rearm t s)) as [task|]; [|discriminate].
      apply may_resume.
  - destruct (find_task k s) as [t|]; [|discriminate]. apply may_resume.
  - destruct (is_listening sock s); intros [= <-];
      [apply may_handleConnectionUpdate | apply may_refl].
  - destruct (is_listening sock s); intros [= <-];
      [apply may_handleIncomingMessages | apply may_refl].
Qed.

Lemma may_run (evs : list (Net * Event)) :
  forall s s', run config loggedOut capacity evs s = Some s' -> may s s'.
Proof.
  induction evs as [|[net e] evs IH]; intros s s' Hr; cbn in Hr.
  - injection Hr as <-. apply may_refl.
  - destruct (step config loggedOut capacity net e s) as [s1|] eqn:Es; [|discriminate].
    eapply may_trans; [eapply may_step; exact Es | now apply IH].
Qed.

Lemma may_boot : may fresh (boot config).
Proof. apply may_startBot. Qed.

End MayStep.

(** ** Invariants of every run *)

Section RunInvariants.

Variable config : Config.
Variable loggedOut : Z.
Variable capacity : nat.

Lemma retryAttempts_rearm (t : Timer) (s : State) :
  retryAttempts (rearm t s) = retryAttempts s.
Proof. unfold rearm. now destruct (t_every t). Qed.

Lemma effects_rearm (t : Timer) (s : State) : effects (rearm t s) = effects s.
Proof. unfold rearm. now destruct (t_every t). Qed.

Lemma nextTimer_rearm (t : Timer) (s : State) : nextTimer (rearm t s) = nextTimer s.
Proof. unfold rearm. now destruct (t_every t). Qed.

Lemma may_retry_bounds (s s' : State) :
  may capacity s s' ->
  0 <= retryAttempts s <= MAX_RETRY_ATTEMPTS ->
  0 <= retryAttempts s' <= MAX_RETRY_ATTEMPTS.
Proof.
  induction 1; intros Hb; auto; cbn; try exact Hb;
    rewrite ?retryAttempts_rearm; unfold MAX_RETRY_ATTEMPTS in *; lia.
Qed.

Lemma may_effects_wf (s s' : State) :
  may capacity s s' ->
  Forall (fun e => wf_effect (snd e)) (effects s) ->
  Forall (fun e => wf_effect (snd e)) (effects s').
Proof.
  induction 1; intros Hf; auto; cbn; rewrite ?effects_rearm; try exact Hf.
  all: try match goal with H : effects _ = effects _ |- _ => now rewrite H end.
  apply Forall_app. split; [exact Hf|]. now constructor.
Qed.

Lemma may_cache (s s' : State) :
  may capacity s s' ->
  NoDup (viewedStatus s) /\ (JS.size (viewedStatus s) <= capacity)%nat ->
  NoDup (viewedStatus s') /\ (JS.size (viewedStatus s') <= capacity)%nat.
Proof.
  induction 1; intros [Hn Hs]; auto; cbn; rewrite ?viewedStatus_rearm;
    try (split; assumption).
  all: try match goal with
           | H : viewedStatus _ = viewedStatus _ |- _ => rewrite H; now split
           end.
  - split; [apply NoDup_cleanupViewedStatus; now apply SetFacts.NoDup_add
           | apply cleanupViewedStatus_size].
  - split; [now apply SetFacts.NoDup_delete|].
    pose proof (SetFacts.size_delete_le statusId (viewedStatus s)).
    unfold JS.size, JS.delete in *. lia.
Qed.

Lemma map_id_rearm (t : Timer) (s : State) :
  t_every t <> None -> map t_id (timers (rearm t s)) = map t_id (timers s).
Proof.
  unfold rearm. destruct (t_every t) as [period|]; [intros _|congruence]. cbn.
  rewrite map_map. apply map_ext. intros u. now destruct (Nat.eqb (t_id u) (t_id t)).
Qed.

Lemma NoDup_map_filter (A : Type) (f : A -> nat) (p : A -> bool) (l : list A) :
  NoDup (map f l) -> NoDup (map f (filter p l)).
Proof.
  induction l as [|x l IH]; cbn; [trivial|]. intros Hn. inversion Hn as [|? ? Hx Hl]; subst.
  destruct (p x); cbn; [|now apply IH]. constructor; [|now apply IH].
  intros Hin. apply Hx. apply in_map_iff in Hin. destruct Hin as (y & Hy & Hin).
  apply filter_In in Hin. apply in_map_iff. exists y. tauto.
Qed.

Lemma fresh_clearInterval (h : TimerId) (s : State) :
  handles_fresh s -> handles_fresh (clearInterval h s).
Proof.
  intros [Hn Hb]. split; cbn.
  - now apply NoDup_map_filter.
  - intros t Hin. apply filter_In in Hin. now apply Hb.
Qed.

Lemma fresh_add (t : Timer) (s : State) :
  handles_fresh s -> t_id t = nextTimer s ->
  handles_fresh (with_nextTimer (S (nextTimer s)) (with_timers (timers s ++ [t]) s)).
Proof.
  intros [Hn Hb] Hid. split; cbn.
  - rewrite map_app. cbn. apply NoDup_app; [exact Hn | repeat constructor; cbn; tauto|].
    intros x Hx [<-|[]]. apply in_map_iff in Hx. destruct Hx as (u & Hu & Hin).
    specialize (Hb u Hin). lia.
  - intros u Hin. apply in_app_or in Hin. destruct Hin as [Hin|[<-|[]]].
    + specialize (Hb u Hin). lia.
    + lia.
Qed.

Lemma may_handles_fresh (s s' : State) :
  may capacity s s' -> handles_fresh s -> handles_fresh s'.
Proof.
  induction 1; intros Hf; auto; try exact Hf.
  - destruct Hf as [Hn Hb]. unfold handles_fresh.
    match goal with H : timers _ = timers _ |- _ => rewrite H end.
    match goal with H : nextTimer _ = nextTimer _ |- _ => rewrite H end.
    now split.
  - now apply fresh_add.
  - now apply fresh_add.
  - now apply fresh_clearInterval.
  - unfold rearm. destruct (t_every t) as [period|] eqn:E;
      [|now apply fresh_clearInterval].
    destruct Hf as [Hn Hb]. split.
    + cbn. rewrite map_map.
      erewrite map_ext; [exact Hn|]. intros u. now destruct (Nat.eqb (t_id u) (t_id t)).
    + cbn. intros u Hu. apply in_map_iff in Hu. destruct Hu as (v & <- & Hv).
      specialize (Hb v Hv). now destruct (Nat.eqb (t_id v) (t_id t)).
Qed.

Lemma fresh_fresh : handles_fresh fresh.
Proof. split; [constructor | intros t []]. Qed.

End RunInvariants.

(** X4: in every run of the script the retry counter stays between 0
    and [MAX_RETRY_ATTEMPTS]. *)
Theorem retry_counter_bounded
    (config : Config) (loggedOut : Z) (capacity : nat)
    (evs : list (Net * Event)) (s : State) :
  run config loggedOut capacity evs (boot config) = Some s ->
  0 <= retryAttempts s <= MAX_RETRY_ATTEMPTS.
Proof.
  intros Hr. apply (may_retry_bounds capacity fresh).
  - eapply may_trans; [apply may_boot | eapply may_run; exact Hr].
  - cbn. unfold MAX_RETRY_ATTEMPTS. lia.
Qed.

Lemma retry_counter_bounded_witness :
  0 <= retryAttempts (state_after sample_config 401 1000 five_refusals)
    <= MAX_RETRY_ATTEMPTS.
Proof.
  apply (retry_counter_bounded sample_config 401 1000 five_refusals).
  vm_compute. reflexivity.
Defined.

(** X5: in every run of the script, each number passed to
    [sock.requestPairingCode] is a string of 10 to 15 decimal digits. *)
Theorem pairing_requests_are_digits
    (config : Config) (loggedOut : Z) (capacity : nat)
    (evs : list (Net * Event)) (s : State)
    (time : Z) (sock : SockId) (phoneNumber : string) :
  run config loggedOut capacity evs (boot config) = Some s ->
  In (time, Transport sock (RequestPairingCode phoneNumber)) (effects s) ->
  JS.digits_10_15 phoneNumber = true.
Proof.
  intros Hr Hin.
  assert (Hf : Forall (fun e => wf_effect (snd e)) (effects s)).
  { apply (may_effects_wf capacity fresh); [|constructor].
    eapply may_trans; [apply may_boot | eapply may_run; exact Hr]. }
  rewrite Forall_forall in Hf. exact (Hf _ Hin).
Qed.

Lemma pairing_requests_are_digits_witness :
  JS.digits_10_15 "254712345678" = true.
Proof.
  apply (pairing_requests_are_digits sample_config 401 1000
           (unregistered_bootstrap ++ [(all_ok, Elapse 10000); (all_ok, Fire O);
              (all_ok, Settles O (Resolved (VText "+254 712 345 678")))])
           (state_after sample_config 401 1000
              (unregistered_bootstrap ++ [(all_ok, Elapse 10000); (all_ok, Fire O);
                 (all_ok, Settles O (Resolved (VText "+254 712 345 678")))]))
           10000 O "254712345678").
  - vm_compute. reflexivity.
  - vm_compute. right. right. right. now left.
Defined.

(** X6: in every run of the script the dedup cache holds no id twice and
    never more than [MAX_VIEWED_STATUS_SIZE] ids. *)
Theorem cache_bounded_in_every_state
    (config : Config) (loggedOut : Z) (capacity : nat)
    (evs : list (Net * Event)) (s : State) :
  run config loggedOut capacity evs (boot config) = Some s ->
  NoDup (viewedStatus s) /\ (JS.size (viewedStatus s) <= capacity)%nat.
Proof.
  intros Hr. apply (may_cache capacity fresh).
  - eapply may_trans; [apply may_boot | eapply may_run; exact Hr].
  - split; [constructor | cbn; lia].
Qed.

Lemma cache_bounded_in_every_state_witness :
  (JS.size (viewedStatus
              (state_after sample_config 401 3
                 (registered_bootstrap ++ [sees "a"; sees "b"; sees "c"; sees "d"])))
   <= 3)%nat.
Proof.
  apply (cache_bounded_in_every_state sample_config 401 3
           (registered_bootstrap ++ [sees "a"; sees "b"; sees "c"; sees "d"])).
  vm_compute. reflexivity.
Defined.

(** ** Leaving the process *)

Section Exit.

Variable config : Config.
Variable loggedOut : Z.
Variable capacity : nat.

Ltac crush_same :=
  repeat first
    [ reflexivity
    | match goal with
      | |- context [match ?x with _ => _ end] => destruct x
      end ].

Lemma exited_rearm (t : Timer) (s : State) : exited (rearm t s) = exited s.
Proof. unfold rearm. now destruct (t_every t). Qed.

Lemma exited_startBot (s : State) : exited (startBot config s) = exited s.
Proof. unfold startBot. now destruct (validateConfig config). Qed.

Lemma exited_opened (sock : SockId) (s : State) :
  exited (handleConnectionUpdate_opened config sock s) = exited s.
Proof.
  unfold handleConnectionUpdate_opened, startStatusSync, startPresenceUpdates,
    clear_if_set.
  destruct (negb (autoViewStatus config)); cbn; crush_same.
Qed.

Lemma exited_outcome (k : TaskId) (sock : SockId) (at_ : PairingPoint) (w : Wake)
    (s : State) (o : Outcome) :
  getPairingCode_resume config k sock at_ w s = Some o ->
  exited (startBot_paired config k sock o) = exited s.
Proof.
  unfold getPairingCode_resume, getPairingCode_catch, getPairingCode.
  destruct at_; destruct w as [|[[| |]|]]; try discriminate;
    try (intros [= <-]; reflexivity).
  - destruct (negb (valid_phone _)); [|intros [= <-]; reflexivity].
    cbn. destruct (Z.ltb _ _); intros [= <-]; reflexivity.
  - cbn. destruct (Z.ltb _ _); intros [= <-]; reflexivity.
Qed.

Lemma exited_resume (net : Net) (k : TaskId) (t : Task) (w : Wake) (s s' : State) :
  resume config net k t w s = Some s' -> exited s' = exited s.
Proof.
  unfold resume. destruct t as [|registered|sock at_|sock|sock].
  - destruct w as [|[[| |]|]]; try discriminate; intros [= <-]; reflexivity.
  - destruct w as [|[|]]; try discriminate; intros [= <-]; [|reflexivity].
    unfold startBot_connect. destruct (negb (construct_ok net)); [reflexivity|].
    destruct (negb registered); reflexivity.
  - destruct (getPairingCode_resume config k sock at_ w s) as [o|] eqn:E; [|discriminate].
    intros [= <-]. eapply exited_outcome; eassumption.
  - destruct w as [|r]; try discriminate. intros [= <-].
    rewrite exited_opened. now destruct r.
  - destruct w as [|[[| |]|]]; try discriminate. intros [= <-].
    now rewrite exited_opened.
Qed.

Lemma exited_handleIncomingMessages (net : Net) (sock : SockId)
    (messages : list Message) (s : State) :
  exited (handleIncomingMessages config capacity net sock messages s) = exited s.
Proof.
  assert (Hs : forall msg x,
             exited (handleStatusView config capacity net sock msg x) = exited x).
  { intros msg x. unfold handleStatusView, observeOnce.
    destruct (JS.has (key_id (key msg)) (viewedStatus x)); cbn; crush_same. }
  assert (Ha : forall msg x,
             exited (handleAntiDelete config net sock msg x) = exited x).
  { intros msg x. unfold handleAntiDelete. crush_same. }
  unfold handleIncomingMessages.
  destruct messages as [|msg rest]; [reflexivity|].
  destruct (message msg); [|reflexivity].
  destruct (antiDelete config); [rewrite Ha|];
    (destruct (_ && _)%bool; [apply Hs | reflexivity]).
Qed.

(** Only a close notification carrying the logged-out code ends the
    process, and it ends it with status 0. *)
Lemma exited_step (net : Net) (e : Event) (s s' : State) :
  step config loggedOut capacity net e s = Some s' ->
  exited s' = exited s
  \/ (logs_out loggedOut e = true /\ exited s' = Some 0).
Proof.
  unfold step. destruct (exited s) as [code|] eqn:Ex.
  { intros [= <-]. left. exact Ex. }
  destruct e as [ms|h|k r|sock update|sock messages].
  - destruct (_ && _)%bool; [|discriminate]. intros [= <-]. now left.
  - destruct (find_timer h s) as [t|]; [|discriminate].
    destruct (Z.leb (t_due t) (clock s)); [|discriminate].
    destruct (t_callback t) as [|statusId|sock|sock|k]; cbn.
    + intros [= <-]. left. now rewrite exited_startBot, exited_rearm.
    + intros [= <-]. left. cbn. now rewrite exited_rearm.
    + intros [= <-]. left. cbn. now rewrite exited_rearm.
    + intros [= <-]. left. unfold statusSync_tick.
      destruct (transport_ok net sock _); cbn; now rewrite exited_rearm.
    + destruct (find_task k (rearm t s)) as [task|]; [|discriminate].
      intros Hr. left. rewrite (exited_resume _ _ _ _ _ _ Hr). now rewrite exited_rearm.
  - destruct (find_task k s) as [t|]; [|discriminate].
    intros Hr. left. rewrite (exited_resume _ _ _ _ _ _ Hr). exact Ex.
  - destruct (is_listening sock s); intros [= <-]; [|now left].
    unfold handleConnectionUpdate, logs_out, carries_loggedOut, shouldReconnect,
      initializeStatusViewing.
    destruct (connection update) as [[| |]|]; try (now left).
    + assert (Hc : exited (clear_if_set
                             (statusSyncInterval (clear_if_set (presenceInterval s) s))
                             (clear_if_set (presenceInterval s) s)) = None).
      { rewrite <- Ex. unfold clear_if_set.
        destruct (presenceInterval s); cbn; destruct (statusSyncInterval s); reflexivity. }
      destruct (lastDisconnect update) as [[[[code|]|]]|]; cbn;
        try (left; exact Hc).
      destruct (Z.eqb code loggedOut); cbn; [now right | left; exact Hc].
    + left. destruct (negb (autoViewStatus config)); now rewrite <- Ex.
  - destruct (is_listening sock s); intros [= <-]; left; [|exact Ex].
    now rewrite exited_handleIncomingMessages.
Qed.

End Exit.

(** X7: the script leaves the process only through line 253.  In a run
    without a close notification that carries the logged-out code the
    process is still alive at the end; and whenever it has exited, the
    status is 0. *)
Theorem exits_only_when_logged_out
    (config : Config) (loggedOut : Z) (capacity : nat)
    (evs : list (Net * Event)) (s : State) :
  run config loggedOut capacity evs (boot config) = Some s ->
  (forallb (fun ne => negb (logs_out loggedOut (snd ne))) evs = true ->
   exited s = None)
  /\ (forall code, exited s = Some code -> code = 0).
Proof.
  assert (Hb : exited (boot config) = None) by apply exited_startBot.
  revert Hb. generalize (boot config) as s0. revert s.
  induction evs as [|[net e] evs IH]; intros s s0 Hb Hr; cbn in Hr.
  - injection Hr as <-. split; [intros _; exact Hb | congruence].
  - destruct (step config loggedOut capacity net e s0) as [s1|] eqn:Es; [|discriminate].
    destruct (exited_step config loggedOut capacity net e s0 s1 Es) as [He|[Hl He]].
    + rewrite Hb in He. destruct (IH s s1 He Hr) as [H1 H2]. split; [|exact H2].
      cbn. intros Hall. apply andb_true_iff in Hall. now apply H1.
    + pose proof (run_exited config loggedOut capacity evs s1 0 He) as Hs.
      rewrite Hr in Hs. injection Hs as ->. split.
      * cbn. rewrite Hl. discriminate.
      * congruence.
Qed.

Lemma exits_only_when_logged_out_witness :
  exited (state_after sample_config 401 1000 reconnect_cycle) = None.
Proof.
  apply (exits_only_when_logged_out sample_config 401 1000 reconnect_cycle).
  - vm_compute. reflexivity.
  - vm_compute. reflexivity.
Defined.

(** ** Maintenance intervals *)

Lemma at_most_one (A : Type) (f : A -> nat) (p : A -> bool) (l : list A) :
  NoDup (map f l) ->
  (forall x y, In x l -> In y l -> p x = true -> p y = true -> f x = f y) ->
  (List.length (filter p l) <= 1)%nat.
Proof.
  induction l as [|x l IH]; cbn; [lia|]. intros Hn Hsame.
  inversion Hn as [|? ? Hx Hl]; subst.
  destruct (p x) eqn:Ep; [|apply IH; auto].
  assert (He : filter p l = []).
  { destruct (filter p l) as [|y r] eqn:Ef; [reflexivity|].
    assert (Hy : In y (filter p l)) by (rewrite Ef; now left).
    apply filter_In in Hy. destruct Hy as [Hy Hp].
    exfalso. apply Hx. rewrite (Hsame x y); auto. now apply in_map. }
  cbn. rewrite He. cbn. lia.
Qed.

Lemma reachable_tracked_fresh
    (config : Config) (loggedOut : Z) (capacity : nat)
    (evs : list (Net * Event)) (s : State) :
  run config loggedOut capacity evs (boot config) = Some s ->
  maintenance_tracked s /\ handles_fresh s.
Proof.
  intros Hr. split.
  - exact (tracked_run config loggedOut capacity evs _ _ Hr (tracked_boot config)).
  - apply (may_handles_fresh capacity fresh); [|apply fresh_fresh].
    eapply may_trans; [apply may_boot | eapply may_run; exact Hr].
Qed.

(** X8: in every run of the script at most one heartbeat interval and at
    most one status re-subscription interval are pending at any time. *)
Theorem one_interval_of_each_kind
    (config : Config) (loggedOut : Z) (capacity : nat)
    (evs : list (Net * Event)) (s : State) :
  run config loggedOut capacity evs (boot config) = Some s ->
  (List.length (filter (fun t => is_CbUpdatePresence (t_callback t)) (timers s)) <= 1)%nat
  /\ (List.length (filter (fun t => is_CbStatusSync (t_callback t)) (timers s)) <= 1)%nat.
Proof.
  intros Hr.
  destruct (reachable_tracked_fresh config loggedOut capacity evs s Hr) as [Ht [Hn _]].
  split; apply (at_most_one _ t_id); try exact Hn; intros x y Hx Hy Px Py;
    pose proof (Ht x Hx) as Tx; pose proof (Ht y Hy) as Ty;
    destruct (t_callback x); try discriminate;
    destruct (t_callback y); try discriminate; congruence.
Qed.

Lemma one_interval_of_each_kind_witness :
  (List.length
     (filter (fun t => is_CbUpdatePresence (t_callback t))
        (timers (state_after sample_config 401 1000
                   (closed_while_priming ++ priming_rejected ++ one_minute_later))))
   <= 1)%nat.
Proof.
  apply (one_interval_of_each_kind sample_config 401 1000
           (closed_while_priming ++ priming_rejected ++ one_minute_later)).
  vm_compute. reflexivity.
Defined.

Lemma cleared_no_maintenance (s : State) :
  maintenance_tracked s -> maintenance_timers (intervals_cleared s) = [].
Proof.
  intros Hm. unfold maintenance_timers.
  assert (Hall : forall t, In t (timers (intervals_cleared s)) ->
                           is_maintenance (t_callback t) = false).
  { intros t Hin. unfold intervals_cleared, clear_if_set in Hin.
    assert (H : In t (timers s)
                /\ presenceInterval s <> Some (t_id t)
                /\ statusSyncInterval s <> Some (t_id t)).
    { destruct (statusSyncInterval s) as [h2|], (presenceInterval s) as [h1|];
        cbn in Hin; repeat (apply filter_In in Hin; destruct Hin as [Hin ?]);
        repeat split; try assumption; try discriminate;
        intros [= ->]; rewrite Nat.eqb_refl in *; discriminate. }
    destruct H as (Hin0 & Hp & Hs). specialize (Hm t Hin0).
    destruct (t_callback t); try reflexivity; contradiction. }
  induction (timers (intervals_cleared s)) as [|t ts IH]; [reflexivity|].
  cbn. rewrite (Hall t (or_introl eq_refl)). apply IH.
  intros u Hu. apply Hall. now right.
Qed.

Section CloseQuiet.

Variable config : Config.
Variable loggedOut : Z.
Variable capacity : nat.

(** A turn of the event loop that does not resume an open handler adds no
    maintenance interval. *)
Lemma settled_step (net : Net) (e : Event) (s s' : State) :
  step config loggedOut capacity net e s = Some s' ->
  resumes_open e s = false ->
  settled s s'.
Proof.
  assert (Hboot : forall k t w x x',
             is_boot t = true -> resume config net k t w x = Some x' -> settled x x').
  { intros k t w x x' Hb. unfold resume.
    destruct t as [|registered|sock at_|sock|sock]; try discriminate Hb.
    - destruct w as [|[[| |registered]|message]]; try discriminate; intros [= <-].
      + now apply settled_same.
      + eapply settled_trans; [|apply settled_startBot_catch]. now apply settled_same.
    - destruct w as [|[v|message]]; try discriminate; intros [= <-].
      + apply settled_startBot_connect.
      + eapply settled_trans; [|apply settled_startBot_catch]. now apply settled_same.
    - destruct (getPairingCode_resume config k sock at_ w x) as [o|] eqn:E;
        [|discriminate].
      intros [= <-]. eapply settled_trans; [|apply settled_startBot_paired].
      eapply settled_getPairingCode_resume. exact E. }
  unfold step. destruct (exited s) as [code|].
  { intros [= <-] _. apply settled_refl. }
  destruct e as [ms|h|k r|sock update|sock messages]; cbn [resumes_open].
  - destruct (_ && _)%bool; [|discriminate]. intros [= <-] _. now apply settled_same.
  - destruct (find_timer h s) as [t|]; [|discriminate].
    destruct (Z.leb (t_due t) (clock s)); [|discriminate].
    intros Hr _. eapply settled_trans; [apply (settled_rearm t)|].
    revert Hr. destruct (t_callback t) as [|statusId|sock|sock|k]; cbn.
    + intros [= <-]. apply settled_startBot.
    + intros [= <-]. now apply settled_same.
    + intros [= <-]. apply settled_emit.
    + intros [= <-]. unfold statusSync_tick.
      destruct (transport_ok net sock _); now apply settled_same.
    + destruct (find_task k (rearm t s)) as [task|]; [|discriminate].
      destruct (is_boot task) eqn:Eb; [now apply Hboot|].
      destruct task; discriminate.
  - destruct (find_task k s) as [t|]; [|discriminate].
    intros Hr Hn. apply (Hboot k t (Settle r)); [|exact Hr].
    now destruct t.
  - destruct (is_listening sock s); intros [= <-] _; [|apply settled_refl].
    unfold handleConnectionUpdate, initializeStatusViewing.
    destruct (connection update) as [[| |]|]; try apply settled_refl.
    + assert (Hc : settled s
                     (clear_if_set (statusSyncInterval (clear_if_set (presenceInterval s) s))
                        (clear_if_set (presenceInterval s) s))).
      { eapply settled_trans; apply settled_clear_if_set. }
      destruct (shouldReconnect loggedOut (lastDisconnect update)).
      * eapply settled_trans; [|now apply (settled_setTimeout CbStartBot)].
        eapply settled_trans; [exact Hc | apply settled_emit].
      * eapply settled_trans; [exact Hc | now apply settled_same].
    + destruct (negb (autoViewStatus config)); now apply settled_same.
  - destruct (is_listening sock s); intros [= <-] _; [|apply settled_refl].
    apply settled_handleIncomingMessages.
Qed.

Lemma settled_no_maintenance (s s' : State) :
  settled s s' -> maintenance_timers s = [] -> maintenance_timers s' = [].
Proof.
  intros (_ & _ & Ht) Hs. unfold maintenance_timers in *.
  destruct (filter (fun t => is_maintenance (t_callback t)) (timers s')) as [|t' l] eqn:E;
    [reflexivity|].
  assert (Hin : In t' (filter (fun t => is_maintenance (t_callback t)) (timers s')))
    by (rewrite E; now left).
  apply filter_In in Hin. destruct Hin as [Hin Hm].
  destruct (Ht t' Hin Hm) as (t & Hin0 & _ & Hcb).
  assert (H0 : In t (filter (fun t => is_maintenance (t_callback t)) (timers s))).
  { apply filter_In. split; [exact Hin0 | now rewrite Hcb]. }
  rewrite Hs in H0. destruct H0.
Qed.

Lemma quiet_until_open_resumed (evs : list (Net * Event)) :
  forall s s', no_open_resumed config loggedOut capacity evs s = true ->
               run config loggedOut capacity evs s = Some s' ->
               maintenance_timers s = [] -> maintenance_timers s' = [].
Proof.
  induction evs as [|[net e] evs IH]; intros s s' Hq Hr Hm; cbn in Hr, Hq.
  - now injection Hr as <-.
  - destruct (step config loggedOut capacity net e s) as [s1|] eqn:Es; [|discriminate].
    apply andb_true_iff in Hq. destruct Hq as [Hn Hq].
    apply negb_true_iff in Hn.
    apply (IH s1 s' Hq Hr). eapply settled_no_maintenance; [|exact Hm].
    eapply settled_step; eassumption.
Qed.

End CloseQuiet.

(** X9: in every state a run of the script leads to, when the handler of
    a close notification on a listening socket returns, no heartbeat and
    no re-subscription interval is left in the timer table, whatever the
    reason of the close; and none is there afterwards as long as no open
    handler is resumed from its [await] of line 260. *)
Theorem close_handler_leaves_no_maintenance
    (config : Config) (loggedOut : Z) (capacity : nat)
    (evs : list (Net * Event)) (net : Net) (sock : SockId) (update : Update)
    (s : State) :
  run config loggedOut capacity evs (boot config) = Some s ->
  exited s = None ->
  is_listening sock s = true ->
  connection update = Some ConnClose ->
  exists s',
    step config loggedOut capacity net (ConnectionUpdate sock update) s = Some s'
    /\ maintenance_timers s' = []
    /\ forall later s'',
         no_open_resumed config loggedOut capacity later s' = true ->
         run config loggedOut capacity later s' = Some s'' ->
         maintenance_timers s'' = [].
Proof.
  intros Hr Hex Hl Hc. unfold step. rewrite Hex, Hl. eexists. split; [reflexivity|].
  pose proof (close_cancels_maintenance config loggedOut capacity evs s update sock Hr Hc)
    as Hm.
  split; [exact Hm|]. intros later s'' Hq Hrun.
  exact (quiet_until_open_resumed config loggedOut capacity later _ _ Hq Hrun Hm).
Qed.

Lemma close_handler_leaves_no_maintenance_witness :
  List.length (maintenance_timers (state_after config_no_status 401 1000 opened_no_status))
  = 1%nat
  /\ exists s',
       step config_no_status 401 1000 all_ok (ConnectionUpdate O close_plain)
         (state_after config_no_status 401 1000 opened_no_status)
       = Some s'
       /\ maintenance_timers s' = [].
Proof.
  split; [reflexivity|].
  destruct (close_handler_leaves_no_maintenance config_no_status 401 1000
              opened_no_status all_ok O close_plain
              (state_after config_no_status 401 1000 opened_no_status))
    as (s' & Hs & Hm & _).
  - vm_compute. reflexivity.
  - reflexivity.
  - reflexivity.
  - reflexivity.
  - exists s'. now split.
Defined.

(** X10: in every state a run of the script leads to,
    [startPresenceUpdates] sends one presence update at once and leaves
    exactly one heartbeat interval in the timer table: a new one for the
    given socket, first due [PRESENCE_UPDATE_INTERVAL] ms later, which
    [presenceInterval] refers to; it adds no other timer. *)
Theorem startPresenceUpdates_replaces_interval
    (config : Config) (loggedOut : Z) (capacity : nat)
    (evs : list (Net * Event)) (sock : SockId) (s : State) :
  run config loggedOut capacity evs (boot config) = Some s ->
  let s' := startPresenceUpdates sock s in
  let beat := mkTimer (nextTimer s) (clock s + PRESENCE_UPDATE_INTERVAL)
                (Some PRESENCE_UPDATE_INTERVAL) (CbUpdatePresence sock) in
  filter (fun t => is_CbUpdatePresence (t_callback t)) (timers s') = [beat]
  /\ presenceInterval s' = Some (t_id beat)
  /\ (forall t, In t (timers s') -> t = beat \/ In t (timers s))
  /\ effects s' = effects s ++ [(clock s, Transport sock SendPresenceUpdate)].
Proof.
  intros Hr s' beat.
  destruct (reachable_tracked_fresh config loggedOut capacity evs s Hr) as [Ht _].
  assert (Hold : forall t, In t (timers s) ->
                   is_CbUpdatePresence (t_callback t) = true ->
                   presenceInterval s = Some (t_id t)).
  { intros t Hin Hp. specialize (Ht t Hin).
    destruct (t_callback t); try discriminate. exact Ht. }
  assert (Htm : timers s' = timers (clear_if_set (presenceInterval s) s) ++ [beat]
                /\ presenceInterval s' = Some (t_id beat)
                /\ effects s' = effects s ++ [(clock s, Transport sock SendPresenceUpdate)]).
  { unfold s', beat, startPresenceUpdates, updatePresence, clear_if_set.
    destruct (presenceInterval s); repeat split; reflexivity. }
  destruct Htm as (Htm & Hpi & Hef).
  assert (H1 : filter (fun t => is_CbUpdatePresence (t_callback t))
                 (timers (clear_if_set (presenceInterval s) s)) = []).
  { clear Ht. unfold clear_if_set. destruct (presenceInterval s) as [h|] eqn:Ep; cbn.
    - induction (timers s) as [|t ts IH]; [reflexivity|]. cbn.
      destruct (Nat.eqb_spec (t_id t) h) as [He|Hne]; cbn.
      + apply IH. intros u Hu. apply Hold. now right.
      + destruct (is_CbUpdatePresence (t_callback t)) eqn:Et.
        * specialize (Hold t (or_introl eq_refl) Et). congruence.
        * apply IH. intros u Hu. apply Hold. now right.
    - induction (timers s) as [|t ts IH]; [reflexivity|]. cbn.
      destruct (is_CbUpdatePresence (t_callback t)) eqn:Et.
      + specialize (Hold t (or_introl eq_refl) Et). discriminate.
      + apply IH. intros u Hu. apply Hold. now right. }
  rewrite Htm, filter_app, H1. cbn.
  split; [reflexivity|]. split; [exact Hpi|]. split; [|exact Hef].
  intros t Hin. apply in_app_or in Hin. destruct Hin as [Hin|[<-|[]]]; [right|now left].
  unfold clear_if_set in Hin. destruct (presenceInterval s); [|exact Hin].
  cbn in Hin. now apply filter_In in Hin.
Qed.

Lemma startPresenceUpdates_replaces_interval_witness :
  filter (fun t => is_CbUpdatePresence (t_callback t))
    (timers (startPresenceUpdates 1%nat
               (state_after sample_config 401 1000
                  (closed_while_priming ++ priming_rejected))))
  = [mkTimer 3 (150 + PRESENCE_UPDATE_INTERVAL) (Some PRESENCE_UPDATE_INTERVAL)
       (CbUpdatePresence 1)].
Proof.
  apply (startPresenceUpdates_replaces_interval sample_config 401 1000
           (closed_while_priming ++ priming_rejected) 1%nat).
  vm_compute. reflexivity.
Defined.

(** ** Shutdown *)

(** X11: in every state a run of the script leads to, the [SIGINT]
    handler leaves no heartbeat and no re-subscription interval in the
    timer table, empties the dedup cache and exits with status 0; no event
    changes anything afterwards. *)
Theorem sigint_shuts_down
    (config : Config) (loggedOut : Z) (capacity : nat)
    (evs : list (Net * Event)) (s : State) :
  run config loggedOut capacity evs (boot config) = Some s ->
  let s' := snd (handleSigint s) in
  maintenance_timers s' = []
  /\ viewedStatus s' = []
  /\ exited s' = Some 0
  /\ forall later, run config loggedOut capacity later s' = Some s'.
Proof.
  intros Hr s'.
  destruct (reachable_tracked_fresh config loggedOut capacity evs s Hr) as [Ht _].
  assert (Htm : timers s' = timers (intervals_cleared s)).
  { unfold s', handleSigint, intervals_cleared, clear_if_set. cbn.
    destruct (presenceInterval s); reflexivity. }
  split; [|split; [reflexivity|split; [reflexivity|]]].
  - unfold maintenance_timers. rewrite Htm. now apply cleared_no_maintenance.
  - intros later. now apply run_exited with (code := 0).
Qed.

Lemma sigint_shuts_down_witness :
  maintenance_timers
    (snd (handleSigint
            (state_after sample_config 401 1000
               (closed_while_priming ++ priming_rejected)))) = [].
Proof.
  apply (sigint_shuts_down sample_config 401 1000
           (closed_while_priming ++ priming_rejected)).
  vm_compute. reflexivity.
Defined.

(** ** Incoming calls *)

Lemma rejected_step (ok : IncomingCall -> bool) (c : IncomingCall)
    (rest : list CallEffect) :
  rejected (RejectCall (call_id c) (call_from c)
            :: LogRejected (extractUsername (call_from c)) :: rest)
  = c :: rejected rest.
Proof. now destruct c. Qed.

Lemma rejected_reject_calls_ok (ok : IncomingCall -> bool) (calls : list IncomingCall) :
  forallb ok calls = true ->
  rejected (reject_calls ok calls) = calls
  /\ ~ In LogRejectionError (reject_calls ok calls).
Proof.
  induction calls as [|c rest IH]; [intros _; split; [reflexivity | intros []]|].
  cbn [forallb reject_calls]. intros H. apply andb_true_iff in H.
  destruct H as [Hc Hr]. rewrite Hc. destruct (IH Hr) as [IH1 IH2].
  rewrite (rejected_step ok). split; [now rewrite IH1|].
  intros [H|[H|H]]; try discriminate. contradiction.
Qed.

(** X12: with [antiCall] off [handleIncomingCall] does nothing.  With it
    on, the calls are rejected one by one in the order of the batch: when
    every rejection succeeds each call is rejected once and no error is
    reported; when the rejection of a call fails, the calls before it and
    that call have been passed to [rejectCall], the error is reported last,
    and the calls after it are not rejected at all. *)
Theorem handleIncomingCall_stops_at_first_failure
    (config : Config) (ok : IncomingCall -> bool) :
  (antiCall config = false ->
   forall calls, handleIncomingCall config ok calls = [])
  /\ (antiCall config = true ->
      forall calls, forallb ok calls = true ->
        rejected (handleIncomingCall config ok calls) = calls
        /\ ~ In LogRejectionError (handleIncomingCall config ok calls))
  /\ (antiCall config = true ->
      forall before failed after,
        forallb ok before = true -> ok failed = false ->
        rejected (handleIncomingCall config ok (before ++ failed :: after))
        = before ++ [failed]
        /\ exists done,
             handleIncomingCall config ok (before ++ failed :: after)
             = done ++ [LogRejectionError]).
Proof.
  unfold handleIncomingCall. split; [|split].
  - now intros ->.
  - intros -> calls Hall. cbn [negb]. now apply rejected_reject_calls_ok.
  - intros -> before failed after Hb Hf. cbn [negb].
    induction before as [|c rest IH].
    + cbn [app reject_calls]. rewrite Hf. destruct failed as [id from].
      split; [reflexivity|]. now exists [RejectCall id from].
    + cbn [forallb] in Hb. apply andb_true_iff in Hb. destruct Hb as [Hc Hr].
      cbn [app reject_calls]. rewrite Hc.
      destruct (IH Hr) as [IH1 (done & IH2)].
      rewrite (rejected_step ok). split; [now rewrite IH1|].
      exists (RejectCall (call_id c) (call_from c)
              :: LogRejected (extractUsername (call_from c)) :: done).
      cbn [app]. now rewrite IH2.
Qed.

Lemma handleIncomingCall_stops_at_first_failure_witness :
  rejected (handleIncomingCall
              (mkConfig (Some "BMX") (Some "254700000000") (Some 5000) None
                 true false None false true)
              (fun c => String.eqb (call_id c) "c1")
              ([mkCall "c1" (Some "1@s.whatsapp.net")]
               ++ mkCall "c2" (Some "2@s.whatsapp.net")
               :: [mkCall "c3" (Some "3@s.whatsapp.net")]))
  = [mkCall "c1" (Some "1@s.whatsapp.net")] ++ [mkCall "c2" (Some "2@s.whatsapp.net")].
Proof.
  apply (proj2 (proj2 (handleIncomingCall_stops_at_first_failure
                         (mkConfig (Some "BMX") (Some "254700000000") (Some 5000) None
                            true false None false true)
                         (fun c => String.eqb (call_id c) "c1")))
           eq_refl
           [mkCall "c1" (Some "1@s.whatsapp.net")]
           (mkCall "c2" (Some "2@s.whatsapp.net"))
           [mkCall "c3" (Some "3@s.whatsapp.net")]
           eq_refl eq_refl).
Defined.

(** ** Status views *)

Section StatusView.

Variable config : Config.
Variable capacity : nat.

(** Once [handleStatusView] has been through, the id is in the cache. *)
Lemma handled_then_cached (net : Net) (sock : SockId) (msg : Message) (s : State) :
  (0 < capacity)%nat -> NoDup (viewedStatus s) ->
  JS.has (key_id (key msg))
    (viewedStatus (handleStatusView config capacity net sock msg s)) = true.
Proof.
  intros Hc Hn.
  destruct (handleStatusView_cache config capacity net sock msg s) as [Hv _].
  rewrite Hv. destruct (JS.has (key_id (key msg)) (viewedStatus s)) eqn:E.
  - now rewrite (observeOnce_seen capacity _ _ E).
  - rewrite (observeOnce_new capacity _ _ E). cbn. apply SetFacts.has_In.
    apply newest_survives_cleanup; [exact Hc|].
    rewrite <- (SetFacts.add_absent _ _ E). now apply SetFacts.NoDup_add.
Qed.

Lemma handleStatusView_seen (net : Net) (sock : SockId) (msg : Message) (s : State) :
  JS.has (key_id (key msg)) (viewedStatus s) = true ->
  handleStatusView config capacity net sock msg s = s.
Proof.
  intros H. unfold handleStatusView. now rewrite (observeOnce_seen capacity _ _ H).
Qed.

End StatusView.

(** X13: a status that has just been handled is not handled again: when
    the cache holds no id twice and the capacity is at least 1, after
    [handleStatusView] has run for a message, running it for any message
    with the same id, on any socket and whatever the transport answers,
    changes nothing: no receipt, no reaction, no timer. *)
Theorem status_redelivery_ignored
    (config : Config) (capacity : nat) (net net' : Net) (sock sock' : SockId)
    (msg msg' : Message) (s : State) :
  (0 < capacity)%nat ->
  NoDup (viewedStatus s) ->
  key_id (key msg') = key_id (key msg) ->
  let s1 := handleStatusView config capacity net sock msg s in
  handleStatusView config capacity net' sock' msg' s1 = s1.
Proof.
  intros Hc Hn Hid s1. apply handleStatusView_seen. rewrite Hid.
  now apply handled_then_cached.
Qed.

Lemma status_redelivery_ignored_witness :
  handleStatusView sample_config 1000 all_ok O (status_message "a")
    (handleStatusView sample_config 1000 all_ok O (status_message "a") online)
  = handleStatusView sample_config 1000 all_ok O (status_message "a") online.
Proof.
  apply (status_redelivery_ignored sample_config 1000 all_ok all_ok O O
           (status_message "a") (status_message "a") online).
  - lia.
  - constructor.
  - reflexivity.
Defined.

(** X14: a status whose key has no participant is recorded like any
    other (cache entry and expiry timer) before the sender is looked at,
    but nothing is printed or sent for it; a copy of the same status that
    arrives afterwards with a participant is then ignored. *)
Theorem status_without_participant_uses_its_slot
    (config : Config) (capacity : nat) (net net' : Net) (sock sock' : SockId)
    (msg msg' : Message) (s : State) :
  (0 < capacity)%nat ->
  NoDup (viewedStatus s) ->
  JS.has (key_id (key msg)) (viewedStatus s) = false ->
  JS.truthy_string (key_participant (key msg)) = None ->
  key_id (key msg') = key_id (key msg) ->
  let s1 := handleStatusView config capacity net sock msg s in
  effects s1 = effects s
  /\ JS.has (key_id (key msg)) (viewedStatus s1) = true
  /\ timers s1 = timers s ++ [mkTimer (nextTimer s) (clock s + STATUS_CLEANUP_INTERVAL)
                                None (CbDeleteStatus (key_id (key msg)))]
  /\ handleStatusView config capacity net' sock' msg' s1 = s1.
Proof.
  intros Hc Hn Hnew Hp Hid s1.
  assert (Hs1 : s1 = snd (observeOnce capacity (key_id (key msg)) s)).
  { unfold s1, handleStatusView. rewrite (observeOnce_new capacity _ _ Hnew).
    cbn [negb snd]. now rewrite Hp. }
  assert (Hin : JS.has (key_id (key msg)) (viewedStatus s1) = true)
    by now apply handled_then_cached.
  split; [|split; [exact Hin|split]].
  - rewrite Hs1, (observeOnce_new capacity _ _ Hnew). reflexivity.
  - rewrite Hs1, (observeOnce_new capacity _ _ Hnew). reflexivity.
  - apply handleStatusView_seen. now rewrite Hid.
Qed.

Lemma status_without_participant_uses_its_slot_witness :
  effects (handleStatusView sample_config 1000 all_ok O
             (mkMessage (mkKey "a" (Some "status@broadcast") None)
                (Some (mkContent None))) online)
  = effects online.
Proof.
  apply (status_without_participant_uses_its_slot sample_config 1000 all_ok all_ok O O
           (mkMessage (mkKey "a" (Some "status@broadcast") None) (Some (mkContent None)))
           (status_message "a") online).
  - lia.
  - constructor.
  - reflexivity.
  - reflexivity.
  - reflexivity.
Defined.

(** ** Eviction and expiry *)

(** X15: on a cache that holds no id twice, [cleanupViewedStatus] removes
    exactly the oldest entries in excess of the capacity and keeps the
    others in insertion order; a cache within the capacity is left as it
    is. *)
Theorem eviction_drops_oldest (capacity : nat) (cache : JS.StrSet) :
  NoDup cache ->
  exists oldest,
    cache = oldest ++ cleanupViewedStatus capacity cache
    /\ List.length oldest = (JS.size cache - capacity)%nat
    /\ ((JS.size cache <= capacity)%nat -> cleanupViewedStatus capacity cache = cache).
Proof.
  intros Hn. exists (firstn (JS.size cache - capacity) cache).
  rewrite (cleanupViewedStatus_skipn capacity cache Hn).
  split; [now rewrite firstn_skipn|]. split.
  - rewrite length_firstn. unfold JS.size. lia.
  - intros Hle. replace (JS.size cache - capacity)%nat with O by lia. reflexivity.
Qed.

Lemma eviction_drops_oldest_witness :
  exists oldest,
    ["a"; "b"; "c"; "d"; "e"] = oldest ++ cleanupViewedStatus 3 ["a"; "b"; "c"; "d"; "e"]
    /\ List.length oldest = 2%nat.
Proof.
  destruct (eviction_drops_oldest 3 ["a"; "b"; "c"; "d"; "e"]) as (oldest & H1 & H2 & _).
  - repeat constructor; cbn; intuition discriminate.
  - exists oldest. split; [exact H1 | exact H2].
Defined.

Lemma has_delete_other (x y : string) (l : JS.StrSet) :
  x <> y -> JS.has x (JS.delete y l) = JS.has x l.
Proof.
  intros Hne. destruct (JS.has x l) eqn:E.
  - apply SetFacts.has_In. apply SetFacts.In_delete. split; [|exact Hne].
    now apply SetFacts.has_In.
  - apply SetFacts.has_false. intros Hin. apply SetFacts.In_delete in Hin.
    apply SetFacts.has_false in E. tauto.
Qed.

(** X16: when the expiry timer of a status id fires, that id, and only
    that id, leaves the cache, the timer leaves the table, nothing is
    printed or sent, and the id is new again for [observeOnce]. *)
Theorem expiry_removes_its_id_only
    (config : Config) (loggedOut : Z) (capacity : nat) (net : Net)
    (h : TimerId) (t : Timer) (statusId : string) (s : State) :
  exited s = None ->
  find_timer h s = Some t ->
  t_callback t = CbDeleteStatus statusId ->
  t_every t = None ->
  t_due t <= clock s ->
  exists s',
    step config loggedOut capacity net (Fire h) s = Some s'
    /\ viewedStatus s' = JS.delete statusId (viewedStatus s)
    /\ (forall other, other <> statusId ->
          JS.has other (viewedStatus s') = JS.has other (viewedStatus s))
    /\ fst (observeOnce capacity statusId s') = true
    /\ find_timer h s' = None
    /\ effects s' = effects s.
Proof.
  intros Hex Hf Hcb Hev Hdue. unfold step. rewrite Hex, Hf.
  apply Z.leb_le in Hdue. rewrite Hdue, Hcb. cbn [run_callback].
  destruct (find_timer_In h t s Hf) as [_ Hid].
  exists (with_viewedStatus (JS.delete statusId (viewedStatus s)) (clearInterval h s)).
  split; [unfold rearm; rewrite Hev, Hid; reflexivity|].
  split; [reflexivity|]. split; [|split; [|split; [|reflexivity]]].
  - intros other Hne.
    change (JS.has other (JS.delete statusId (viewedStatus s))
            = JS.has other (viewedStatus s)).
    now apply has_delete_other.
  - rewrite observeOnce_result.
    change (negb (JS.has statusId (JS.delete statusId (viewedStatus s))) = true).
    replace (JS.has statusId (JS.delete statusId (viewedStatus s))) with false;
      [reflexivity|].
    symmetry. apply SetFacts.has_false. intros Hin.
    apply SetFacts.In_delete in Hin. tauto.
  - unfold find_timer.
    change (timers (with_viewedStatus (JS.delete statusId (viewedStatus s))
                      (clearInterval h s)))
      with (filter (fun u => negb (Nat.eqb (t_id u) h)) (timers s)).
    destruct (find (fun u => Nat.eqb (t_id u) h)
                (filter (fun u => negb (Nat.eqb (t_id u) h)) (timers s))) as [u|] eqn:E;
      [|reflexivity].
    apply find_some in E. destruct E as [Hin He]. apply filter_In in Hin.
    destruct Hin as [_ Hn]. rewrite He in Hn. discriminate.
Qed.

Lemma expiry_removes_its_id_only_witness :
  exists s',
    step sample_config 401 1000 all_ok (Fire O)
      (state_after sample_config 401 1000
         (registered_bootstrap ++ [sees "a"; sees "b"; (all_ok, Elapse 3600000)]))
    = Some s'
    /\ viewedStatus s' = ["b"].
Proof.
  destruct (expiry_removes_its_id_only sample_config 401 1000 all_ok O
              (mkTimer O 3600000 None (CbDeleteStatus "a")) "a"
              (state_after sample_config 401 1000
                 (registered_bootstrap ++ [sees "a"; sees "b"; (all_ok, Elapse 3600000)])))
    as (s' & Hs & Hv & _).
  - reflexivity.
  - reflexivity.
  - reflexivity.
  - reflexivity.
  - apply Z.leb_le. vm_compute. reflexivity.
  - exists s'. split; [exact Hs|]. rewrite Hv. reflexivity.
Defined.

(** ** Anti-delete and message handling *)

(** X17: [handleAntiDelete] only adds to the console and the transport
    log.  It makes at most one transport call, on the socket it was given:
    a [sendMessage] to the owner's jid alerting about a deleted jid that is
    never "status@broadcast" and never empty; the cache, the timers, the
    tasks and the exit status are left alone. *)
Theorem handleAntiDelete_alerts_owner_only
    (config : Config) (net : Net) (sock : SockId) (msg : Message) (s : State) :
  let s' := handleAntiDelete config net sock msg s in
  exists added,
    effects s' = effects s ++ added
    /\ (List.length (transport_calls added) <= 1)%nat
    /\ (forall k c, In (k, c) (transport_calls added) ->
          k = sock
          /\ exists jid, c = SendMessage (ownerJid config) (PAlert jid)
                         /\ jid <> "status@broadcast" /\ jid <> "")
    /\ viewedStatus s' = viewedStatus s /\ timers s' = timers s
    /\ tasks s' = tasks s /\ exited s' = exited s.
Proof.
  unfold handleAntiDelete.
  assert (Hnone : exists added : list (Z * Effect),
             effects s = effects s ++ added
             /\ (List.length (transport_calls added) <= 1)%nat
             /\ (forall k c, In (k, c) (transport_calls added) ->
                   k = sock
                   /\ exists jid, c = SendMessage (ownerJid config) (PAlert jid)
                                  /\ jid <> "status@broadcast" /\ jid <> "")
             /\ viewedStatus s = viewedStatus s /\ timers s = timers s
             /\ tasks s = tasks s /\ exited s = exited s).
  { exists []. rewrite app_nil_r. cbn. repeat split; try lia; try contradiction. }
  destruct (message msg) as [content|]; [|exact Hnone].
  destruct (protocolMessage content) as [pm|]; [|exact Hnone].
  destruct (negb (Z.eqb (pm_type pm) 0)); [exact Hnone|].
  destruct (pm_key pm) as [deletedKey|].
  2:{ exists [(clock s, Print LogAntiDeleteError)]. cbn.
      repeat split; try lia; try contradiction. }
  destruct (JS.truthy_string (key_remoteJid deletedKey)) as [deletedJid|] eqn:Ej;
    [|exact Hnone].
  destruct (String.eqb_spec deletedJid "status@broadcast") as [|Hne]; [exact Hnone|].
  assert (Hnonempty : deletedJid <> "").
  { apply truthy_string_Some in Ej. tauto. }
  fold (ownerJid config).
  destruct (transport_ok net sock _);
    [exists [(clock s, Transport sock (SendMessage (ownerJid config) (PAlert deletedJid)));
             (clock s, Print (LogAntiDelete (extractUsername (Some deletedJid))))]
    |exists [(clock s, Transport sock (SendMessage (ownerJid config) (PAlert deletedJid)));
             (clock s, Print LogAntiDeleteError)]];
    (split; [cbn; now rewrite <- app_assoc|]);
    (split; [cbn; lia|]);
    (split; [|repeat split]);
    intros k c [[= <- <-]|[]]; (split; [reflexivity|]); now exists deletedJid.
Qed.

(** X18: message handling does not touch the connection supervisor:
    [handleIncomingMessages] leaves the retry counter, both interval
    handles, the suspended activations, the sockets, the listeners, the
    clock and the exit status as they are, and the only timer it may add
    is the expiry timer of the first message's id. *)
Theorem handleIncomingMessages_leaves_connection_alone
    (config : Config) (capacity : nat)
    (net : Net) (sock : SockId) (messages : list Message) (s : State) :
  let s' := handleIncomingMessages config capacity net sock messages s in
  retryAttempts s' = retryAttempts s
  /\ presenceInterval s' = presenceInterval s
  /\ statusSyncInterval s' = statusSyncInterval s
  /\ tasks s' = tasks s /\ sockets s' = sockets s /\ listening s' = listening s
  /\ clock s' = clock s /\ exited s' = exited s
  /\ (timers s' = timers s
      \/ exists msg rest,
           messages = msg :: rest
           /\ timers s' = timers s
                          ++ [mkTimer (nextTimer s) (clock s + STATUS_CLEANUP_INTERVAL)
                                None (CbDeleteStatus (key_id (key msg)))]).
Proof.
  assert (Ha : forall msg x,
             let y := handleAntiDelete config net sock msg x in
             retryAttempts y = retryAttempts x
             /\ presenceInterval y = presenceInterval x
             /\ statusSyncInterval y = statusSyncInterval x
             /\ tasks y = tasks x /\ sockets y = sockets x /\ listening y = listening x
             /\ clock y = clock x /\ exited y = exited x /\ timers y = timers x).
  { intros msg x. unfold handleAntiDelete.
    repeat first [ progress (repeat split; try reflexivity)
                 | match goal with
                   | |- context [match ?c with _ => _ end] => destruct c
                   end ]. }
  assert (Hs : forall msg,
             let y := handleStatusView config capacity net sock msg s in
             retryAttempts y = retryAttempts s
             /\ presenceInterval y = presenceInterval s
             /\ statusSyncInterval y = statusSyncInterval s
             /\ tasks y = tasks s /\ sockets y = sockets s /\ listening y = listening s
             /\ clock y = clock s /\ exited y = exited s
             /\ (timers y = timers s
                 \/ timers y = timers s
                               ++ [mkTimer (nextTimer s) (clock s + STATUS_CLEANUP_INTERVAL)
                                     None (CbDeleteStatus (key_id (key msg)))])).
  { intros msg. unfold handleStatusView, observeOnce.
    destruct (JS.has (key_id (key msg)) (viewedStatus s)); cbn -[STATUS_CLEANUP_INTERVAL].
    - repeat split; try reflexivity. now left.
    - repeat first [ progress (repeat split; try reflexivity; try (now right))
                   | match goal with
                     | |- context [match ?c with _ => _ end] => destruct c
                     end ]. }
  unfold handleIncomingMessages.
  destruct messages as [|msg rest]; [cbn; repeat split; try reflexivity; now left|].
  destruct (message msg); [|cbn; repeat split; try reflexivity; now left].
  specialize (Hs msg). cbv zeta in Hs.
  destruct Hs as (H1 & H2 & H3 & H4 & H5 & H6 & H7 & H8 & H9).
  assert (Hmid : forall y,
             y = (if (is_status_broadcast (key_remoteJid (key msg))
                      && autoViewStatus config)%bool
                  then handleStatusView config capacity net sock msg s else s) ->
             retryAttempts y = retryAttempts s
             /\ presenceInterval y = presenceInterval s
             /\ statusSyncInterval y = statusSyncInterval s
             /\ tasks y = tasks s /\ sockets y = sockets s /\ listening y = listening s
             /\ clock y = clock s /\ exited y = exited s
             /\ (timers y = timers s
                 \/ timers y = timers s
                               ++ [mkTimer (nextTimer s) (clock s + STATUS_CLEANUP_INTERVAL)
                                     None (CbDeleteStatus (key_id (key msg)))])).
  { intros y ->. destruct (_ && _)%bool.
    - repeat split; assumption.
    - repeat split; try reflexivity. now left. }
  cbv zeta.
  set (mid := if (is_status_broadcast (key_remoteJid (key msg))
                  && autoViewStatus config)%bool
              then handleStatusView config capacity net sock msg s else s) in *.
  destruct (Hmid mid eq_refl) as (M1 & M2 & M3 & M4 & M5 & M6 & M7 & M8 & M9).
  assert (Hend : forall z,
             z = (if antiDelete config
                  then handleAntiDelete config net sock msg mid else mid) ->
             retryAttempts z = retryAttempts mid
             /\ presenceInterval z = presenceInterval mid
             /\ statusSyncInterval z = statusSyncInterval mid
             /\ tasks z = tasks mid /\ sockets z = sockets mid
             /\ listening z = listening mid
             /\ clock z = clock mid /\ exited z = exited mid /\ timers z = timers mid).
  { intros z ->. destruct (antiDelete config); [apply Ha | repeat split; reflexivity]. }
  destruct (Hend _ eq_refl) as (E1 & E2 & E3 & E4 & E5 & E6 & E7 & E8 & E9).
  repeat split; try congruence.
  rewrite E9. destruct M9 as [M9|M9]; [left; exact M9 | right].
  exists msg, rest. split; [reflexivity | exact M9].
Qed.

(** ** With status viewing switched off *)

Section StatusOff.

Variable config : Config.
Variable loggedOut : Z.
Variable capacity : nat.
Hypothesis off : autoViewStatus config = false.

Lemma idle_clear_if_set (h : option TimerId) (s : State) :
  idle_change s (clear_if_set h s).
Proof. destruct h; [apply idle_clearInterval | apply idle_refl]. Qed.

Ltac idle_same := apply idle_other; reflexivity.

Ltac idle :=
  lazymatch goal with
  | |- idle_change ?s ?s => apply idle_refl
  | |- idle_change ?s (print ?l ?x) =>
      apply (idle_trans s x); [|apply idle_emit; reflexivity]
  | |- idle_change ?s (call ?k ?c ?x) =>
      apply (idle_trans s x); [|apply idle_emit; reflexivity]
  | |- idle_change ?s (emit ?e ?x) =>
      apply (idle_trans s x); [|apply idle_emit; reflexivity]
  | |- idle_change ?s (snd (setTimeout ?cb ?d ?x)) =>
      apply (idle_trans s x); [|apply idle_setTimeout; reflexivity]
  | |- idle_change ?s (snd (setInterval ?cb ?d ?x)) =>
      apply (idle_trans s x); [|apply idle_setInterval; reflexivity]
  | |- idle_change ?s (clear_if_set ?h ?x) =>
      apply (idle_trans s x); [|apply idle_clear_if_set]
  | |- idle_change ?s (put_task ?k ?t ?x) => apply (idle_trans s x); [|idle_same]
  | |- idle_change ?s (drop_task ?k ?x) => apply (idle_trans s x); [|idle_same]
  | |- idle_change ?s (snd (spawn ?t ?x)) => apply (idle_trans s x); [|idle_same]
  | |- idle_change ?s (with_retryAttempts ?v ?x) =>
      apply (idle_trans s x); [|idle_same]
  | |- idle_change ?s (with_exited ?v ?x) => apply (idle_trans s x); [|idle_same]
  | |- idle_change ?s (with_sockets ?v ?x) => apply (idle_trans s x); [|idle_same]
  | |- idle_change ?s (with_listening ?v ?x) => apply (idle_trans s x); [|idle_same]
  | |- idle_change ?s (with_presenceInterval ?v ?x) =>
      apply (idle_trans s x); [|idle_same]
  | |- idle_change ?s (if ?c then _ else _) => destruct c
  | |- idle_change ?s (match ?c with _ => _ end) => destruct c
  end.

Lemma idle_handleAntiDelete (net : Net) (sock : SockId) (msg : Message) (s : State) :
  idle_change s (handleAntiDelete config net sock msg s).
Proof. unfold handleAntiDelete. repeat idle. Qed.

Lemma idle_handleIncomingMessages (net : Net) (sock : SockId)
    (messages : list Message) (s : State) :
  idle_change s (handleIncomingMessages config capacity net sock messages s).
Proof.
  unfold handleIncomingMessages.
  destruct messages as [|msg rest]; [apply idle_refl|].
  destruct (message msg); [|apply idle_refl].
  rewrite off, andb_false_r.
  destruct (antiDelete config); [apply idle_handleAntiDelete | apply idle_refl].
Qed.

Lemma idle_startPresenceUpdates (sock : SockId) (s : State) :
  idle_change s (startPresenceUpdates sock s).
Proof.
  change (startPresenceUpdates sock s)
    with (with_presenceInterval
            (Some (nextTimer (updatePresence sock (clear_if_set (presenceInterval s) s))))
            (snd (setInterval (CbUpdatePresence sock) PRESENCE_UPDATE_INTERVAL
                    (updatePresence sock (clear_if_set (presenceInterval s) s))))).
  unfold updatePresence. repeat idle.
Qed.

Lemma idle_opened (sock : SockId) (s : State) :
  idle_change s (handleConnectionUpdate_opened config sock s).
Proof.
  unfold handleConnectionUpdate_opened, startStatusSync. rewrite off. cbn [negb].
  apply idle_startPresenceUpdates.
Qed.

Lemma idle_handleConnectionUpdate (update : Update) (sock : SockId) (s : State) :
  idle_change s (handleConnectionUpdate config loggedOut update sock s).
Proof.
  unfold handleConnectionUpdate, initializeStatusViewing.
  destruct (connection update) as [[| |]|]; try apply idle_refl.
  - cbv zeta. repeat idle.
  - cbv zeta. rewrite off. cbn [negb]. repeat idle.
Qed.

Lemma idle_startBot_catch (message : string) (s : State) :
  idle_change s (startBot_catch config message s).
Proof. unfold startBot_catch. cbv zeta. repeat idle. Qed.

Lemma idle_startBot (s : State) : idle_change s (startBot config s).
Proof.
  unfold startBot. destruct (validateConfig config);
    [repeat idle | apply idle_startBot_catch].
Qed.

Lemma idle_getPairingCode (k : TaskId) (sock : SockId) (s : State) :
  idle_change s (outcome_state (getPairingCode config k sock s)).
Proof. unfold getPairingCode, outcome_state. cbv zeta. repeat idle. Qed.

Lemma idle_getPairingCode_catch (k : TaskId) (sock : SockId) (message : string)
    (s : State) :
  idle_change s (outcome_state (getPairingCode_catch k sock message s)).
Proof.
  unfold getPairingCode_catch. cbv zeta.
  destruct (Z.ltb _ _); cbn [outcome_state]; repeat idle.
Qed.

Lemma idle_getPairingCode_resume (k : TaskId) (sock : SockId) (at_ : PairingPoint)
    (w : Wake) (s : State) (o : Outcome) :
  getPairingCode_resume config k sock at_ w s = Some o ->
  idle_change s (outcome_state o).
Proof.
  unfold getPairingCode_resume.
  destruct at_ as [| |phoneNumber|]; destruct w as [|[[|answer|]|message]];
    try discriminate.
  - intros [= <-]. cbn [outcome_state]. repeat idle.
  - destruct (valid_phone (formatPhoneNumber answer)); cbn [negb]; intros [= <-].
    + cbn [outcome_state]. repeat idle.
    + apply idle_getPairingCode_catch.
  - intros [= <-]. cbn [outcome_state]. repeat idle.
  - intros [= <-]. apply idle_getPairingCode_catch.
  - intros [= <-]. apply idle_getPairingCode.
Qed.

Lemma idle_startBot_listen (sock : SockId) (s : State) :
  idle_change s (startBot_listen sock s).
Proof. unfold startBot_listen. cbv zeta. repeat idle. Qed.

Lemma idle_startBot_paired (k : TaskId) (sock : SockId) (o : Outcome) :
  idle_change (outcome_state o) (startBot_paired config k sock o).
Proof.
  destruct o as [s|s|message s]; cbn [outcome_state startBot_paired].
  - apply idle_refl.
  - eapply idle_trans; [|apply idle_startBot_listen]. repeat idle.
  - eapply idle_trans; [|apply idle_startBot_catch]. repeat idle.
Qed.

Lemma idle_startBot_connect (net : Net) (k : TaskId) (registered : bool) (s : State) :
  idle_change s (startBot_connect config net k registered s).
Proof.
  unfold startBot_connect. cbv zeta. destruct (negb (construct_ok net)).
  - eapply idle_trans; [|apply idle_startBot_catch]. repeat idle.
  - destruct (negb registered).
    + eapply idle_trans; [|apply idle_startBot_paired].
      eapply idle_trans; [|apply idle_getPairingCode]. repeat idle.
    + eapply idle_trans; [|apply idle_startBot_listen]. repeat idle.
Qed.

Lemma idle_resume (net : Net) (k : TaskId) (t : Task) (w : Wake) (s s' : State) :
  resume config net k t w s = Some s' -> idle_change s s'.
Proof.
  unfold resume. destruct t as [|registered|sock at_|sock|sock].
  - destruct w as [|[[| |registered]|message]]; try discriminate; intros [= <-].
    + repeat idle.
    + eapply idle_trans; [|apply idle_startBot_catch]. repeat idle.
  - destruct w as [|[v|message]]; try discriminate; intros [= <-].
    + apply idle_startBot_connect.
    + eapply idle_trans; [|apply idle_startBot_catch]. repeat idle.
  - destruct (getPairingCode_resume config k sock at_ w s) as [o|] eqn:E;
      [|discriminate].
    intros [= <-]. eapply idle_trans; [|apply idle_startBot_paired].
    eapply idle_getPairingCode_resume. exact E.
  - destruct w as [|r]; try discriminate. intros [= <-].
    eapply idle_trans; [|apply idle_opened].
    unfold initializeStatusViewing_settled. destruct r; repeat idle.
  - destruct w as [|[[| |]|]]; try discriminate. intros [= <-].
    eapply idle_trans; [|apply idle_opened]. repeat idle.
Qed.

Lemma forallb_snoc (A : Type) (f : A -> bool) (l : list A) (x : A) :
  forallb f l = true -> f x = true -> forallb f (l ++ [x]) = true.
Proof. intros Hl Hx. rewrite forallb_app, Hl. cbn. now rewrite Hx. Qed.

Lemma forallb_filter_keeps (A : Type) (f g : A -> bool) (l : list A) :
  forallb f l = true -> forallb f (filter g l) = true.
Proof.
  intros H. apply forallb_forall. intros x Hx. apply filter_In in Hx.
  rewrite forallb_forall in H. now apply H.
Qed.

Lemma idle_change_keeps (s s' : State) :
  idle_change s s' -> status_idle s -> status_idle s'.
Proof.
  unfold status_idle.
  induction 1 as [s|s1 s2 s3 _ IH1 _ IH2|s s' Hv Hi Ht He|e s He|cb delay s Hc
                 |cb delay s Hc|h s|t s]; intros (Hv0 & Hi0 & Ht0 & He0).
  - now repeat split.
  - apply IH2, IH1. now repeat split.
  - rewrite Hv, Hi, Ht, He. now repeat split.
  - cbn. repeat split; try assumption.
    apply forallb_snoc; [assumption|]. cbn. now rewrite He.
  - cbn. repeat split; try assumption.
    apply forallb_snoc; [assumption|]. cbn. now rewrite Hc.
  - cbn. repeat split; try assumption.
    apply forallb_snoc; [assumption|]. cbn. now rewrite Hc.
  - cbn. repeat split; try assumption. now apply forallb_filter_keeps.
  - unfold rearm. destruct (t_every t); cbn; repeat split; try assumption.
    + apply forallb_forall. intros u Hu. apply in_map_iff in Hu.
      destruct Hu as (u0 & <- & Hu0). rewrite forallb_forall in Ht0.
      specialize (Ht0 u0 Hu0). now destruct (Nat.eqb _ _).
    + now apply forallb_filter_keeps.
Qed.

Lemma idle_step (net : Net) (e : Event) (s s' : State) :
  step config loggedOut capacity net e s = Some s' ->
  status_idle s -> status_idle s'.
Proof.
  unfold step. destruct (exited s) as [code|].
  { now intros [= <-]. }
  destruct e as [ms|h|k r|sock update|sock messages].
  - destruct (_ && _)%bool; [|discriminate]. intros [= <-]. exact (fun H => H).
  - destruct (find_timer h s) as [t|] eqn:Ef; [|discriminate].
    destruct (Z.leb (t_due t) (clock s)); [|discriminate].
    intros Hr Hs.
    assert (Hcb : status_callback (t_callback t) = false).
    { destruct Hs as (_ & _ & Ht & _). rewrite forallb_forall in Ht.
      apply negb_true_iff, Ht. exact (proj1 (find_timer_In h t s Ef)). }
    assert (Hs1 : status_idle (rearm t s)).
    { eapply idle_change_keeps; [apply idle_rearm | exact Hs]. }
    revert Hr Hs1. generalize (rearm t s) as s1. intros s1.
    destruct (t_callback t) as [|statusId|sock|sock|k]; try discriminate Hcb; cbn.
    + intros [= <-]. apply idle_change_keeps, idle_startBot.
    + intros [= <-]. apply idle_change_keeps. unfold updatePresence. repeat idle.
    + destruct (find_task k s1) as [task|]; [|discriminate].
      intros Hr. apply idle_change_keeps. eapply idle_resume. exact Hr.
  - destruct (find_task k s) as [t|]; [|discriminate].
    intros Hr. apply idle_change_keeps. eapply idle_resume. exact Hr.
  - destruct (is_listening sock s); intros [= <-]; [|exact (fun H => H)].
    apply idle_change_keeps, idle_handleConnectionUpdate.
  - destruct (is_listening sock s); intros [= <-]; [|exact (fun H => H)].
    apply idle_change_keeps, idle_handleIncomingMessages.
Qed.

Lemma idle_run (evs : list (Net * Event)) :
  forall s s', run config loggedOut capacity evs s = Some s' ->
               status_idle s -> status_idle s'.
Proof.
  induction evs as [|[net e] evs IH]; intros s s' Hr; cbn in Hr.
  - now injection Hr as <-.
  - destruct (step config loggedOut capacity net e s) as [s1|] eqn:Es; [|discriminate].
    intros Hs. eapply IH; [exact Hr|]. eapply idle_step; eassumption.
Qed.

End StatusOff.

(** X19: with [autoViewStatus] off the status feature does nothing at
    all.  In every run of the script the cache stays empty, no subscription
    refresh interval is registered, no expiry or refresh timer is pending,
    and no status is marked read, subscribed to or reacted to. *)
Theorem status_feature_off
    (config : Config) (loggedOut : Z) (capacity : nat)
    (evs : list (Net * Event)) (s : State) :
  autoViewStatus config = false ->
  run config loggedOut capacity evs (boot config) = Some s ->
  status_idle s.
Proof.
  intros Hoff Hr. apply (idle_run config loggedOut capacity Hoff evs _ _ Hr).
  apply (idle_change_keeps fresh); [apply idle_startBot|].
  now repeat split.
Qed.

Lemma status_feature_off_witness :
  status_idle (state_after config_no_status 401 1000 open_then_status).
Proof.
  apply (status_feature_off config_no_status 401 1000 open_then_status).
  - reflexivity.
  - vm_compute. reflexivity.
Defined.
